(** * LunaFrost: chapter positions of a novel

    A shallow embedding of the chapter ordering code of LunaFrost:

    - [database/db_novel.py]: [extract_episode_id_from_url],
      [parse_chapter_number], [add_chapter_atomic] (and the single UPDATE
      variant of its shift kept in [Translator/models/db_novel.py]),
      [get_novel_with_chapters_db], [get_next_chapter_position_db],
      [get_chapter_db], [update_chapter_db], [delete_chapter_db],
      [get_chapters_for_novel_db], [delete_novel_db];
    - [database/database.py]: [db_session_scope];
    - [models/novel.py]: [sort_chapters_by_number], [delete_chapter],
      [delete_novel], [get_display_title];
    - [Translator/routes/api_routes.py]: [resort_chapters].

    Modelling decisions.

    - A table is the list of its rows in storage order.  A query filters that
      list; [order_by] is a stable sort of the filtered rows, [first] takes
      the head.
    - Python integers are [Z].  A flush that writes a chapter row checks
      what the schema of [chapters] declares for the columns of the model:
      [position] is a 32-bit [Integer] (DataError beyond it) and the index on
      [(novel_id, slug)] is unique (IntegrityError for a slug in use).  The
      chapter data handed in are taken to carry a slug and a title and
      strings that fit their columns, and the key sequence not to run out,
      so that the position that a renumbering writes, an index into the
      chapters of a novel, is a value of the column.  The sequence is
      outside the transactions of the database: a rollback restores the
      rows and keeps the keys drawn.
    - The rows of [translation_token_usage] are counted at the chapter they
      point to, as the backref [token_usage_records] shows them.  The flush
      of [session.delete(chapter)] detaches them first, which their NOT NULL
      [chapter_id] refuses with an IntegrityError.
    - [update_chapter_db] is modelled for updates that the storage accepts.
    - An ORM object is identified by its primary key; an attribute write
      [ch.position = v] rewrites the row carrying that key.
    - Python strings are [string]: strings whose characters lie below
      U+0100, where the class [\d] holds the ASCII digits only.  The builtin
      [int] is applied to runs of digits within its limit of 4300 digits.
    - Python floats are binary64 values in the format of [SpecFloat]; the
      builtins [float] and [int] applied to a string are parameters.
    - Files on disk (images, covers) are outside the model.
    - Rows with equal positions come out of [order_by] in storage order; SQL
      leaves their order open.  The order of a query without [order_by] that
      returns all rows is an argument of the function that makes it.
    - Concurrent calls of [add_chapter_atomic] are modelled for one novel.
      The first statement of a call, [SELECT ... FOR UPDATE], returns only
      when no other open transaction holds a lock on the row it locks; the
      locks of a transaction are those its session has recorded, and that
      no two calls are in their transactions at once is proved from them,
      not assumed.  The body reads the committed rows; the commit publishes
      what the session holds and releases its locks. *)

From Stdlib Require Import ZArith List String Ascii Bool Lia.
From Stdlib Require Import Permutation Sorted.
From Stdlib Require Import Floats.SpecFloat.
Import ListNotations.

Local Open Scope string_scope.
Local Open Scope list_scope.
Local Open Scope Z_scope.

(** ** Python values *)

(** Truth value of an optional string: [None] and [""] are false. *)
Definition truthy (s : option string) : bool :=
  match s with
  | Some (String _ _) => true
  | _ => false
  end.

Definition option_string_eqb (a b : option string) : bool :=
  match a, b with
  | Some x, Some y => String.eqb x y
  | None, None => true
  | _, _ => false
  end.

(** [l[i]] with Python's negative indices; [None] stands for IndexError. *)
Definition py_index {A : Type} (l : list A) (i : Z) : option A :=
  let n := Z.of_nat (List.length l) in
  if 0 <=? i then nth_error l (Z.to_nat i)
  else if 0 <=? n + i then nth_error l (Z.to_nat (n + i))
  else None.

(** ** The pattern [/viewer/(\d+)] *)

Definition is_digit (c : ascii) : bool :=
  ((48 <=? nat_of_ascii c) && (nat_of_ascii c <=? 57))%nat.

Definition digit_value (c : ascii) : Z := Z.of_nat (nat_of_ascii c) - 48.

(** The longest run of digits at the head of a string: the greedy [\d+]. *)
Fixpoint take_digits (s : string) : list ascii :=
  match s with
  | String c rest => if is_digit c then c :: take_digits rest else []
  | EmptyString => []
  end.

(** [int] on a run of decimal digits. *)
Definition int_of_digits (ds : list ascii) : Z :=
  fold_left (fun acc c => 10 * acc + digit_value c) ds 0.

Fixpoint strip_prefix (p s : string) : option string :=
  match p, s with
  | EmptyString, _ => Some s
  | String a p', String b s' =>
      if Ascii.eqb a b then strip_prefix p' s' else None
  | String _ _, EmptyString => None
  end.

(** [re.search(r'/viewer/(\d+)', s)]: the leftmost start at which the
    pattern matches; the result is group 1. *)
Fixpoint search_viewer (s : string) : option (list ascii) :=
  match s with
  | EmptyString => None
  | String _ rest =>
      match strip_prefix "/viewer/" s with
      | Some tail =>
          match take_digits tail with
          | [] => search_viewer rest
          | ds => Some ds
          end
      | None => search_viewer rest
      end
  end.

Definition extract_episode_id_from_url (source_url : option string)
  : option Z :=
  match source_url with
  | None => None
  | Some EmptyString => None
  | Some s =>
      match search_viewer s with
      | Some ds => Some (int_of_digits ds)
      | None => None
      end
  end.

(** ** Rows *)

Module Novel.
Record t := mk {
  id : Z;
  user_id : string;
  slug : string;
  sort_order_override : option string
}.
End Novel.

Module Chapter.
Record t := mk {
  id : Z;
  novel_id : Z;
  slug : string;
  title : string;
  chapter_number : option string;
  source_url : option string;
  position : Z;
  is_bonus : bool;
  token_usage_records : nat   (* rows of translation_token_usage *)
}.

Definition with_position (p : Z) (c : t) : t :=
  mk (id c) (novel_id c) (slug c) (title c) (chapter_number c)
     (source_url c) p (is_bonus c) (token_usage_records c).

Definition with_token_usage_records (n : nat) (c : t) : t :=
  mk (id c) (novel_id c) (slug c) (title c) (chapter_number c)
     (source_url c) (position c) (is_bonus c) n.
End Chapter.

(** The dictionary [chapter_data] handed to [add_chapter_atomic].  A field
    read with [.get] is optional; [slug] is read with [chapter_data['slug']]
    and is always supplied by the caller. *)
Module ChapterData.
Record t := mk {
  slug : string;
  title : string;
  chapter_number : option string;
  source_url : option string;
  position : option Z;
  is_bonus : bool
}.
End ChapterData.

(** The dictionary built by [Chapter.to_dict]; [position] is optional because
    [sort_chapters_by_number] reads it with a default. *)
Module ChapterDict.
Record t := mk {
  id : Z;
  chapter_number : option string;
  source_url : option string;
  position : option Z
}.
End ChapterDict.

Definition to_dict (c : Chapter.t) : ChapterDict.t :=
  ChapterDict.mk (Chapter.id c) (Chapter.chapter_number c)
                 (Chapter.source_url c) (Some (Chapter.position c)).

(** ** Sorting *)

Section Sorting.
Variable A : Type.
Variable key : A -> Z.

(** [x] goes before the first element whose key is not smaller, so that
    folding from the right keeps equal keys in their original order. *)
Fixpoint insert_by (x : A) (l : list A) : list A :=
  match l with
  | [] => [x]
  | y :: l' => if key x <=? key y then x :: l else y :: insert_by x l'
  end.

Definition stable_sort (l : list A) : list A := fold_right insert_by [] l.

(** [sorted(l, key=key, reverse=reverse)]: with [reverse] the list is
    reversed, sorted and reversed again, as the list sort does to keep
    equal keys in their original order. *)
Definition sorted (reverse : bool) (l : list A) : list A :=
  if reverse then rev (stable_sort (rev l)) else stable_sort l.
End Sorting.

Arguments insert_by {A} key x l.
Arguments stable_sort {A} key l.
Arguments sorted {A} key reverse l.

(** ** The database and the session *)

Record Database := mkDatabase {
  novels : list Novel.t;
  chapters : list Chapter.t;
  next_chapter_id : Z
}.

Inductive exn :=
| ValueError (msg : string)
| IndexError
| IntegrityError
| DataError.

Inductive outcome (A : Type) :=
| Return (a : A)
| Raise (e : exn).
Arguments Return {A} a.
Arguments Raise {A} e.

(** An open session: the rows as the transaction sees them and the novel
    rows it has locked with [FOR UPDATE]. *)
Record Session := mkSession {
  data : Database;
  locked : list Z
}.

Definition Tx (A : Type) : Type := Session -> outcome A * Session.

Definition ret {A} (a : A) : Tx A := fun s => (Return a, s).
Definition raise {A} (e : exn) : Tx A := fun s => (Raise e, s).
Definition bind {A B} (m : Tx A) (k : A -> Tx B) : Tx B :=
  fun s =>
    match m s with
    | (Return a, s') => k a s'
    | (Raise e, s') => (Raise e, s')
    end.

Notation "x <- m ;; k" := (bind m (fun x => k))
  (at level 61, m at next level, right associativity).
Notation "m ;;; k" := (bind m (fun _ => k))
  (at level 61, right associativity).

Definition open_session (d : Database) : Session := mkSession d [].

(** [with db_session_scope() as session]: commit when the body returns, roll
    back when it raises; closing the session releases its locks.  A rollback
    undoes the writes to the rows; a key that a statement has drawn from the
    sequence of the table is not given back. *)
Definition close_session {A} (d : Database) (result : outcome A * Session)
  : outcome A * Database :=
  match result with
  | (Return a, s) => (Return a, data s)
  | (Raise e, s) =>
      (Raise e, mkDatabase (novels d) (chapters d) (next_chapter_id (data s)))
  end.

Definition db_session_scope {A} (body : Tx A) (d : Database)
  : outcome A * Database :=
  close_session d (body (open_session d)).

(** ** Queries and writes *)

Definition novel_matches (user_id novel_slug : string) (n : Novel.t) : bool :=
  String.eqb (Novel.user_id n) user_id && String.eqb (Novel.slug n) novel_slug.

(** [session.query(Novel).filter(user_id == .., slug == ..).first()] *)
Definition find_novel (user_id novel_slug : string) (d : Database)
  : option Novel.t :=
  find (novel_matches user_id novel_slug) (novels d).

(** [session.query(Chapter).filter(Chapter.novel_id == novel_id)] *)
Definition chapters_of (novel_id : Z) (rows : list Chapter.t)
  : list Chapter.t :=
  filter (fun c => Chapter.novel_id c =? novel_id) rows.

(** [.order_by(Chapter.position)] *)
Definition order_by_position (rows : list Chapter.t) : list Chapter.t :=
  stable_sort Chapter.position rows.

(** [.filter(novel_id == .., source_url == ..).first()] *)
Definition find_chapter_by_source_url (novel_id : Z)
    (source_url : option string) (rows : list Chapter.t)
  : option Chapter.t :=
  hd_error
    (filter (fun c => (Chapter.novel_id c =? novel_id)
                      && option_string_eqb (Chapter.source_url c) source_url)
            rows).

(** [.filter_by(id=chapter_id).first()] *)
Definition find_chapter_by_id (chapter_id : Z) (rows : list Chapter.t)
  : option Chapter.t :=
  find (fun c => Chapter.id c =? chapter_id) rows.

(** The attribute write [ch.position = f(ch.position)] on the object with
    primary key [chapter_id]. *)
Definition update_position (chapter_id : Z) (f : Z -> Z)
    (rows : list Chapter.t) : list Chapter.t :=
  map (fun c => if Chapter.id c =? chapter_id
                then Chapter.with_position (f (Chapter.position c)) c
                else c)
      rows.

Definition with_chapters (rows : list Chapter.t) (d : Database) : Database :=
  mkDatabase (novels d) rows (next_chapter_id d).

(** [.with_for_update().first()]: the row found is locked; nothing is locked
    when no row matches. *)
Definition query_novel_for_update (user_id novel_slug : string)
  : Tx (option Novel.t) :=
  fun s =>
    match find_novel user_id novel_slug (data s) with
    | Some n => (Return (Some n), mkSession (data s) (Novel.id n :: locked s))
    | None => (Return None, s)
    end.

Definition query_novel (user_id novel_slug : string) : Tx (option Novel.t) :=
  fun s => (Return (find_novel user_id novel_slug (data s)), s).

Definition query {A} (q : list Chapter.t -> A) : Tx A :=
  fun s => (Return (q (chapters (data s))), s).

Definition write_rows (f : list Chapter.t -> list Chapter.t) : Tx unit :=
  fun s =>
    (Return tt, mkSession (with_chapters (f (chapters (data s))) (data s))
                          (locked s)).

(** The values of a 32-bit [Integer] column. *)
Definition in_int32 (z : Z) : bool :=
  (-2147483648 <=? z) && (z <=? 2147483647).

(** The unique index [idx_chapters_novel_slug]. *)
Definition slug_taken (c : Chapter.t) (rows : list Chapter.t) : bool :=
  existsb (fun r => (Chapter.novel_id r =? Chapter.novel_id c)
                    && String.eqb (Chapter.slug r) (Chapter.slug c))
          rows.

(** [session.add(Chapter(..)); session.flush()]: the INSERT fails with
    DataError for a position outside the column, before a key is drawn, and
    with IntegrityError for a slug that the novel already uses, when the row
    with its key meets the unique index. *)
Definition session_add (new_row : Z -> Chapter.t) : Tx Chapter.t :=
  fun s =>
    let d := data s in
    let c := new_row (next_chapter_id d) in
    if negb (in_int32 (Chapter.position c)) then (Raise DataError, s)
    else if slug_taken c (chapters d)
    then (Raise IntegrityError,
          mkSession (mkDatabase (novels d) (chapters d) (next_chapter_id d + 1))
                    (locked s))
    else
      (Return c,
       mkSession (mkDatabase (novels d) (chapters d ++ [c])
                             (next_chapter_id d + 1))
                 (locked s)).

(** Whether the positions of the rows with the keys of [written] are values
    of the column. *)
Definition positions_fit (written rows : list Chapter.t) : bool :=
  forallb
    (fun c => negb (existsb (fun ch => Chapter.id ch =? Chapter.id c) written)
              || in_int32 (Chapter.position c))
    rows.

(** [session.flush()] after attribute writes to [position] on the objects
    [written]: the UPDATE of a row whose position is outside the column
    fails with DataError. *)
Definition flush_positions (written : list Chapter.t) : Tx unit :=
  fun s =>
    if positions_fit written (chapters (data s))
    then (Return tt, s)
    else (Raise DataError, s).

(** [session.query(TranslationTokenUsage).filter(..).delete()] for the
    usage rows of the chapters selected. *)
Definition delete_token_usage (selected : Chapter.t -> bool) : Tx unit :=
  write_rows (map (fun c => if selected c
                            then Chapter.with_token_usage_records 0 c
                            else c)).

Definition has_token_usage (chapter_id : Z) (rows : list Chapter.t) : bool :=
  existsb (fun c => (Chapter.id c =? chapter_id)
                    && (0 <? Chapter.token_usage_records c)%nat)
          rows.

(** [session.delete(ch)] and the flush of the deletion: the unit of work
    detaches the token usage records of the chapter before it deletes the
    row, and fails with IntegrityError when there are any. *)
Definition session_delete (ch : Chapter.t) : Tx unit :=
  fun s =>
    if has_token_usage (Chapter.id ch) (chapters (data s))
    then (Raise IntegrityError, s)
    else write_rows (filter (fun c => negb (Chapter.id c =? Chapter.id ch))) s.

(** ** The position sequencer *)

(** 999999.0 as a binary64 value: 999999 * 2^33 * 2^-33. *)
Definition sentinel : spec_float :=
  S754_finite false 8589926002065408 (-33).

(** The loop
    [for idx, existing_ch in enumerate(existing_chapters):
         if test(existing_ch): insert_pos = idx; break]
    started at index [idx]; [insert_pos] is the value kept when the loop
    ends without a break. *)
Fixpoint first_index_where (test : Chapter.t -> bool) (idx : Z)
    (existing_chapters : list Chapter.t) (insert_pos : Z) : Z :=
  match existing_chapters with
  | [] => insert_pos
  | existing_ch :: rest =>
      if test existing_ch then idx
      else first_index_where test (idx + 1) rest insert_pos
  end.

(** The body of the loop over episode ids: an existing chapter without an
    episode id is skipped. *)
Definition precedes_by_episode_id (new_episode_id : Z)
    (existing_ch : Chapter.t) : bool :=
  match extract_episode_id_from_url (Chapter.source_url existing_ch) with
  | None => false
  | Some existing_episode_id => new_episode_id <? existing_episode_id
  end.

(** The two passes of the shift, on the objects in [chapters_to_shift]. *)
Definition first_pass (chapters_to_shift : list Chapter.t)
    (rows : list Chapter.t) : list Chapter.t :=
  fold_left
    (fun rows ch => update_position (Chapter.id ch) (fun p => - (p + 1000)) rows)
    chapters_to_shift rows.

Definition second_pass (chapters_to_shift : list Chapter.t)
    (rows : list Chapter.t) : list Chapter.t :=
  fold_left
    (fun rows ch =>
       update_position (Chapter.id ch) (fun p => Z.abs p - 1000 + 1) rows)
    chapters_to_shift rows.

(** [.filter(novel_id == .., position >= insert_pos)
     .order_by(Chapter.position.desc())] *)
Definition select_chapters_to_shift (novel_id insert_pos : Z)
    (rows : list Chapter.t) : list Chapter.t :=
  rev (order_by_position
         (filter (fun c => (Chapter.novel_id c =? novel_id)
                           && (insert_pos <=? Chapter.position c))
                 rows)).

(** The shift of [Translator/models/db_novel.py]: one UPDATE statement
    [position = position + 1] over the same rows. *)
Definition shift_direct (novel_id insert_pos : Z) (rows : list Chapter.t)
  : list Chapter.t :=
  map (fun c => if (Chapter.novel_id c =? novel_id)
                   && (insert_pos <=? Chapter.position c)
                then Chapter.with_position (Chapter.position c + 1) c
                else c)
      rows.

Record AddResult := mkAddResult {
  success : bool;
  message : string;
  already_exists : bool;   (* the key is absent when a row was inserted *)
  novel_id : string;
  chapter_index : Z;
  chapter_id : Z
}.

Section Repository.

(** The builtin [float] on a string; [None] stands for ValueError. *)
Variable float : string -> option spec_float.

Definition parse_chapter_number (num_str : option string) : spec_float :=
  match num_str with
  | None => sentinel
  | Some EmptyString => sentinel
  | Some s =>
      if String.eqb s "BONUS" then sentinel
      else match float s with
           | Some x => x
           | None => sentinel
           end
  end.

Definition precedes_by_chapter_number (new_chapter_num : spec_float)
    (existing_ch : Chapter.t) : bool :=
  SFltb new_chapter_num
        (parse_chapter_number (Chapter.chapter_number existing_ch)).

(** Lines 178-214 of [add_chapter_atomic]: the value of [insert_pos]. *)
Definition compute_insert_pos (chapter_data : ChapterData.t)
    (existing_chapters : list Chapter.t) : Z :=
  let insert_pos := Z.of_nat (List.length existing_chapters) in
  match extract_episode_id_from_url (ChapterData.source_url chapter_data) with
  | Some new_episode_id =>
      first_index_where (precedes_by_episode_id new_episode_id) 0
                        existing_chapters insert_pos
  | None =>
      let new_chapter_num :=
        parse_chapter_number (ChapterData.chapter_number chapter_data) in
      first_index_where (precedes_by_chapter_number new_chapter_num) 0
                        existing_chapters insert_pos
  end.

Definition new_chapter_row (novel : Novel.t) (chapter_data : ChapterData.t)
    (position : Z) (id : Z) : Chapter.t :=
  Chapter.mk id (Novel.id novel) (ChapterData.slug chapter_data)
             (ChapterData.title chapter_data)
             (ChapterData.chapter_number chapter_data)
             (ChapterData.source_url chapter_data)
             position
             (ChapterData.is_bonus chapter_data)
             0.

(** The [with] block of [add_chapter_atomic] after its first statement. *)
Definition add_chapter_body (novel_slug : string)
    (chapter_data : ChapterData.t) (novel : option Novel.t) : Tx AddResult :=
  match novel with
  | None => raise (ValueError (String.append "Novel not found: " novel_slug))
  | Some novel =>
      let source_url := ChapterData.source_url chapter_data in
      existing_chapter <-
        (if truthy source_url
         then query (find_chapter_by_source_url (Novel.id novel) source_url)
         else ret None) ;;
      match existing_chapter with
      | Some existing_chapter =>
          ret (mkAddResult true "Chapter already exists - skipped" true
                           (Novel.slug novel)
                           (Chapter.position existing_chapter)
                           (Chapter.id existing_chapter))
      | None =>
          position <-
            match ChapterData.position chapter_data with
            | Some position => ret position
            | None =>
                existing_chapters <-
                  query (fun rows =>
                           order_by_position (chapters_of (Novel.id novel) rows)) ;;
                let insert_pos :=
                  compute_insert_pos chapter_data existing_chapters in
                (if insert_pos <? Z.of_nat (List.length existing_chapters)
                 then
                   chapters_to_shift <-
                     query (select_chapters_to_shift (Novel.id novel) insert_pos) ;;
                   write_rows (first_pass chapters_to_shift) ;;;
                   flush_positions chapters_to_shift ;;;
                   write_rows (second_pass chapters_to_shift) ;;;
                   flush_positions chapters_to_shift
                 else ret tt) ;;;
                ret insert_pos
            end ;;
          new_chapter <-
            session_add (new_chapter_row novel chapter_data position) ;;
          ret (mkAddResult true "Chapter imported successfully" false
                           (Novel.slug novel)
                           (Chapter.position new_chapter)
                           (Chapter.id new_chapter))
      end
  end.

(** The body of the [with] block of [add_chapter_atomic]. *)
Definition add_chapter_tx (user_id novel_slug : string)
    (chapter_data : ChapterData.t) : Tx AddResult :=
  novel <- query_novel_for_update user_id novel_slug ;;
  add_chapter_body novel_slug chapter_data novel.

Definition add_chapter_atomic (user_id novel_slug : string)
    (chapter_data : ChapterData.t) (d : Database)
  : outcome AddResult * Database :=
  db_session_scope (add_chapter_tx user_id novel_slug chapter_data) d.

End Repository.

(** ** The sort view *)

Module NovelDict.
Record t := mk {
  sort_order_override : option string;
  chapters : list ChapterDict.t
}.
End NovelDict.

(** [ch.get('position', 999999)] *)
Definition position_key (ch : ChapterDict.t) : Z :=
  match ChapterDict.position ch with
  | Some p => p
  | None => 999999
  end.

(** [[ch for ch in chapters if ch is not None]] *)
Fixpoint not_none {A : Type} (l : list (option A)) : list A :=
  match l with
  | [] => []
  | Some x :: l' => x :: not_none l'
  | None :: l' => not_none l'
  end.

Definition sort_chapters_by_number (chapters : list (option ChapterDict.t))
    (order : string) : list ChapterDict.t :=
  match chapters with
  | [] => []
  | _ =>
      let valid_chapters := not_none chapters in
      sorted position_key (String.eqb order "desc") valid_chapters
  end.

Definition get_novel_with_chapters_tx (user_id novel_slug : string)
  : Tx (option NovelDict.t) :=
  novel <- query_novel user_id novel_slug ;;
  match novel with
  | None => ret None
  | Some novel =>
      chapters <-
        query (fun rows => order_by_position (chapters_of (Novel.id novel) rows)) ;;
      ret (Some (NovelDict.mk (Novel.sort_order_override novel)
                              (map to_dict chapters)))
  end.

Definition get_novel_with_chapters_db (user_id novel_slug : string)
    (d : Database) : outcome (option NovelDict.t) * Database :=
  db_session_scope (get_novel_with_chapters_tx user_id novel_slug) d.

(** The order in which a novel is displayed: its override, else the user's
    [default_sort_order] setting. *)
Definition display_order (default_sort_order : string) (novel : NovelDict.t)
  : string :=
  match NovelDict.sort_order_override novel with
  | Some order => order
  | None => default_sort_order
  end.

(** ** Deletion *)

(** [for idx, ch in enumerate(remaining_chapters):
         if ch.position != idx: ch.position = idx], started at [idx]. *)
Fixpoint renumber_from (idx : Z) (remaining_chapters : list Chapter.t)
    (rows : list Chapter.t) : list Chapter.t :=
  match remaining_chapters with
  | [] => rows
  | ch :: rest =>
      renumber_from (idx + 1) rest
        (update_position (Chapter.id ch)
                         (fun p => if negb (p =? idx) then idx else p) rows)
  end.

(** The second [with] block of [delete_chapter]. *)
Definition delete_chapter_tx (user_id novel_slug : string) (chapter_id : Z)
  : Tx bool :=
  novel_obj <- query_novel_for_update user_id novel_slug ;;
  match novel_obj with
  | None => ret false
  | Some novel_obj =>
      chapter_to_delete <- query (find_chapter_by_id chapter_id) ;;
      match chapter_to_delete with
      | None => ret false
      | Some chapter_to_delete =>
          session_delete chapter_to_delete ;;;
          remaining_chapters <-
            query (fun rows =>
                     order_by_position (chapters_of (Novel.id novel_obj) rows)) ;;
          write_rows (renumber_from 0 remaining_chapters) ;;;
          ret true
      end
  end.

(** [delete_chapter]; [default_sort_order] is the value read from the user's
    settings.  The deletion of image files is outside the model.  An
    exception of the second [with] block leaves the function as it is. *)
Definition delete_chapter (default_sort_order : string)
    (user_id novel_slug : string) (chapter_index : Z) (d : Database)
  : outcome bool * Database :=
  match get_novel_with_chapters_db user_id novel_slug d with
  | (Raise e, d1) => (Raise e, d1)
  | (Return None, d1) => (Return false, d1)
  | (Return (Some novel), d1) =>
      match NovelDict.chapters novel with
      | [] => (Return false, d1)
      | _ =>
          let order := display_order default_sort_order novel in
          let sorted_chapters :=
            sort_chapters_by_number (map Some (NovelDict.chapters novel)) order in
          if Z.of_nat (List.length sorted_chapters) <=? chapter_index
          then (Return false, d1)
          else
            match py_index sorted_chapters chapter_index with
            | None => (Raise IndexError, d1)
            | Some chapter =>
                db_session_scope
                  (delete_chapter_tx user_id novel_slug (ChapterDict.id chapter))
                  d1
            end
      end
  end.

(** ** An instance of [float] for examples *)

(** The binary64 value of an integer below 2^53: 53 bits of mantissa. *)
Definition binary64_of_Z (n : Z) : spec_float :=
  if n =? 0 then S754_zero false
  else
    let digits := Z.log2 n + 1 in
    S754_finite false (Z.to_pos (n * 2 ^ (53 - digits))) (digits - 53).

Fixpoint all_digits (s : string) : bool :=
  match s with
  | EmptyString => true
  | String c rest => is_digit c && all_digits rest
  end.

(** [float] on a string of one to fifteen ASCII digits, where the conversion
    is exact.  On every other string this instance reports ValueError; the
    examples below use it on digit strings and on strings that [float]
    rejects. *)
Definition float_of_digits (s : string) : option spec_float :=
  if all_digits s && (1 <=? String.length s)%nat && (String.length s <=? 15)%nat
  then Some (binary64_of_Z (int_of_digits (take_digits s)))
  else None.

(** ** Notions used in the statements *)

(** The states a loop goes through: the state before the loop and the state
    after each iteration. *)
Fixpoint loop_states {S X : Type} (body : S -> X -> S) (l : list X) (s : S)
  : list S :=
  s :: match l with
       | [] => []
       | x :: l' => loop_states body l' (body s x)
       end.



(** The position values of a novel's chapters, in storage order. *)
Definition positions_of (novel_id : Z) (rows : list Chapter.t) : list Z :=
  map Chapter.position (chapters_of novel_id rows).

(** Primary keys are unique and were handed out by the counter. *)
Definition primary_keys_ok (d : Database) : Prop :=
  NoDup (map Chapter.id (chapters d)) /\
  Forall (fun k => k < next_chapter_id d) (map Chapter.id (chapters d)).

(** [0; 1; ...; n-1] *)
Definition zrange (n : nat) : list Z := map Z.of_nat (seq 0 n).

(** The positions are exactly [{0, ..., N-1}]: no gap, no duplicate. *)
Definition contiguous (ps : list Z) : Prop :=
  Permutation ps (zrange (List.length ps)).

Definition dense (d : Database) : Prop :=
  forall novel_id, contiguous (positions_of novel_id (chapters d)).

(** Membership of a primary key in a list of keys. *)
Definition mem_id (x : Z) (ids : list Z) : bool := existsb (Z.eqb x) ids.

(** Rows whose key is in [ids] get position [f position]. *)
Definition apply_on (ids : list Z) (f : Z -> Z) (rows : list Chapter.t)
  : list Chapter.t :=
  map (fun c => if mem_id (Chapter.id c) ids
                then Chapter.with_position (f (Chapter.position c)) c
                else c)
      rows.

(** A list of rows with positions [k, k+1, ...] in the order of the list. *)
Fixpoint renumbered (k : Z) (l : list Chapter.t) : list Chapter.t :=
  match l with
  | [] => []
  | c :: l' => Chapter.with_position k c :: renumbered (k + 1) l'
  end.

(** The value of [position] and the rows after lines 175-242 of
    [add_chapter_atomic], for a chapter that is not a duplicate. *)
Definition placement (float : string -> option spec_float) (novel_id : Z)
    (chapter_data : ChapterData.t) (rows : list Chapter.t)
  : Z * list Chapter.t :=
  match ChapterData.position chapter_data with
  | Some position => (position, rows)
  | None =>
      let existing_chapters := order_by_position (chapters_of novel_id rows) in
      let insert_pos := compute_insert_pos float chapter_data existing_chapters in
      if insert_pos <? Z.of_nat (List.length existing_chapters)
      then
        let chapters_to_shift :=
          select_chapters_to_shift novel_id insert_pos rows in
        (insert_pos,
         second_pass chapters_to_shift (first_pass chapters_to_shift rows))
      else (insert_pos, rows)
  end.

(** Whether the two flushes of the shift of lines 225-242 go through. *)
Definition shift_accepted (float : string -> option spec_float) (novel_id : Z)
    (chapter_data : ChapterData.t) (rows : list Chapter.t) : bool :=
  match ChapterData.position chapter_data with
  | Some _ => true
  | None =>
      let existing_chapters := order_by_position (chapters_of novel_id rows) in
      let insert_pos := compute_insert_pos float chapter_data existing_chapters in
      if insert_pos <? Z.of_nat (List.length existing_chapters)
      then
        let chapters_to_shift :=
          select_chapters_to_shift novel_id insert_pos rows in
        positions_fit chapters_to_shift (first_pass chapters_to_shift rows)
        && positions_fit chapters_to_shift
             (second_pass chapters_to_shift
                (first_pass chapters_to_shift rows))
      else true
  end.

(** Whether the database accepts the statements of a call that has found
    the novel and no duplicate: the flushes of the shift, then the position
    and the slug of the new row. *)
Definition insert_accepted (float : string -> option spec_float)
    (novel : Novel.t) (chapter_data : ChapterData.t) (d : Database) : bool :=
  let placed := placement float (Novel.id novel) chapter_data (chapters d) in
  let new_chapter :=
    new_chapter_row novel chapter_data (fst placed) (next_chapter_id d) in
  shift_accepted float (Novel.id novel) chapter_data (chapters d)
  && in_int32 (fst placed)
  && negb (slug_taken new_chapter (snd placed)).

(** The database after a call that was rolled back: the rows are those
    before the call, and no key drawn has come back. *)
Definition rolled_back (d d' : Database) : Prop :=
  novels d' = novels d
  /\ chapters d' = chapters d
  /\ next_chapter_id d <= next_chapter_id d'.

(** The duplicate looked for by lines 158-164. *)
Definition duplicate_of (novel_id : Z) (chapter_data : ChapterData.t)
    (rows : list Chapter.t) : option Chapter.t :=
  if truthy (ChapterData.source_url chapter_data)
  then find_chapter_by_source_url novel_id
         (ChapterData.source_url chapter_data) rows
  else None.

(** [i] is the index of the first element of [l] that passes [test], or the
    length of [l] when none does. *)
Definition first_index_spec (test : Chapter.t -> bool) (l : list Chapter.t)
    (i : nat) : Prop :=
  (i <= List.length l)%nat /\
  (forall j ch, (j < i)%nat -> nth_error l j = Some ch -> test ch = false) /\
  (forall ch, nth_error l i = Some ch -> test ch = true).

(** What the renumbering loop started at [k] over [remaining_chapters] does
    to one row. *)
Fixpoint renumber_row (k : Z) (remaining_chapters : list Chapter.t)
    (c : Chapter.t) : Chapter.t :=
  match remaining_chapters with
  | [] => c
  | ch :: rest =>
      if Chapter.id c =? Chapter.id ch then Chapter.with_position k c
      else renumber_row (k + 1) rest c
  end.

(** The rows left when the row with the key of [deleted] is removed. *)
Definition without (deleted : Chapter.t) (rows : list Chapter.t)
  : list Chapter.t :=
  filter (fun c => negb (Chapter.id c =? Chapter.id deleted)) rows.

(** Orders on rows by a key. *)
Definition key_le {A : Type} (key : A -> Z) (a b : A) : Prop := key a <= key b.
Definition key_lt {A : Type} (key : A -> Z) (a b : A) : Prop := key a < key b.

(** The rows after the second [with] block of [delete_chapter], when it
    deletes [deleted] from the novel [novel_id]. *)
Definition rows_after_delete (novel_id : Z) (deleted : Chapter.t)
    (rows : list Chapter.t) : list Chapter.t :=
  renumber_from 0
    (order_by_position (chapters_of novel_id (without deleted rows)))
    (without deleted rows).

(** The shift of positions seen on one position value. *)
Definition shifted (insert_pos p : Z) : Z :=
  if insert_pos <=? p then p + 1 else p.

(** ** Sequences of operations *)

Inductive operation :=
| Insert (user_id novel_slug : string) (chapter_data : ChapterData.t)
| Delete (default_sort_order user_id novel_slug : string) (chapter_index : Z).

(** The database after an operation; an operation that raises leaves it as
    it was. *)
Definition run_operation (float : string -> option spec_float) (d : Database)
    (op : operation) : Database :=
  match op with
  | Insert user_id novel_slug chapter_data =>
      snd (add_chapter_atomic float user_id novel_slug chapter_data d)
  | Delete default_sort_order user_id novel_slug chapter_index =>
      snd (delete_chapter default_sort_order user_id novel_slug chapter_index d)
  end.

(** An insert that brings its own position, and is not a duplicate, asks for
    the position after the last chapter of the novel. *)
Definition position_allowed (op : operation) (d : Database) : Prop :=
  match op with
  | Insert user_id novel_slug chapter_data =>
      forall position novel,
        ChapterData.position chapter_data = Some position ->
        find_novel user_id novel_slug d = Some novel ->
        duplicate_of (Novel.id novel) chapter_data (chapters d) = None ->
        position
        = Z.of_nat (List.length (chapters_of (Novel.id novel) (chapters d)))
  | Delete _ _ _ _ => True
  end.

Fixpoint positions_allowed (float : string -> option spec_float)
    (ops : list operation) (d : Database) : Prop :=
  match ops with
  | [] => True
  | op :: rest =>
      position_allowed op d
      /\ positions_allowed float rest (run_operation float d op)
  end.

(** ** Example data *)

Definition example_novel : Novel.t := Novel.mk 1 "reader" "frost-saga" None.

Definition viewer_url (episode : string) : option string :=
  Some (String.append "https://novelpia.com/viewer/" episode).

Definition example_chapter (id position : Z) (number : string)
    (source_url : option string) : Chapter.t :=
  Chapter.mk id 1 (String.append "ch-" number) "title" (Some number)
             source_url position false 0.

(** Chapter data under a given slug. *)
Definition example_data_with_slug (slug : string) (number : option string)
    (source_url : option string) (position : option Z) : ChapterData.t :=
  ChapterData.mk slug "title" number source_url position false.

(** Chapter data whose slug is made from the chapter number. *)
Definition example_data (number : option string) (source_url : option string)
    (position : option Z) : ChapterData.t :=
  example_data_with_slug
    (match number with
     | Some number => String.append "new-" number
     | None => "new"
     end)
    number source_url position.

(** A novel without chapters. *)
Definition empty_library : Database := mkDatabase [example_novel] [] 1.

(** Episode ids 100, 300, 500 at positions 0, 1, 2. *)
Definition library_100_300_500 : Database :=
  mkDatabase [example_novel]
             [example_chapter 1 0 "1" (viewer_url "100");
              example_chapter 2 1 "2" (viewer_url "300");
              example_chapter 3 2 "3" (viewer_url "500")]
             4.

(** Chapters numbered 1 and 2 without a source URL, at positions 0 and 1. *)
Definition library_1_2 : Database :=
  mkDatabase [example_novel]
             [example_chapter 1 0 "1" None;
              example_chapter 2 1 "2" None]
             3.

(** Chapters numbered 1 and 2, of which the second has three token usage
    records. *)
Definition library_with_token_usage : Database :=
  mkDatabase [example_novel]
             [example_chapter 1 0 "1" (viewer_url "100");
              Chapter.with_token_usage_records 3
                (example_chapter 2 1 "2" (viewer_url "200"))]
             3.

(** Four chapters at positions 0, 1, 2, 3. *)
Definition library_of_four : Database :=
  mkDatabase [example_novel]
             [example_chapter 11 0 "1" (viewer_url "10");
              example_chapter 12 1 "2" (viewer_url "20");
              example_chapter 13 2 "3" (viewer_url "30");
              example_chapter 14 3 "4" (viewer_url "40")]
             15.

(** The episode ids of a novel's chapters in position order. *)
Definition episode_ids_in_order (novel_id : Z) (d : Database)
  : list (option Z) :=
  map (fun c => extract_episode_id_from_url (Chapter.source_url c))
      (order_by_position (chapters_of novel_id (chapters d))).

(** The keys and positions of a novel's chapters in position order. *)
Definition keys_and_positions (novel_id : Z) (d : Database) : list (Z * Z) :=
  map (fun c => (Chapter.id c, Chapter.position c))
      (order_by_position (chapters_of novel_id (chapters d))).
(** ** Concurrent calls of [add_chapter_atomic] for one novel *)

(** Where a call stands: before its first statement has returned; with its
    transaction open after the first statement, which gave [novel]; with
    the statements of its body run and their writes still private to the
    session; after the commit or the rollback. *)
Inductive phase :=
| Waiting
| Holding (novel : option Novel.t) (s : Session)
| Computed (o : outcome AddResult) (s : Session)
| Finished (o : outcome AddResult).

(** The committed rows and the calls with their chapter data. *)
Record system := mkSystem {
  committed : Database;
  workers : list (ChapterData.t * phase)
}.

Fixpoint set_phase (t : nat) (ph : phase) (ws : list (ChapterData.t * phase))
  : list (ChapterData.t * phase) :=
  match ws, t with
  | [], _ => []
  | (chapter_data, _) :: ws', O => (chapter_data, ph) :: ws'
  | w :: ws', S t' => w :: set_phase t' ph ws'
  end.

(** The row locks of a call: those that the session of its open transaction
    has recorded. *)
Definition locks_of (ph : phase) : list Z :=
  match ph with
  | Holding _ s => locked s
  | Computed _ s => locked s
  | _ => []
  end.

Definition held_locks (ws : list (ChapterData.t * phase)) : list Z :=
  flat_map (fun w => locks_of (snd w)) ws.










Definition initial (d : Database) (calls : list ChapterData.t) : system :=
  mkSystem d (map (fun chapter_data => (chapter_data, Waiting)) calls).

Section Interleaving.
Variable float : string -> option spec_float.
Variable novel_slug : string.

(** The first statement of the [with] block: in [add_chapter_atomic] it is
    [query_novel_for_update user_id novel_slug]. *)
Variable select_novel : Tx (option Novel.t).

(** One step of one call.  The first statement reads the committed rows and
    returns only when none of the rows it locks is locked by another open
    transaction: the locks of the others are read off their sessions.  The
    statements of the body read the committed rows and write into the
    session; they are run in one step, as a step of another call between
    two of them could change what they read only by a commit.  The end of
    the [with] block commits what the session holds, or rolls back when the
    body has raised, and releases the locks. *)
Inductive step : system -> system -> Prop :=
| step_select (t : nat) (chapter_data : ChapterData.t)
    (novel : option Novel.t) (s : Session) (sys : system) :
    nth_error (workers sys) t = Some (chapter_data, Waiting) ->
    select_novel (open_session (committed sys)) = (Return novel, s) ->
    (forall row, In row (locked s) -> ~ In row (held_locks (workers sys))) ->
    step sys (mkSystem (committed sys)
                       (set_phase t (Holding novel s) (workers sys)))
| step_body (t : nat) (chapter_data : ChapterData.t)
    (novel : option Novel.t) (s s' : Session) (o : outcome AddResult)
    (sys : system) :
    nth_error (workers sys) t = Some (chapter_data, Holding novel s) ->
    add_chapter_body float novel_slug chapter_data novel
      (mkSession (committed sys) (locked s))
    = (o, s') ->
    step sys (mkSystem (committed sys)
                       (set_phase t (Computed o s') (workers sys)))
| step_commit (t : nat) (chapter_data : ChapterData.t)
    (o : outcome AddResult) (s : Session) (sys : system) :
    nth_error (workers sys) t = Some (chapter_data, Computed o s) ->
    step sys (mkSystem (snd (close_session (committed sys) (o, s)))
                       (set_phase t (Finished o) (workers sys))).

(** Any number of steps, in any order the rules allow. *)
Inductive steps : system -> system -> Prop :=
| steps_done (sys : system) : steps sys sys
| steps_next (sys sys' sys'' : system) :
    steps sys sys' -> step sys' sys'' -> steps sys sys''.

End Interleaving.

(** A transaction body that takes and releases no lock. *)
Definition keeps_locks {A : Type} (m : Tx A) : Prop :=
  forall s, locked (snd (m s)) = locked s.




(** ** More of [database/db_novel.py] *)

(** [get_next_chapter_position_db]: the first row by descending position. *)
Definition get_next_chapter_position_tx (novel_id : Z) : Tx Z :=
  max_position <-
    query (fun rows =>
             hd_error (rev (order_by_position (chapters_of novel_id rows)))) ;;
  ret (match max_position with
       | Some row => Chapter.position row + 1
       | None => 0
       end).

Definition get_next_chapter_position_db (novel_id : Z) (d : Database)
  : outcome Z * Database :=
  db_session_scope (get_next_chapter_position_tx novel_id) d.

Definition get_chapter_tx (chapter_id : Z) : Tx (option ChapterDict.t) :=
  chapter <- query (find_chapter_by_id chapter_id) ;;
  ret (match chapter with
       | Some chapter => Some (to_dict chapter)
       | None => None
       end).

Definition get_chapter_db (chapter_id : Z) (d : Database)
  : outcome (option ChapterDict.t) * Database :=
  db_session_scope (get_chapter_tx chapter_id) d.

(** The dictionary [updates] of [update_chapter_db], on the columns that
    [Chapter.t] carries: a field is [None] when its key is absent.  The keys
    of columns outside [Chapter.t] write nothing that the model sees. *)
Module ChapterUpdates.
Record t := mk {
  title : option string;
  chapter_number : option (option string);
  source_url : option (option string);
  position : option Z;
  is_bonus : option bool;
  slug : option string
}.
End ChapterUpdates.

Definition or_default {A : Type} (update : option A) (current : A) : A :=
  match update with
  | Some v => v
  | None => current
  end.

(** [for field in allowed_fields: if field in updates: setattr(..)] *)
Definition apply_updates (updates : ChapterUpdates.t) (c : Chapter.t)
  : Chapter.t :=
  Chapter.mk (Chapter.id c) (Chapter.novel_id c)
    (or_default (ChapterUpdates.slug updates) (Chapter.slug c))
    (or_default (ChapterUpdates.title updates) (Chapter.title c))
    (or_default (ChapterUpdates.chapter_number updates)
                (Chapter.chapter_number c))
    (or_default (ChapterUpdates.source_url updates) (Chapter.source_url c))
    (or_default (ChapterUpdates.position updates) (Chapter.position c))
    (or_default (ChapterUpdates.is_bonus updates) (Chapter.is_bonus c))
    (Chapter.token_usage_records c).

Definition update_chapter_tx (chapter_id : Z) (updates : ChapterUpdates.t)
  : Tx (option ChapterDict.t) :=
  chapter <- query (find_chapter_by_id chapter_id) ;;
  match chapter with
  | None => ret None
  | Some chapter =>
      write_rows
        (map (fun c => if Chapter.id c =? Chapter.id chapter
                       then apply_updates updates c
                       else c)) ;;;
      ret (Some (to_dict (apply_updates updates chapter)))
  end.

Definition update_chapter_db (chapter_id : Z) (updates : ChapterUpdates.t)
    (d : Database) : outcome (option ChapterDict.t) * Database :=
  db_session_scope (update_chapter_tx chapter_id updates) d.

(** [delete_chapter_db]: the token usage records of the chapter are deleted
    before the chapter. *)
Definition delete_chapter_db_tx (chapter_id : Z) : Tx bool :=
  chapter <- query (find_chapter_by_id chapter_id) ;;
  match chapter with
  | None => ret false
  | Some chapter =>
      delete_token_usage (fun c => Chapter.id c =? chapter_id) ;;;
      session_delete chapter ;;;
      ret true
  end.

Definition delete_chapter_db (chapter_id : Z) (d : Database)
  : outcome bool * Database :=
  db_session_scope (delete_chapter_db_tx chapter_id) d.

Definition get_chapters_for_novel_tx (user_id novel_slug : string)
  : Tx (list ChapterDict.t) :=
  novel <- query_novel user_id novel_slug ;;
  match novel with
  | None => ret []
  | Some novel =>
      chapters <-
        query (fun rows => order_by_position (chapters_of (Novel.id novel) rows)) ;;
      ret (map to_dict chapters)
  end.

Definition get_chapters_for_novel_db (user_id novel_slug : string)
    (d : Database) : outcome (list ChapterDict.t) * Database :=
  db_session_scope (get_chapters_for_novel_tx user_id novel_slug) d.

(** [session.delete(novel)] and the flush of the deletion: the relationship
    [chapters] cascades the deletion to the chapters of the novel, each of
    which is deleted as [session.delete] deletes a chapter. *)
Definition session_delete_novel (novel : Novel.t) : Tx unit :=
  fun s =>
    let d := data s in
    if existsb (fun c => (Chapter.novel_id c =? Novel.id novel)
                         && (0 <? Chapter.token_usage_records c)%nat)
               (chapters d)
    then (Raise IntegrityError, s)
    else
      (Return tt,
       mkSession
         (mkDatabase
            (filter (fun n => negb (Novel.id n =? Novel.id novel)) (novels d))
            (filter (fun c => negb (Chapter.novel_id c =? Novel.id novel))
                    (chapters d))
            (next_chapter_id d))
         (locked s)).

(** [delete_novel_db]: the token usage records of all chapters of the novel
    are deleted before the novel. *)
Definition delete_novel_tx (user_id novel_slug : string) : Tx bool :=
  novel <- query_novel user_id novel_slug ;;
  match novel with
  | None => ret false
  | Some novel =>
      delete_token_usage (fun c => Chapter.novel_id c =? Novel.id novel) ;;;
      session_delete_novel novel ;;;
      ret true
  end.

Definition delete_novel_db (user_id novel_slug : string) (d : Database)
  : outcome bool * Database :=
  db_session_scope (delete_novel_tx user_id novel_slug) d.

(** ** [get_display_title] of [models/novel.py] *)

(** The title columns of a [Novel] object. *)
Module NovelTitles.
Record t := mk {
  title : option string;
  original_title : option string;
  translated_title : option string
}.
End NovelTitles.

(** A key of a dictionary: absent, or present with a value that may be
    [None]. *)
Inductive entry :=
| Absent
| Present (value : option string).

(** [d.get(key)] and [d.get(key, default)] *)
Definition dict_get (e : entry) : option string :=
  match e with
  | Absent => None
  | Present v => v
  end.

Definition dict_get_default (e : entry) (default : string) : option string :=
  match e with
  | Absent => Some default
  | Present v => v
  end.

Module NovelTitleDict.
Record t := mk {
  title : entry;
  original_title : entry;
  translated_title : entry
}.
End NovelTitleDict.

(** The title keys of [Novel.to_dict]. *)
Definition titles_to_dict (n : NovelTitles.t) : NovelTitleDict.t :=
  NovelTitleDict.mk (Present (NovelTitles.title n))
                    (Present (NovelTitles.original_title n))
                    (Present (NovelTitles.translated_title n)).

(** [a or b] on optional strings. *)
Definition py_or (a b : option string) : option string :=
  if truthy a then a else b.

Inductive novel_argument :=
| OrmNovel (n : NovelTitles.t)
| DictNovel (n : NovelTitleDict.t).

Definition get_display_title (novel : novel_argument) : option string :=
  match novel with
  | OrmNovel novel =>
      py_or (NovelTitles.translated_title novel)
        (py_or (NovelTitles.title novel)
           (py_or (NovelTitles.original_title novel) (Some "Untitled")))
  | DictNovel novel =>
      py_or (dict_get (NovelTitleDict.translated_title novel))
        (py_or (dict_get (NovelTitleDict.title novel))
           (dict_get_default (NovelTitleDict.original_title novel)
                             "Untitled"))
  end.

(** ** [delete_novel] of [models/novel.py] *)


(** ** [resort_chapters] of [Translator/routes/api_routes.py] *)

(** [s.split('/viewer/')[-1]] for a string that holds the separator, and
    [None] for a string that does not: the separators are found from the
    left and do not overlap; [skip] counts the characters of the separator
    just found that are still to be passed. *)
Fixpoint last_piece (s : string) (skip : nat) : option string :=
  match s with
  | EmptyString => None
  | String _ rest =>
      match skip with
      | S k => last_piece rest k
      | O =>
          match strip_prefix "/viewer/" s with
          | Some tail =>
              match last_piece rest 7 with
              | Some piece => Some piece
              | None => Some tail
              end
          | None => last_piece rest 0
          end
      end
  end.

(** [session.query(Novel).filter_by(slug=novel_slug).first()]: the user is
    not part of the filter. *)
Definition query_novel_by_slug (novel_slug : string) : Tx (option Novel.t) :=
  fun s =>
    (Return (find (fun n => String.eqb (Novel.slug n) novel_slug)
                  (novels (data s))),
     s).

Inductive resort_response :=
| Unauthorized
| NovelNotFound
| Resorted
| ServerError.

Section Resort.

(** The builtin [int] on a string; [None] stands for ValueError. *)
Variable int : string -> option Z.

(** The order in which the storage returns the rows of the query without
    [order_by]: some arrangement of the rows that match. *)
Variable scan : list Chapter.t -> list Chapter.t.

Definition get_episode_no (ch : Chapter.t) : Z :=
  match Chapter.source_url ch with
  | Some source_url =>
      match last_piece source_url 0 with
      | Some piece =>
          match int piece with
          | Some episode_no => episode_no
          | None => 999999999
          end
      | None => 999999999
      end
  | None => 999999999
  end.

(** The body of the [with] block. *)
Definition resort_chapters_tx (novel_slug : string) : Tx bool :=
  novel <- query_novel_by_slug novel_slug ;;
  match novel with
  | None => ret false
  | Some novel =>
      chapters <- query (fun rows => scan (chapters_of (Novel.id novel) rows)) ;;
      let sorted_chapters := stable_sort get_episode_no chapters in
      write_rows (renumber_from 0 sorted_chapters) ;;;
      ret true
  end.

Definition resort_chapters (user_id : option string) (novel_slug : string)
    (d : Database) : resort_response * Database :=
  if truthy user_id
  then
    match db_session_scope (resort_chapters_tx novel_slug) d with
    | (Return true, d') => (Resorted, d')
    | (Return false, d') => (NovelNotFound, d')
    | (Raise _, d') => (ServerError, d')
    end
  else (Unauthorized, d).

End Resort.

(** [int] on a string of ASCII digits; on every other string this instance
    reports ValueError. *)
Definition int_of_decimal (s : string) : option Z :=
  if all_digits s && (1 <=? String.length s)%nat
  then Some (int_of_digits (take_digits s))
  else None.

(** Chapters stored out of order: episode 30 at position 5, episode 10 at
    position 5 as well, episode 20 at position 9. *)
Definition library_out_of_order : Database :=
  mkDatabase [example_novel]
             [example_chapter 21 5 "3" (viewer_url "30");
              example_chapter 22 5 "1" (viewer_url "10");
              example_chapter 23 9 "2" (viewer_url "20")]
             24.

(** ** Notions used in the further properties *)

(** What [take_digits] leaves behind does not start with a digit. *)
Definition no_leading_digit (s : string) : Prop :=
  match s with
  | EmptyString => True
  | String c _ => is_digit c = false
  end.


(** The episode ids that are defined, in the order of the list. *)
Fixpoint defined_episode_ids (l : list Chapter.t) : list Z :=
  match l with
  | [] => []
  | c :: l' =>
      match extract_episode_id_from_url (Chapter.source_url c) with
      | Some episode_id => episode_id :: defined_episode_ids l'
      | None => defined_episode_ids l'
      end
  end.

(** Read in position order, the episode ids of the novel never decrease. *)
Definition chronological (novel_id : Z) (d : Database) : Prop :=
  StronglySorted Z.le
    (defined_episode_ids
       (order_by_position (chapters_of novel_id (chapters d)))).

(** An insertion that leaves the choice of the position to the code; a
    deletion always does. *)
Definition no_explicit_position (op : operation) : Prop :=
  match op with
  | Insert _ _ chapter_data => ChapterData.position chapter_data = None
  | Delete _ _ _ _ => True
  end.

(** The row moved one position up by the shift. *)
Definition moved_up (c : Chapter.t) : Chapter.t :=
  Chapter.with_position (Chapter.position c + 1) c.

(** A source URL in which every run of digits is one that [int] converts:
    the builtin raises ValueError beyond 4300 digits. *)
Definition within_int_limit (source_url : option string) : Prop :=
  match source_url with
  | Some s => (String.length s <= 4300)%nat
  | None => True
  end.
(** * Properties *)

(** ** Sorting *)

Section SortingFacts.
Variable A : Type.
Variable key : A -> Z.

Lemma insert_by_perm (x : A) (l : list A) :
  Permutation (insert_by key x l) (x :: l).
Proof.
  induction l as [|y l IH]; simpl.
  - apply Permutation_refl.
  - destruct (key x <=? key y).
    + apply Permutation_refl.
    + eapply perm_trans; [apply perm_skip, IH | apply perm_swap].
Qed.

Lemma stable_sort_perm (l : list A) : Permutation (stable_sort key l) l.
Proof.
  induction l as [|x l IH]; simpl.
  - constructor.
  - eapply perm_trans; [apply insert_by_perm | apply perm_skip, IH].
Qed.

Lemma stable_sort_length (l : list A) :
  List.length (stable_sort key l) = List.length l.
Proof. apply Permutation_length, stable_sort_perm. Qed.

Lemma insert_by_sorted (x : A) (l : list A) :
  StronglySorted (key_le key) l -> StronglySorted (key_le key) (insert_by key x l).
Proof.
  induction 1 as [|y l Hs IH Hy]; simpl.
  - repeat constructor.
  - destruct (key x <=? key y) eqn:E.
    + apply Z.leb_le in E.
      constructor; [constructor; assumption|].
      constructor; [exact E|].
      eapply Forall_impl; [|exact Hy].
      intros b Hb. unfold key_le in *. lia.
    + apply Z.leb_gt in E.
      constructor; [exact IH|].
      eapply Permutation_Forall;
        [apply Permutation_sym, insert_by_perm|].
      constructor; [unfold key_le; lia | exact Hy].
Qed.

Lemma stable_sort_sorted (l : list A) :
  StronglySorted (key_le key) (stable_sort key l).
Proof.
  induction l as [|x l IH]; simpl.
  - constructor.
  - apply insert_by_sorted, IH.
Qed.

(** A sorted list is left as it is. *)
Lemma stable_sort_id (l : list A) :
  StronglySorted (key_le key) l -> stable_sort key l = l.
Proof.
  induction 1 as [|x l Hs IH Hx]; simpl; [reflexivity|].
  rewrite IH. destruct l as [|y l]; simpl; [reflexivity|].
  inversion Hx as [|? ? Hxy _]; subst. unfold key_le in Hxy.
  apply Z.leb_le in Hxy. rewrite Hxy. reflexivity.
Qed.

Lemma stable_sort_idempotent (l : list A) :
  stable_sort key (stable_sort key l) = stable_sort key l.
Proof. apply stable_sort_id, stable_sort_sorted. Qed.

Lemma sorted_map_key (l : list A) :
  StronglySorted (key_le key) l -> StronglySorted Z.le (map key l).
Proof.
  induction 1 as [|x l Hs IH Hx]; simpl; constructor; [exact IH|].
  apply Forall_map. exact Hx.
Qed.

Lemma le_sorted_nodup_lt (l : list A) :
  StronglySorted (key_le key) l -> NoDup (map key l) -> StronglySorted (key_lt key) l.
Proof.
  induction 1 as [|x l Hs IH Hx]; simpl; intros Hnd; [constructor|].
  inversion Hnd as [|? ? Hnotin Hnd']; subst.
  constructor; [apply IH, Hnd'|].
  rewrite Forall_forall in *. intros y Hy.
  specialize (Hx y Hy). unfold key_le, key_lt in *.
  assert (key x <> key y).
  { intros E. apply Hnotin. rewrite E. apply in_map, Hy. }
  lia.
Qed.

(** Two strictly sorted arrangements of the same elements are equal. *)
Lemma sorted_lt_unique (l1 l2 : list A) :
  StronglySorted (key_lt key) l1 -> StronglySorted (key_lt key) l2 ->
  Permutation l1 l2 -> l1 = l2.
Proof.
  intros H1. revert l2.
  induction H1 as [|x l1 Hs IH Hx]; intros l2 H2 Hp.
  - apply Permutation_nil in Hp. subst. reflexivity.
  - destruct l2 as [|y l2].
    { apply Permutation_sym, Permutation_nil in Hp. discriminate. }
    inversion H2 as [|? ? Hs2 Hy]; subst.
    assert (Hxy : x = y).
    { assert (Hin1 : In x (y :: l2))
        by (eapply Permutation_in; [exact Hp | left; reflexivity]).
      assert (Hin2 : In y (x :: l1))
        by (eapply Permutation_in;
            [apply Permutation_sym; exact Hp | left; reflexivity]).
      destruct Hin1 as [E|Hin1]; [symmetry; exact E|].
      destruct Hin2 as [E|Hin2]; [exact E|].
      rewrite Forall_forall in Hx, Hy.
      specialize (Hx y Hin2). specialize (Hy x Hin1).
      unfold key_lt in *. lia. }
    subst y. f_equal. apply IH; [exact Hs2|].
    eapply Permutation_cons_inv. exact Hp.
Qed.

(** The sort of a list with distinct keys is its only sorted arrangement. *)
Lemma stable_sort_unique (l l' : list A) :
  Permutation l l' -> StronglySorted (key_lt key) l' -> stable_sort key l = l'.
Proof.
  intros Hp Hs.
  assert (Hnd : NoDup (map key l')).
  { clear Hp. induction Hs as [|x l0 Hs IH Hx]; simpl; constructor.
    - rewrite in_map_iff. intros [y [E Hy]].
      rewrite Forall_forall in Hx. specialize (Hx y Hy).
      unfold key_lt in Hx. lia.
    - exact IH. }
  apply sorted_lt_unique.
  - apply le_sorted_nodup_lt; [apply stable_sort_sorted|].
    eapply Permutation_NoDup; [|exact Hnd].
    apply Permutation_map, Permutation_sym.
    eapply perm_trans; [apply stable_sort_perm | exact Hp].
  - exact Hs.
  - eapply perm_trans; [apply stable_sort_perm | exact Hp].
Qed.

Lemma filter_insert_by (p : A -> bool) (x : A) (l : list A) :
  StronglySorted (key_le key) l ->
  filter p (insert_by key x l) =
  if p x then insert_by key x (filter p l) else filter p l.
Proof.
  induction 1 as [|y l Hs IH Hy]; simpl.
  - destruct (p x); reflexivity.
  - destruct (key x <=? key y) eqn:E; simpl.
    + destruct (p x) eqn:Px, (p y) eqn:Py; simpl; rewrite ?E; try reflexivity.
      (* [y] is dropped: [x] still goes in front of what is kept *)
      apply Z.leb_le in E.
      assert (Hall : Forall (key_le key x) (filter p l)).
      { rewrite Forall_forall in *. intros z Hz.
        apply filter_In in Hz. destruct Hz as [Hz _].
        specialize (Hy z Hz). unfold key_le in *. lia. }
      destruct (filter p l) as [|z l'']; simpl; [reflexivity|].
      inversion Hall as [|? ? Hxz _]; subst. unfold key_le in Hxz.
      apply Z.leb_le in Hxz. rewrite Hxz. reflexivity.
    + rewrite IH.
      destruct (p x) eqn:Px, (p y) eqn:Py; simpl; rewrite ?E; reflexivity.
Qed.

(** Filtering commutes with the stable sort: the relative order of the
    rows that are kept does not change. *)
Lemma filter_stable_sort (p : A -> bool) (l : list A) :
  filter p (stable_sort key l) = stable_sort key (filter p l).
Proof.
  induction l as [|x l IH]; simpl; [reflexivity|].
  rewrite filter_insert_by by apply stable_sort_sorted.
  rewrite IH. destruct (p x); reflexivity.
Qed.
End SortingFacts.

(** ** The two passes of the shift *)



Lemma mem_id_In (x : Z) (ids : list Z) : mem_id x ids = true <-> In x ids.
Proof.
  unfold mem_id. rewrite existsb_exists. split.
  - intros [y [Hy E]]. apply Z.eqb_eq in E. now subst.
  - intros H. exists x. split; [exact H | apply Z.eqb_refl].
Qed.

Lemma mem_id_not_In (x : Z) (ids : list Z) :
  mem_id x ids = false <-> ~ In x ids.
Proof.
  rewrite <- mem_id_In. destruct (mem_id x ids); split; intros H;
    try reflexivity; try discriminate; try (intros E; discriminate).
  exfalso. apply H. reflexivity.
Qed.

(** A loop of attribute writes over objects with distinct keys rewrites each
    of them once. *)
Lemma fold_update_position (f : Z -> Z) (objs rows : list Chapter.t) :
  NoDup (map Chapter.id objs) ->
  fold_left (fun rows ch => update_position (Chapter.id ch) f rows) objs rows
  = apply_on (map Chapter.id objs) f rows.
Proof.
  revert rows. induction objs as [|o objs IH]; intros rows Hnd; simpl.
  - unfold apply_on. simpl. symmetry. apply map_id.
  - inversion Hnd as [|? ? Hnotin Hnd']; subst.
    rewrite IH by exact Hnd'.
    unfold apply_on, update_position. rewrite map_map.
    apply map_ext. intros c. simpl.
    destruct (Chapter.id c =? Chapter.id o) eqn:E; simpl.
    + apply Z.eqb_eq in E.
      replace (mem_id (Chapter.id c) (map Chapter.id objs)) with false.
      * reflexivity.
      * symmetry. apply mem_id_not_In. rewrite E. exact Hnotin.
    + reflexivity.
Qed.

Lemma chapters_of_map (h : Chapter.t -> Chapter.t) (novel_id : Z)
    (rows : list Chapter.t) :
  (forall c, Chapter.novel_id (h c) = Chapter.novel_id c) ->
  chapters_of novel_id (map h rows) = map h (chapters_of novel_id rows).
Proof.
  intros Hh. unfold chapters_of.
  induction rows as [|c rows IH]; simpl; [reflexivity|].
  rewrite Hh. destruct (Chapter.novel_id c =? novel_id); simpl; now rewrite IH.
Qed.


Lemma NoDup_map_on {A B C : Type} (f : A -> B) (g : A -> C) (l : list A) :
  NoDup (map f l) ->
  (forall x y, In x l -> In y l -> g x = g y -> f x = f y) ->
  NoDup (map g l).
Proof.
  induction l as [|a l IH]; simpl; intros Hnd Hinj; [constructor|].
  inversion Hnd as [|? ? Hnotin Hnd']; subst.
  constructor.
  - rewrite in_map_iff. intros [y [E Hy]].
    apply Hnotin. rewrite in_map_iff. exists y. split; [|exact Hy].
    apply Hinj; [now right | now left | exact E].
  - apply IH; [exact Hnd'|].
    intros x y Hx Hy. apply Hinj; now right.
Qed.

Lemma NoDup_map_In_eq {A B : Type} (f : A -> B) (l : list A) (x y : A) :
  NoDup (map f l) -> In x l -> In y l -> f x = f y -> x = y.
Proof.
  induction l as [|a l IH]; simpl; intros Hnd Hx Hy E; [contradiction|].
  inversion Hnd as [|? ? Hnotin Hnd']; subst.
  destruct Hx as [Hx|Hx], Hy as [Hy|Hy]; subst.
  - reflexivity.
  - exfalso. apply Hnotin. rewrite E. now apply in_map.
  - exfalso. apply Hnotin. rewrite <- E. now apply in_map.
  - now apply IH.
Qed.

Section Shift.
Variable novel_id insert_pos : Z.
Variable rows : list Chapter.t.

Let affected (c : Chapter.t) : bool :=
  (Chapter.novel_id c =? novel_id) && (insert_pos <=? Chapter.position c).

Let chapters_to_shift := select_chapters_to_shift novel_id insert_pos rows.

Hypothesis keys_distinct : NoDup (map Chapter.id rows).

Lemma chapters_to_shift_perm :
  Permutation chapters_to_shift (filter affected rows).
Proof.
  unfold chapters_to_shift, select_chapters_to_shift.
  eapply perm_trans; [apply Permutation_sym, Permutation_rev|].
  apply stable_sort_perm.
Qed.

Lemma chapters_to_shift_keys : NoDup (map Chapter.id chapters_to_shift).
Proof.
  eapply Permutation_NoDup.
  - apply Permutation_map, Permutation_sym, chapters_to_shift_perm.
  - clear chapters_to_shift.
    induction rows as [|c l IH]; simpl; [constructor|].
    inversion keys_distinct as [|? ? Hnotin Hnd]; subst.
    destruct (affected c); simpl; [constructor|]; try (apply IH; exact Hnd).
    rewrite in_map_iff. intros [y [E Hy]]. apply Hnotin.
    apply filter_In in Hy. rewrite in_map_iff. exists y. tauto.
Qed.

Lemma mem_chapters_to_shift (c : Chapter.t) :
  In c rows ->
  mem_id (Chapter.id c) (map Chapter.id chapters_to_shift) = affected c.
Proof.
  intros Hc. destruct (affected c) eqn:E.
  - apply mem_id_In, in_map.
    eapply Permutation_in; [apply Permutation_sym, chapters_to_shift_perm|].
    apply filter_In. tauto.
  - apply mem_id_not_In. rewrite in_map_iff. intros [y [Ey Hy]].
    apply (Permutation_in _ chapters_to_shift_perm) in Hy.
    apply filter_In in Hy. destruct Hy as [Hy Ay].
    assert (y = c)
      by (eapply NoDup_map_In_eq; [exact keys_distinct | | | ]; eassumption).
    subst y. congruence.
Qed.



Hypothesis positions_distinct : NoDup (positions_of novel_id rows).
Hypothesis positions_nonneg :
  Forall (fun c => 0 <= Chapter.position c) (chapters_of novel_id rows).
Hypothesis insert_pos_nonneg : 0 <= insert_pos.

Lemma two_pass_is_shift_direct :
  second_pass chapters_to_shift (first_pass chapters_to_shift rows)
  = shift_direct novel_id insert_pos rows.
Proof.
  unfold second_pass, first_pass.
  rewrite !fold_update_position by apply chapters_to_shift_keys.
  unfold apply_on, shift_direct. rewrite map_map.
  apply map_ext_in. intros c Hc.
  pose proof (mem_chapters_to_shift c Hc) as Hm. unfold affected in Hm.
  rewrite <- Hm.
  destruct (mem_id (Chapter.id c) (map Chapter.id chapters_to_shift)) eqn:E;
    simpl; rewrite E; [|reflexivity].
  symmetry in Hm. rename E into E0. rename Hm into E.
  apply andb_true_iff in E. destruct E as [_ E]. apply Z.leb_le in E.
  unfold Chapter.with_position. simpl. f_equal. lia.
Qed.







End Shift.

(** ** The three ways out of [add_chapter_atomic] *)

Ltac add_chapter_outcome :=
  cbn [negb andb close_session data novels chapters next_chapter_id];
  first
    [ left; split; reflexivity
    | right; split; [reflexivity|]; eexists; eexists;
      split; [reflexivity|];
      split; [first [now left | now right]|];
      cbn [novels chapters next_chapter_id];
      split; [reflexivity|];
      split; [reflexivity|]; lia ].

Section AddPaths.
Variable float : string -> option spec_float.
Variable user_id novel_slug : string.
Variable chapter_data : ChapterData.t.
Variable d : Database.

Lemma add_chapter_tx_not_found :
  find_novel user_id novel_slug d = None ->
  add_chapter_tx float user_id novel_slug chapter_data (open_session d)
  = (Raise (ValueError (String.append "Novel not found: " novel_slug)),
     open_session d).
Proof.
  intros H. unfold add_chapter_tx, bind, query_novel_for_update. simpl.
  rewrite H. reflexivity.
Qed.

Lemma add_chapter_atomic_not_found :
  find_novel user_id novel_slug d = None ->
  add_chapter_atomic float user_id novel_slug chapter_data d
  = (Raise (ValueError (String.append "Novel not found: " novel_slug)), d).
Proof.
  intros H. unfold add_chapter_atomic, db_session_scope.
  rewrite (add_chapter_tx_not_found H). destruct d. reflexivity.
Qed.

Lemma add_chapter_atomic_duplicate (novel : Novel.t) (ch : Chapter.t) :
  find_novel user_id novel_slug d = Some novel ->
  duplicate_of (Novel.id novel) chapter_data (chapters d) = Some ch ->
  add_chapter_atomic float user_id novel_slug chapter_data d
  = (Return (mkAddResult true "Chapter already exists - skipped" true
                         (Novel.slug novel) (Chapter.position ch)
                         (Chapter.id ch)),
     d).
Proof.
  intros Hn Hd. unfold duplicate_of in Hd.
  unfold add_chapter_atomic, db_session_scope, add_chapter_tx, bind,
    query_novel_for_update, open_session. cbn [data locked]. rewrite Hn.
  cbn [add_chapter_body]. unfold bind.
  destruct (truthy (ChapterData.source_url chapter_data)); [|discriminate].
  unfold query. cbn [data chapters]. rewrite Hd. reflexivity.
Qed.

Lemma duplicate_check_none (novel : Novel.t) (s : Session) :
  duplicate_of (Novel.id novel) chapter_data (chapters (data s)) = None ->
  (if truthy (ChapterData.source_url chapter_data)
   then query (find_chapter_by_source_url (Novel.id novel)
                 (ChapterData.source_url chapter_data))
   else ret None) s
  = (Return None, s).
Proof.
  unfold duplicate_of. intros Hd.
  destruct (truthy (ChapterData.source_url chapter_data)).
  - unfold query. rewrite Hd. reflexivity.
  - reflexivity.
Qed.

(** The call that finds the novel and no duplicate, statement by
    statement. *)
Lemma add_chapter_atomic_outcome (novel : Novel.t) :
  find_novel user_id novel_slug d = Some novel ->
  duplicate_of (Novel.id novel) chapter_data (chapters d) = None ->
  let placed := placement float (Novel.id novel) chapter_data (chapters d) in
  (insert_accepted float novel chapter_data d = true
   /\ add_chapter_atomic float user_id novel_slug chapter_data d
      = (Return (mkAddResult true "Chapter imported successfully" false
                             (Novel.slug novel) (fst placed)
                             (next_chapter_id d)),
         mkDatabase (novels d)
                    (snd placed
                     ++ [new_chapter_row novel chapter_data (fst placed)
                                         (next_chapter_id d)])
                    (next_chapter_id d + 1)))
  \/ (insert_accepted float novel chapter_data d = false
      /\ exists e d',
           add_chapter_atomic float user_id novel_slug chapter_data d
           = (Raise e, d')
           /\ (e = DataError \/ e = IntegrityError)
           /\ rolled_back d d').
Proof.
  intros Hn Hd placed. subst placed.
  unfold insert_accepted, shift_accepted, placement.
  unfold add_chapter_atomic, db_session_scope, add_chapter_tx, bind,
    query_novel_for_update, open_session. cbn [data locked]. rewrite Hn.
  cbn [add_chapter_body]. unfold bind.
  rewrite (duplicate_check_none novel (mkSession d [Novel.id novel]) Hd).
  unfold rolled_back.
  destruct (ChapterData.position chapter_data) as [p|];
    cbv beta iota zeta
        delta [query write_rows flush_positions with_chapters ret session_add
               new_chapter_row];
    cbn [data locked chapters novels next_chapter_id fst snd
         Chapter.position].
  - destruct (in_int32 p); cbn [negb andb]; [|add_chapter_outcome].
    destruct (slug_taken _ _); add_chapter_outcome.
  - destruct (_ <? _); cbv beta iota;
      cbn [data locked chapters novels next_chapter_id fst snd
           Chapter.position].
    + destruct (positions_fit _ (first_pass _ _)); cbv beta iota;
        cbn [andb data locked chapters novels next_chapter_id fst snd
             Chapter.position]; [|add_chapter_outcome].
      destruct (positions_fit _ (second_pass _ _)); cbv beta iota;
        cbn [andb data locked chapters novels next_chapter_id fst snd
             Chapter.position]; [|add_chapter_outcome].
      destruct (in_int32 _); cbn [negb andb]; [|add_chapter_outcome].
      destruct (slug_taken _ _); add_chapter_outcome.
    + destruct (in_int32 _); cbn [negb andb]; [|add_chapter_outcome].
      destruct (slug_taken _ _); add_chapter_outcome.
Qed.

(** The call that finds the novel and no duplicate, and that the database
    accepts. *)
Lemma add_chapter_atomic_insert (novel : Novel.t) :
  find_novel user_id novel_slug d = Some novel ->
  duplicate_of (Novel.id novel) chapter_data (chapters d) = None ->
  insert_accepted float novel chapter_data d = true ->
  let placed := placement float (Novel.id novel) chapter_data (chapters d) in
  add_chapter_atomic float user_id novel_slug chapter_data d
  = (Return (mkAddResult true "Chapter imported successfully" false
                         (Novel.slug novel) (fst placed) (next_chapter_id d)),
     mkDatabase (novels d)
                (snd placed ++ [new_chapter_row novel chapter_data (fst placed)
                                                (next_chapter_id d)])
                (next_chapter_id d + 1)).
Proof.
  intros Hn Hd Ha placed.
  destruct (add_chapter_atomic_outcome novel Hn Hd) as [[_ H]|[Hf _]].
  - exact H.
  - rewrite Ha in Hf. discriminate.
Qed.

(** The call that finds the novel and no duplicate, and returns. *)
Lemma add_chapter_atomic_returned (novel : Novel.t) (r : AddResult)
    (d' : Database) :
  find_novel user_id novel_slug d = Some novel ->
  duplicate_of (Novel.id novel) chapter_data (chapters d) = None ->
  add_chapter_atomic float user_id novel_slug chapter_data d = (Return r, d') ->
  let placed := placement float (Novel.id novel) chapter_data (chapters d) in
  insert_accepted float novel chapter_data d = true
  /\ r = mkAddResult true "Chapter imported successfully" false
                     (Novel.slug novel) (fst placed) (next_chapter_id d)
  /\ d' = mkDatabase (novels d)
                     (snd placed
                      ++ [new_chapter_row novel chapter_data (fst placed)
                                          (next_chapter_id d)])
                     (next_chapter_id d + 1).
Proof.
  intros Hn Hd Ha placed.
  destruct (add_chapter_atomic_outcome novel Hn Hd)
    as [[Hacc H]|[_ [e [d'' [H _]]]]].
  - rewrite H in Ha. inversion Ha. split; [exact Hacc|]. split; reflexivity.
  - rewrite H in Ha. discriminate.
Qed.


(** Every way out of a call that has found the novel. *)
Lemma add_chapter_atomic_found (novel : Novel.t) (o : outcome AddResult)
    (d' : Database) :
  find_novel user_id novel_slug d = Some novel ->
  add_chapter_atomic float user_id novel_slug chapter_data d = (o, d') ->
  let placed := placement float (Novel.id novel) chapter_data (chapters d) in
  (exists ch,
      duplicate_of (Novel.id novel) chapter_data (chapters d) = Some ch
      /\ o = Return (mkAddResult true "Chapter already exists - skipped" true
                                 (Novel.slug novel) (Chapter.position ch)
                                 (Chapter.id ch))
      /\ d' = d)
  \/ (duplicate_of (Novel.id novel) chapter_data (chapters d) = None
      /\ insert_accepted float novel chapter_data d = true
      /\ o = Return (mkAddResult true "Chapter imported successfully" false
                                 (Novel.slug novel) (fst placed)
                                 (next_chapter_id d))
      /\ d' = mkDatabase (novels d)
                         (snd placed
                          ++ [new_chapter_row novel chapter_data (fst placed)
                                              (next_chapter_id d)])
                         (next_chapter_id d + 1))
  \/ (duplicate_of (Novel.id novel) chapter_data (chapters d) = None
      /\ insert_accepted float novel chapter_data d = false
      /\ (o = Raise DataError \/ o = Raise IntegrityError)
      /\ rolled_back d d').
Proof.
  intros Hn Ha placed.
  destruct (duplicate_of (Novel.id novel) chapter_data (chapters d))
    as [ch|] eqn:Hd.
  - left. exists ch. rewrite (add_chapter_atomic_duplicate novel ch Hn Hd) in Ha.
    inversion Ha. repeat split.
  - right.
    destruct (add_chapter_atomic_outcome novel Hn Hd)
      as [[Hacc H]|[Hacc [e [d'' [H [He Hr]]]]]];
      rewrite H in Ha; inversion Ha; subst.
    + left. repeat split. exact Hacc.
    + right. split; [reflexivity|]. split; [exact Hacc|].
      split; [destruct He; subst; tauto | exact Hr].
Qed.

Lemma placement_computed (novel_id : Z) :
  ChapterData.position chapter_data = None ->
  fst (placement float novel_id chapter_data (chapters d))
  = compute_insert_pos float chapter_data
      (order_by_position (chapters_of novel_id (chapters d))).
Proof.
  intros H. unfold placement. rewrite H.
  destruct (_ <? _); reflexivity.
Qed.

End AddPaths.

Lemma update_position_keys (chapter_id : Z) (f : Z -> Z)
    (rows : list Chapter.t) :
  map Chapter.id (update_position chapter_id f rows) = map Chapter.id rows.
Proof.
  unfold update_position. rewrite map_map. apply map_ext.
  intros c. destruct (Chapter.id c =? chapter_id); reflexivity.
Qed.

Lemma fold_update_position_keys (f : Z -> Z) (objs rows : list Chapter.t) :
  map Chapter.id
      (fold_left (fun rows ch => update_position (Chapter.id ch) f rows)
                 objs rows)
  = map Chapter.id rows.
Proof.
  revert rows. induction objs as [|o objs IH]; intros rows; simpl.
  - reflexivity.
  - rewrite IH. apply update_position_keys.
Qed.

(** The shift moves rows; it neither adds nor removes one. *)
Lemma placement_keys (float : string -> option spec_float) (novel_id : Z)
    (chapter_data : ChapterData.t) (rows : list Chapter.t) :
  map Chapter.id (snd (placement float novel_id chapter_data rows))
  = map Chapter.id rows.
Proof.
  unfold placement.
  destruct (ChapterData.position chapter_data); [reflexivity|].
  destruct (_ <? _); [|reflexivity].
  simpl. unfold second_pass, first_pass.
  now rewrite !fold_update_position_keys.
Qed.

Lemma option_string_eqb_eq (a b : option string) :
  option_string_eqb a b = true <-> a = b.
Proof.
  destruct a as [x|], b as [y|]; simpl; split; intros H;
    try discriminate; try reflexivity.
  - apply String.eqb_eq in H. now subst.
  - inversion H; subst. apply String.eqb_refl.
Qed.

Lemma hd_error_In {A : Type} (l : list A) (x : A) :
  hd_error l = Some x -> In x l.
Proof. destruct l; simpl; intros H; [discriminate | inversion H; now left]. Qed.

Lemma find_chapter_by_source_url_found (novel_id : Z) (url : option string)
    (rows : list Chapter.t) (ch : Chapter.t) :
  find_chapter_by_source_url novel_id url rows = Some ch ->
  In ch rows /\ Chapter.novel_id ch = novel_id /\ Chapter.source_url ch = url.
Proof.
  unfold find_chapter_by_source_url. intros H.
  apply hd_error_In, filter_In in H. destruct H as [Hin Hp].
  apply andb_true_iff in Hp. destruct Hp as [Hn Hu].
  apply Z.eqb_eq in Hn. apply option_string_eqb_eq in Hu. tauto.
Qed.

Lemma find_chapter_by_source_url_last (novel_id : Z) (url : option string)
    (rows : list Chapter.t) (c : Chapter.t) :
  Chapter.novel_id c = novel_id -> Chapter.source_url c = url ->
  exists ch, find_chapter_by_source_url novel_id url (rows ++ [c]) = Some ch.
Proof.
  intros Hn Hu. unfold find_chapter_by_source_url.
  rewrite filter_app. simpl.
  rewrite Hn, Hu, Z.eqb_refl.
  replace (option_string_eqb url url) with true
    by (symmetry; now apply option_string_eqb_eq).
  simpl. destruct (filter _ rows) as [|x l]; simpl; eexists; reflexivity.
Qed.


(** ** The position sequencer *)

Lemma first_index_where_from (test : Chapter.t -> bool) (l : list Chapter.t)
    (idx : Z) :
  exists i : nat,
    first_index_where test idx l (idx + Z.of_nat (List.length l))
    = idx + Z.of_nat i
    /\ first_index_spec test l i.
Proof.
  revert idx. induction l as [|c l IH]; intros idx.
  - exists 0%nat. split; [reflexivity|].
    repeat split; [lia | intros; lia | intros ch H; discriminate].
  - cbn [first_index_where]. destruct (test c) eqn:T.
    + exists 0%nat. split; [lia|].
      repeat split; [simpl; lia | intros; lia |].
      intros ch H. simpl in H. now inversion H; subst.
    + destruct (IH (idx + 1)) as [i [Ei [Hle [Hbefore Hat]]]].
      exists (S i). split.
      * replace (idx + Z.of_nat (List.length (c :: l)))
          with (idx + 1 + Z.of_nat (List.length l))
          by (cbn [List.length]; lia).
        rewrite Ei. lia.
      * repeat split.
        -- simpl. lia.
        -- intros j ch Hj Hn. destruct j as [|j]; simpl in Hn.
           ++ now inversion Hn; subst.
           ++ apply (Hbefore j); [lia | exact Hn].
        -- intros ch Hn. simpl in Hn. now apply Hat.
Qed.

Lemma first_index_where_correct (test : Chapter.t -> bool)
    (l : list Chapter.t) :
  exists i : nat,
    first_index_where test 0 l (Z.of_nat (List.length l)) = Z.of_nat i
    /\ first_index_spec test l i.
Proof.
  destruct (first_index_where_from test l 0) as [i [E H]].
  exists i. split; [exact E | exact H].
Qed.

Lemma first_index_spec_none (test : Chapter.t -> bool) (l : list Chapter.t)
    (i : nat) :
  first_index_spec test l i ->
  Forall (fun ch => test ch = false) l -> i = List.length l.
Proof.
  intros [Hle [_ Hat]] Hall.
  destruct (Nat.eq_dec i (List.length l)) as [E|N]; [exact E|].
  assert (Hlt : (i < List.length l)%nat) by lia.
  apply nth_error_Some in Hlt.
  destruct (nth_error l i) as [ch|] eqn:En; [|congruence].
  rewrite Forall_forall in Hall.
  specialize (Hall ch (nth_error_In _ _ En)).
  specialize (Hat ch eq_refl). congruence.
Qed.

Lemma precedes_by_episode_id_true (k : Z) (ch : Chapter.t) :
  precedes_by_episode_id k ch = true <->
  exists e, extract_episode_id_from_url (Chapter.source_url ch) = Some e
            /\ k < e.
Proof.
  unfold precedes_by_episode_id.
  destruct (extract_episode_id_from_url (Chapter.source_url ch)) as [e|].
  - rewrite Z.ltb_lt. split.
    + intros H. exists e. tauto.
    + intros [e' [E H]]. inversion E; subst. exact H.
  - split; [discriminate | intros [e [E _]]; discriminate].
Qed.

Lemma precedes_by_episode_id_false (k : Z) (ch : Chapter.t) :
  precedes_by_episode_id k ch = false <->
  forall e, extract_episode_id_from_url (Chapter.source_url ch) = Some e ->
            e <= k.
Proof.
  unfold precedes_by_episode_id.
  destruct (extract_episode_id_from_url (Chapter.source_url ch)) as [e|].
  - rewrite Z.ltb_ge. split.
    + intros H e' E. inversion E; subst. exact H.
    + intros H. apply H. reflexivity.
  - split; [intros _ e E; discriminate | reflexivity].
Qed.

(** [<] on binary64 values is asymmetric. *)
Lemma SFltb_asym (x y : spec_float) : SFltb x y = true -> SFltb y x = false.
Proof.
  unfold SFltb.
  destruct x as [sx|sx| |sx mx ex], y as [sy|sy| |sy my ey]; simpl;
    try destruct sx; try destruct sy; simpl;
    try reflexivity; try discriminate.
  - rewrite (Z.compare_antisym ex ey).
    destruct (ex ?= ey); simpl; try reflexivity; try discriminate.
    pose proof (Pos.compare_cont_antisym my mx Eq) as H. simpl in H.
    rewrite <- H.
    destruct (Pos.compare_cont Eq my mx); simpl;
      try reflexivity; discriminate.
  - rewrite (Z.compare_antisym ex ey).
    destruct (ex ?= ey); simpl; try reflexivity; try discriminate.
    pose proof (Pos.compare_cont_antisym my mx Eq) as H. simpl in H.
    rewrite <- H.
    destruct (Pos.compare_cont Eq my mx); simpl;
      try reflexivity; discriminate.
Qed.

Lemma SFltb_irrefl (x : spec_float) : SFltb x x = false.
Proof.
  destruct (SFltb x x) eqn:E; [|reflexivity].
  pose proof (SFltb_asym _ _ E). congruence.
Qed.

(** ** The sort view *)

Lemma not_none_map_Some {A : Type} (l : list A) : not_none (map Some l) = l.
Proof. induction l as [|x l IH]; simpl; [reflexivity | now rewrite IH]. Qed.

Lemma sort_chapters_by_number_eq (chapters : list (option ChapterDict.t))
    (order : string) :
  sort_chapters_by_number chapters order
  = sorted position_key (String.eqb order "desc") (not_none chapters).
Proof.
  unfold sort_chapters_by_number. destruct chapters as [|c l]; [|reflexivity].
  simpl. destruct (String.eqb order "desc"); reflexivity.
Qed.

Lemma sorted_perm {A : Type} (key : A -> Z) (reverse : bool) (l : list A) :
  Permutation (sorted key reverse l) l.
Proof.
  unfold sorted. destruct reverse.
  - eapply perm_trans; [apply Permutation_sym, Permutation_rev|].
    eapply perm_trans; [apply stable_sort_perm|].
    apply Permutation_sym, Permutation_rev.
  - apply stable_sort_perm.
Qed.

Lemma sorted_descending_twice {A : Type} (key : A -> Z) (l : list A) :
  sorted key true (sorted key true l) = sorted key true l.
Proof.
  unfold sorted. rewrite rev_involutive, stable_sort_idempotent. reflexivity.
Qed.

(** With distinct keys the order of the input does not matter. *)
Lemma stable_sort_rev {A : Type} (key : A -> Z) (l : list A) :
  NoDup (map key l) -> stable_sort key (rev l) = stable_sort key l.
Proof.
  intros Hnd. apply stable_sort_unique.
  - eapply perm_trans; [apply Permutation_sym, Permutation_rev|].
    apply Permutation_sym, stable_sort_perm.
  - apply le_sorted_nodup_lt; [apply stable_sort_sorted|].
    eapply Permutation_NoDup; [|exact Hnd].
    apply Permutation_map, Permutation_sym, stable_sort_perm.
Qed.

Lemma get_novel_with_chapters_db_eq (user_id novel_slug : string)
    (d : Database) :
  get_novel_with_chapters_db user_id novel_slug d
  = (Return
       match find_novel user_id novel_slug d with
       | None => None
       | Some novel =>
           Some (NovelDict.mk (Novel.sort_order_override novel)
                   (map to_dict
                      (order_by_position
                         (chapters_of (Novel.id novel) (chapters d)))))
       end,
     d).
Proof.
  unfold get_novel_with_chapters_db, db_session_scope,
    get_novel_with_chapters_tx, bind, query_novel. simpl.
  destruct (find_novel user_id novel_slug d); reflexivity.
Qed.

(** C8, as stated, fails on chapters that share a position: the ascending
    view is then not the reverse of the descending view, because both keep
    chapters with equal keys in their input order. *)
Lemma ascending_view_is_not_reverse_of_descending_view :
  let chapters :=
    [Some (ChapterDict.mk 1 (Some "1") None (Some 0));
     Some (ChapterDict.mk 2 (Some "2") None (Some 0))] in
  map ChapterDict.id (sort_chapters_by_number chapters "asc") = [1; 2]
  /\ map ChapterDict.id (sort_chapters_by_number chapters "desc") = [1; 2]
  /\ sort_chapters_by_number chapters "asc"
     <> rev (sort_chapters_by_number chapters "desc").
Proof.
  intros chapters.
  split; [reflexivity|]. split; [reflexivity|].
  intros H. vm_compute in H. discriminate H.
Qed.

(** C8, amended.  The read that feeds the view leaves the database as it
    is, the view returns the chapters it was given (each with the position
    it had), and the descending view of a descending view is that view
    again; when the position keys of the chapters are pairwise distinct, the
    ascending view is the reverse of the descending view. *)
Theorem sort_chapters_by_number_is_a_view :
  (forall user_id novel_slug d,
      snd (get_novel_with_chapters_db user_id novel_slug d) = d)
  /\ (forall chapters order,
         Permutation (sort_chapters_by_number chapters order)
                     (not_none chapters))
  /\ (forall chapters,
         sort_chapters_by_number
           (map Some (sort_chapters_by_number chapters "desc")) "desc"
         = sort_chapters_by_number chapters "desc")
  /\ (forall chapters,
         NoDup (map position_key (not_none chapters)) ->
         sort_chapters_by_number chapters "asc"
         = rev (sort_chapters_by_number chapters "desc")).
Proof.
  split; [|split; [|split]].
  - intros. rewrite get_novel_with_chapters_db_eq. reflexivity.
  - intros. rewrite sort_chapters_by_number_eq. apply sorted_perm.
  - intros. rewrite !sort_chapters_by_number_eq, not_none_map_Some.
    apply sorted_descending_twice.
  - intros chapters Hnd. rewrite !sort_chapters_by_number_eq. simpl.
    rewrite rev_involutive. symmetry. apply stable_sort_rev, Hnd.
Qed.

(** An instance of the theorem above on four chapters at positions 0, 1, 2, 3. *)
Lemma sort_chapters_by_number_is_a_view_witness :
  let chapters := map (fun c => Some (to_dict c)) (chapters library_of_four) in
  NoDup (map position_key (not_none chapters))
  /\ sort_chapters_by_number chapters "asc"
     = rev (sort_chapters_by_number chapters "desc").
Proof.
  intros chapters.
  assert (Hnd : NoDup (map position_key (not_none chapters)))
    by (repeat (constructor; [simpl; intuition discriminate|]); constructor).
  split; [exact Hnd|].
  exact (proj2 (proj2 (proj2 sort_chapters_by_number_is_a_view)) chapters Hnd).
Defined.

(** ** Deletion and renumbering *)

Lemma renumber_row_novel_id (k : Z) (remaining : list Chapter.t)
    (c : Chapter.t) :
  Chapter.novel_id (renumber_row k remaining c) = Chapter.novel_id c.
Proof.
  revert k. induction remaining as [|ch rest IH]; intros k; simpl.
  - reflexivity.
  - destruct (Chapter.id c =? Chapter.id ch); [reflexivity | apply IH].
Qed.

Lemma renumber_row_id (k : Z) (remaining : list Chapter.t) (c : Chapter.t) :
  Chapter.id (renumber_row k remaining c) = Chapter.id c.
Proof.
  revert k. induction remaining as [|ch rest IH]; intros k; simpl.
  - reflexivity.
  - destruct (Chapter.id c =? Chapter.id ch); [reflexivity | apply IH].
Qed.

Lemma renumber_row_other (k : Z) (remaining : list Chapter.t)
    (c : Chapter.t) :
  ~ In (Chapter.id c) (map Chapter.id remaining) ->
  renumber_row k remaining c = c.
Proof.
  revert k. induction remaining as [|ch rest IH]; intros k Hn; simpl.
  - reflexivity.
  - destruct (Chapter.id c =? Chapter.id ch) eqn:E.
    + apply Z.eqb_eq in E. exfalso. apply Hn. left. now symmetry.
    + apply IH. intros H. apply Hn. now right.
Qed.

(** The renumbering loop rewrites each row once. *)
Lemma renumber_from_rows (k : Z) (remaining rows : list Chapter.t) :
  NoDup (map Chapter.id remaining) ->
  renumber_from k remaining rows = map (renumber_row k remaining) rows.
Proof.
  revert k rows. induction remaining as [|ch rest IH]; intros k rows Hnd.
  - simpl. symmetry. apply map_id.
  - inversion Hnd as [|? ? Hnotin Hnd']; subst.
    cbn [renumber_from]. rewrite IH by exact Hnd'.
    unfold update_position. rewrite map_map.
    apply map_ext. intros c. cbn [renumber_row].
    destruct (Chapter.id c =? Chapter.id ch) eqn:E.
    + apply Z.eqb_eq in E.
      rewrite renumber_row_other by (simpl; rewrite E; exact Hnotin).
      unfold Chapter.with_position. f_equal.
      destruct (Chapter.position c =? k) eqn:P; simpl; [|reflexivity].
      now apply Z.eqb_eq in P.
    + reflexivity.
Qed.

Lemma renumber_row_on_remaining (k : Z) (remaining : list Chapter.t) :
  NoDup (map Chapter.id remaining) ->
  map (renumber_row k remaining) remaining = renumbered k remaining.
Proof.
  revert k. induction remaining as [|ch rest IH]; intros k Hnd.
  - reflexivity.
  - inversion Hnd as [|? ? Hnotin Hnd']; subst.
    cbn [map renumbered renumber_row]. rewrite Z.eqb_refl. f_equal.
    rewrite <- IH by exact Hnd'.
    apply map_ext_in. intros c Hc.
    destruct (Chapter.id c =? Chapter.id ch) eqn:E; [|reflexivity].
    apply Z.eqb_eq in E. exfalso. apply Hnotin. rewrite <- E.
    now apply in_map.
Qed.

Lemma renumbered_positions (k : nat) (l : list Chapter.t) :
  map Chapter.position (renumbered (Z.of_nat k) l)
  = map Z.of_nat (seq k (List.length l)).
Proof.
  revert k. induction l as [|c l IH]; intros k; simpl; [reflexivity|].
  f_equal. replace (Z.of_nat k + 1) with (Z.of_nat (S k)) by lia. apply IH.
Qed.

Lemma renumbered_length (k : Z) (l : list Chapter.t) :
  List.length (renumbered k l) = List.length l.
Proof. revert k. induction l; intros k; simpl; [|rewrite IHl]; reflexivity. Qed.

Lemma zrange_sorted_from (k n : nat) :
  StronglySorted Z.lt (map Z.of_nat (seq k n)).
Proof.
  revert k. induction n as [|n IH]; intros k; simpl; constructor.
  - apply IH.
  - apply Forall_map, Forall_forall. intros x Hx.
    apply in_seq in Hx. lia.
Qed.

Lemma sorted_of_map_key {A : Type} (key : A -> Z) (l : list A) :
  StronglySorted Z.lt (map key l) -> StronglySorted (key_lt key) l.
Proof.
  induction l as [|x l IH]; simpl; intros H; [constructor|].
  inversion H as [|? ? Hs Hx]; subst.
  constructor; [apply IH, Hs|].
  rewrite Forall_map in Hx. exact Hx.
Qed.

Lemma renumbered_sorted (l : list Chapter.t) :
  StronglySorted (key_lt Chapter.position) (renumbered 0 l).
Proof.
  apply sorted_of_map_key.
  pose proof (renumbered_positions 0 l) as H.
  change (Z.of_nat 0) with 0 in H.
  rewrite H. apply zrange_sorted_from.
Qed.

Lemma chapters_of_filter (novel_id : Z) (p : Chapter.t -> bool)
    (rows : list Chapter.t) :
  chapters_of novel_id (filter p rows) = filter p (chapters_of novel_id rows).
Proof.
  unfold chapters_of. induction rows as [|c rows IH]; simpl; [reflexivity|].
  destruct (p c) eqn:P, (Chapter.novel_id c =? novel_id) eqn:N; simpl;
    rewrite ?P, ?N, IH; reflexivity.
Qed.

Lemma find_chapter_by_id_found (chapter_id : Z) (rows : list Chapter.t)
    (c : Chapter.t) :
  find_chapter_by_id chapter_id rows = Some c ->
  In c rows /\ Chapter.id c = chapter_id.
Proof.
  unfold find_chapter_by_id. intros H. apply find_some in H.
  rewrite Z.eqb_eq in H. exact H.
Qed.

Lemma find_chapter_by_id_In (rows : list Chapter.t) (c : Chapter.t) :
  NoDup (map Chapter.id rows) -> In c rows ->
  find_chapter_by_id (Chapter.id c) rows = Some c.
Proof.
  intros Hnd Hin. unfold find_chapter_by_id.
  destruct (find (fun c0 => Chapter.id c0 =? Chapter.id c) rows) as [c'|]
    eqn:E.
  - apply find_some in E. destruct E as [Hin' E]. apply Z.eqb_eq in E.
    f_equal. eapply NoDup_map_In_eq; eassumption.
  - exfalso. apply (find_none _ _ E) in Hin.
    rewrite Z.eqb_refl in Hin. discriminate.
Qed.

Lemma without_length (deleted : Chapter.t) (l : list Chapter.t) :
  NoDup (map Chapter.id l) -> In deleted l ->
  (List.length (without deleted l) + 1 = List.length l)%nat.
Proof.
  unfold without. induction l as [|c l IH]; simpl; intros Hnd Hin.
  - contradiction.
  - inversion Hnd as [|? ? Hnotin Hnd']; subst.
    destruct Hin as [E|Hin].
    + subst c. rewrite Z.eqb_refl. simpl.
      assert (Hsame : filter (fun c => negb (Chapter.id c =? Chapter.id deleted)) l = l).
      { apply forallb_filter_id. apply forallb_forall. intros x Hx.
        destruct (Chapter.id x =? Chapter.id deleted) eqn:E; [|reflexivity].
        apply Z.eqb_eq in E. exfalso. apply Hnotin. rewrite <- E.
        now apply in_map. }
      rewrite Hsame. lia.
    + destruct (Chapter.id c =? Chapter.id deleted) eqn:E.
      * apply Z.eqb_eq in E. exfalso. apply Hnotin. rewrite E.
        now apply in_map.
      * simpl. rewrite <- (IH Hnd' Hin). lia.
Qed.

(** Dropping rows keeps the primary keys distinct. *)
Lemma filter_keys_distinct (keep : Chapter.t -> bool) (rows : list Chapter.t) :
  NoDup (map Chapter.id rows) -> NoDup (map Chapter.id (filter keep rows)).
Proof.
  intros Hnd. induction rows as [|c rows IH]; simpl; [constructor|].
  inversion Hnd as [|? ? Hfresh Hrest]; subst.
  destruct (keep c); simpl; [|now apply IH].
  constructor; [|now apply IH].
  intros Hin. apply Hfresh.
  apply in_map_iff in Hin. destruct Hin as [y [E Hy]].
  apply filter_In in Hy. apply in_map_iff. exists y. tauto.
Qed.

Lemma order_by_position_keys (l : list Chapter.t) :
  NoDup (map Chapter.id l) -> NoDup (map Chapter.id (order_by_position l)).
Proof.
  intros H. eapply Permutation_NoDup; [|exact H].
  apply Permutation_map, Permutation_sym, stable_sort_perm.
Qed.

Section DeleteRows.
Variable novel_id : Z.
Variable deleted : Chapter.t.
Variable rows : list Chapter.t.
Hypothesis keys_distinct : NoDup (map Chapter.id rows).

Let remaining :=
  order_by_position (chapters_of novel_id (without deleted rows)).

Lemma remaining_keys : NoDup (map Chapter.id remaining).
Proof.
  apply order_by_position_keys. unfold chapters_of, without.
  now do 2 apply filter_keys_distinct.
Qed.

Lemma remaining_is_prior_order :
  remaining
  = without deleted (order_by_position (chapters_of novel_id rows)).
Proof.
  unfold remaining, without, order_by_position.
  rewrite chapters_of_filter. symmetry. apply filter_stable_sort.
Qed.

Lemma rows_after_delete_eq :
  rows_after_delete novel_id deleted rows
  = map (renumber_row 0 remaining) (without deleted rows).
Proof.
  unfold rows_after_delete. apply renumber_from_rows, remaining_keys.
Qed.

Lemma chapters_after_delete_perm :
  Permutation (chapters_of novel_id (rows_after_delete novel_id deleted rows))
              (renumbered 0 remaining).
Proof.
  rewrite rows_after_delete_eq.
  rewrite chapters_of_map by (intros; apply renumber_row_novel_id).
  rewrite <- (renumber_row_on_remaining 0 remaining remaining_keys).
  apply Permutation_map, Permutation_sym, stable_sort_perm.
Qed.

Lemma chapters_after_delete_sorted :
  order_by_position
    (chapters_of novel_id (rows_after_delete novel_id deleted rows))
  = renumbered 0 remaining.
Proof.
  apply stable_sort_unique.
  - apply chapters_after_delete_perm.
  - apply renumbered_sorted.
Qed.

Lemma chapters_after_delete_other (other : Z) :
  other <> novel_id ->
  chapters_of other (rows_after_delete novel_id deleted rows)
  = chapters_of other (without deleted rows).
Proof.
  intros Hne. rewrite rows_after_delete_eq.
  rewrite chapters_of_map by (intros; apply renumber_row_novel_id).
  rewrite <- (map_id (chapters_of other (without deleted rows))) at 2.
  apply map_ext_in. intros c Hc.
  apply renumber_row_other. rewrite in_map_iff. intros [y [E Hy]].
  unfold remaining in Hy.
  apply (Permutation_in _ (stable_sort_perm _ Chapter.position _)) in Hy.
  unfold chapters_of in Hc, Hy. apply filter_In in Hc, Hy.
  destruct Hc as [Hc Nc], Hy as [Hy Ny].
  apply Z.eqb_eq in Nc, Ny.
  unfold without in Hc, Hy. apply filter_In in Hc, Hy.
  assert (y = c)
    by (eapply NoDup_map_In_eq; [exact keys_distinct | | | ]; tauto).
  subst y. congruence.
Qed.

Lemma rows_after_delete_keys :
  map Chapter.id (rows_after_delete novel_id deleted rows)
  = map Chapter.id (without deleted rows).
Proof.
  rewrite rows_after_delete_eq, map_map. apply map_ext.
  intros c. apply renumber_row_id.
Qed.

End DeleteRows.

Lemma py_index_In {A : Type} (l : list A) (i : Z) (x : A) :
  py_index l i = Some x -> In x l.
Proof.
  unfold py_index. intros H.
  destruct (0 <=? i); [|destruct (0 <=? _)]; try discriminate;
    eapply nth_error_In; exact H.
Qed.

(** What a call of [delete_chapter] can do: nothing; or find the chapter
    shown at [chapter_index], and then fail on its token usage records, or
    delete it and renumber the rest. *)
Lemma delete_chapter_cases (default_sort_order user_id novel_slug : string)
    (chapter_index : Z) (d d' : Database) (o : outcome bool) :
  delete_chapter default_sort_order user_id novel_slug chapter_index d
  = (o, d') ->
  (d' = d /\ (o = Return false \/ o = Raise IndexError)) \/
  exists novel chapter deleted,
    find_novel user_id novel_slug d = Some novel
    /\ (let before :=
          order_by_position (chapters_of (Novel.id novel) (chapters d)) in
        py_index
          (sort_chapters_by_number (map Some (map to_dict before))
             (display_order default_sort_order
                (NovelDict.mk (Novel.sort_order_override novel)
                              (map to_dict before))))
          chapter_index
        = Some chapter)
    /\ find_chapter_by_id (ChapterDict.id chapter) (chapters d) = Some deleted
    /\ ((has_token_usage (Chapter.id deleted) (chapters d) = true
         /\ o = Raise IntegrityError /\ d' = d)
        \/ (has_token_usage (Chapter.id deleted) (chapters d) = false
            /\ o = Return true
            /\ d' = with_chapters
                      (rows_after_delete (Novel.id novel) deleted (chapters d))
                      d)).
Proof.
  unfold delete_chapter. rewrite get_novel_with_chapters_db_eq.
  destruct (find_novel user_id novel_slug d) as [novel|] eqn:Hn.
  2:{ intros H. inversion H. left. tauto. }
  cbn [NovelDict.chapters].
  set (before := order_by_position (chapters_of (Novel.id novel) (chapters d))).
  destruct (map to_dict before) as [|c0 l0] eqn:Eb.
  { intros H. inversion H. left. tauto. }
  rewrite <- Eb. clear Eb c0 l0.
  destruct (_ <=? chapter_index).
  { intros H. inversion H. left. tauto. }
  destruct (py_index _ chapter_index) as [chapter|] eqn:Ei.
  2:{ intros H. inversion H. left. tauto. }
  unfold db_session_scope, delete_chapter_tx, bind, query_novel_for_update.
  simpl. rewrite Hn. unfold query. simpl.
  destruct (find_chapter_by_id (ChapterDict.id chapter) (chapters d))
    as [deleted|] eqn:Ef.
  2:{ intros H. inversion H. left. tauto. }
  unfold session_delete. cbn [data chapters].
  destruct (has_token_usage (Chapter.id deleted) (chapters d)) eqn:Eu.
  - cbn. intros H. inversion H; subst. right.
    exists novel, chapter, deleted.
    split; [reflexivity|]. split; [exact Ei|]. split; [exact Ef|].
    left. split; [exact Eu|]. split; [reflexivity|].
    destruct d; reflexivity.
  - simpl. intros H. inversion H; subst. right.
    exists novel, chapter, deleted.
    split; [reflexivity|]. split; [exact Ei|]. split; [exact Ef|].
    right. split; [exact Eu|]. split; reflexivity.
Qed.

(** The row found by its key decides whether the deletion is refused. *)
Lemma has_token_usage_found (chapter_id : Z) (rows : list Chapter.t)
    (ch : Chapter.t) :
  NoDup (map Chapter.id rows) ->
  find_chapter_by_id chapter_id rows = Some ch ->
  has_token_usage (Chapter.id ch) rows
  = (0 <? Chapter.token_usage_records ch)%nat.
Proof.
  intros Hnd Hf.
  pose proof (find_chapter_by_id_found _ _ _ Hf) as [Hin Hid].
  unfold has_token_usage.
  destruct (0 <? Chapter.token_usage_records ch)%nat eqn:E.
  - apply existsb_exists. exists ch. split; [exact Hin|].
    now rewrite Z.eqb_refl, E.
  - destruct (existsb _ rows) eqn:Ex; [|reflexivity].
    apply existsb_exists in Ex. destruct Ex as [c [Hc Hp]].
    apply andb_true_iff in Hp. destruct Hp as [Hk Hu].
    apply Z.eqb_eq in Hk.
    assert (c = ch)
      by (eapply NoDup_map_In_eq; [exact Hnd | | | ]; eassumption).
    subst c. rewrite E in Hu. discriminate.
Qed.

Lemma chapters_of_In (novel_id : Z) (rows : list Chapter.t) (c : Chapter.t) :
  In c (chapters_of novel_id rows) <->
  In c rows /\ Chapter.novel_id c = novel_id.
Proof. unfold chapters_of. rewrite filter_In, Z.eqb_eq. tauto. Qed.

Lemma order_by_position_In (l : list Chapter.t) (c : Chapter.t) :
  In c (order_by_position l) <-> In c l.
Proof.
  split; apply Permutation_in;
    [|apply Permutation_sym]; apply stable_sort_perm.
Qed.

(** With distinct primary keys, the chapter shown at the index is the row
    that is deleted, and it is a chapter of the novel. *)
Lemma displayed_chapter_is_deleted (order : string) (chapter_index novel_id : Z)
    (rows : list Chapter.t) (chapter : ChapterDict.t) (deleted : Chapter.t) :
  NoDup (map Chapter.id rows) ->
  py_index
    (sort_chapters_by_number
       (map Some (map to_dict (order_by_position (chapters_of novel_id rows))))
       order)
    chapter_index
  = Some chapter ->
  find_chapter_by_id (ChapterDict.id chapter) rows = Some deleted ->
  In deleted (order_by_position (chapters_of novel_id rows))
  /\ to_dict deleted = chapter.
Proof.
  intros Hnd Hi Hf.
  apply py_index_In in Hi.
  rewrite sort_chapters_by_number_eq, not_none_map_Some in Hi.
  apply (Permutation_in _ (sorted_perm _ _ _)) in Hi.
  apply in_map_iff in Hi. destruct Hi as [c0 [E Hc0]].
  pose proof Hc0 as Hrows.
  apply order_by_position_In, chapters_of_In in Hrows.
  assert (Hid : ChapterDict.id chapter = Chapter.id c0)
    by (rewrite <- E; reflexivity).
  rewrite Hid in Hf.
  rewrite (find_chapter_by_id_In rows c0 Hnd (proj1 Hrows)) in Hf.
  inversion Hf; subst. split; [exact Hc0 | reflexivity].
Qed.

Lemma without_other_novel (novel_id other : Z) (deleted : Chapter.t)
    (rows : list Chapter.t) :
  Chapter.novel_id deleted = novel_id -> other <> novel_id ->
  NoDup (map Chapter.id rows) -> In deleted rows ->
  chapters_of other (without deleted rows) = chapters_of other rows.
Proof.
  intros Hn Hne Hnd Hin. unfold without. rewrite chapters_of_filter.
  apply forallb_filter_id, forallb_forall. intros c Hc.
  apply chapters_of_In in Hc. destruct Hc as [Hc Nc].
  destruct (Chapter.id c =? Chapter.id deleted) eqn:E; [|reflexivity].
  apply Z.eqb_eq in E.
  assert (c = deleted) by (eapply NoDup_map_In_eq; eassumption).
  subst c. congruence.
Qed.

(** ** Dense positions *)

Lemma zrange_S (n : nat) : zrange (S n) = zrange n ++ [Z.of_nat n].
Proof. unfold zrange. rewrite seq_S, map_app. reflexivity. Qed.

Lemma zrange_length (n : nat) : List.length (zrange n) = n.
Proof. unfold zrange. now rewrite length_map, length_seq. Qed.

Lemma zrange_In (n : nat) (x : Z) : In x (zrange n) <-> 0 <= x < Z.of_nat n.
Proof.
  unfold zrange. rewrite in_map_iff. split.
  - intros [k [E Hk]]. apply in_seq in Hk. lia.
  - intros H. exists (Z.to_nat x). split; [lia|]. apply in_seq. lia.
Qed.

Lemma zrange_NoDup (n : nat) : NoDup (zrange n).
Proof.
  unfold zrange. apply (NoDup_map_on (fun k : nat => k) Z.of_nat).
  - rewrite map_id. apply seq_NoDup.
  - intros a b _ _ E. now apply Nat2Z.inj.
Qed.

Lemma contiguous_NoDup (ps : list Z) : contiguous ps -> NoDup ps.
Proof.
  intros H. eapply Permutation_NoDup; [apply Permutation_sym, H|].
  apply zrange_NoDup.
Qed.

Lemma contiguous_bounds (ps : list Z) (p : Z) :
  contiguous ps -> In p ps -> 0 <= p < Z.of_nat (List.length ps).
Proof.
  intros H Hin. apply zrange_In. eapply Permutation_in; eassumption.
Qed.

Lemma contiguous_append (ps : list Z) :
  contiguous ps -> contiguous (ps ++ [Z.of_nat (List.length ps)]).
Proof.
  unfold contiguous. intros H.
  rewrite length_app, Nat.add_1_r, zrange_S.
  now apply Permutation_app_tail.
Qed.

Lemma shifted_zrange (n : nat) (i : Z) :
  0 <= i <= Z.of_nat n ->
  Permutation (map (shifted i) (zrange n) ++ [i]) (zrange (S n)).
Proof.
  induction n as [|n IH]; intros Hi.
  - replace i with 0 by lia. apply Permutation_refl.
  - destruct (Z.eq_dec i (Z.of_nat (S n))) as [E|N].
    + (* nothing moves *)
      rewrite (zrange_S (S n)), <- E.
      apply Permutation_app_tail.
      rewrite <- (map_id (zrange (S n))) at 2.
      replace (map (shifted i) (zrange (S n)))
        with (map (fun x => x) (zrange (S n))); [apply Permutation_refl|].
      apply map_ext_in. intros x Hx. apply zrange_In in Hx.
      unfold shifted. destruct (i <=? x) eqn:L; [|reflexivity].
      apply Z.leb_le in L. lia.
    + rewrite (zrange_S n), map_app. cbn [map].
      replace (shifted i (Z.of_nat n)) with (Z.of_nat (S n)).
      2:{ unfold shifted. destruct (i <=? Z.of_nat n) eqn:L.
          - lia.
          - apply Z.leb_gt in L. lia. }
      rewrite (zrange_S (S n)).
      rewrite <- app_assoc. cbn [app].
      eapply perm_trans.
      * apply Permutation_app_head. apply perm_swap.
      * change [i; Z.of_nat (S n)] with ([i] ++ [Z.of_nat (S n)]).
        rewrite app_assoc. apply Permutation_app_tail. apply IH. lia.
Qed.

Lemma contiguous_insert (ps : list Z) (i : Z) :
  contiguous ps -> 0 <= i <= Z.of_nat (List.length ps) ->
  contiguous (map (shifted i) ps ++ [i]).
Proof.
  unfold contiguous. intros H Hi.
  rewrite length_app, length_map, Nat.add_1_r.
  eapply perm_trans; [|apply shifted_zrange, Hi].
  apply Permutation_app_tail, Permutation_map, H.
Qed.

Lemma positions_of_app (novel_id : Z) (rows : list Chapter.t) (c : Chapter.t) :
  positions_of novel_id (rows ++ [c])
  = positions_of novel_id rows
    ++ (if Chapter.novel_id c =? novel_id then [Chapter.position c] else []).
Proof.
  unfold positions_of, chapters_of. rewrite filter_app, map_app. simpl.
  destruct (Chapter.novel_id c =? novel_id); reflexivity.
Qed.

Lemma positions_of_shift_direct (novel_id insert_pos : Z)
    (rows : list Chapter.t) :
  positions_of novel_id (shift_direct novel_id insert_pos rows)
  = map (shifted insert_pos) (positions_of novel_id rows).
Proof.
  unfold positions_of, shift_direct.
  rewrite chapters_of_map.
  2:{ intros c. destruct (_ && _); reflexivity. }
  rewrite !map_map. apply map_ext_in. intros c Hc.
  apply chapters_of_In in Hc. destruct Hc as [_ Hn].
  rewrite Hn, Z.eqb_refl. simpl. unfold shifted.
  destruct (insert_pos <=? Chapter.position c); reflexivity.
Qed.

Lemma positions_of_shift_direct_other (novel_id other insert_pos : Z)
    (rows : list Chapter.t) :
  other <> novel_id ->
  positions_of other (shift_direct novel_id insert_pos rows)
  = positions_of other rows.
Proof.
  intros Hne. unfold positions_of, shift_direct.
  rewrite chapters_of_map.
  2:{ intros c. destruct (_ && _); reflexivity. }
  rewrite map_map. apply map_ext_in. intros c Hc.
  apply chapters_of_In in Hc. destruct Hc as [_ Hn].
  replace (Chapter.novel_id c =? novel_id) with false; [reflexivity|].
  symmetry. apply Z.eqb_neq. congruence.
Qed.

Lemma compute_insert_pos_bounds (float : string -> option spec_float)
    (chapter_data : ChapterData.t) (existing_chapters : list Chapter.t) :
  0 <= compute_insert_pos float chapter_data existing_chapters
    <= Z.of_nat (List.length existing_chapters).
Proof.
  unfold compute_insert_pos.
  destruct (extract_episode_id_from_url _) as [k|].
  - destruct (first_index_where_correct (precedes_by_episode_id k)
                existing_chapters) as [i [E [Hle _]]].
    rewrite E. lia.
  - destruct (first_index_where_correct
                (precedes_by_chapter_number float
                   (parse_chapter_number float
                      (ChapterData.chapter_number chapter_data)))
                existing_chapters) as [i [E [Hle _]]].
    rewrite E. lia.
Qed.

Lemma order_by_position_length (l : list Chapter.t) :
  List.length (order_by_position l) = List.length l.
Proof. apply stable_sort_length. Qed.

(** What the shift does to the rows of a novel whose positions are dense:
    it is the direct shift at an index between 0 and the chapter count. *)
Lemma placement_dense (float : string -> option spec_float) (novel_id : Z)
    (chapter_data : ChapterData.t) (rows : list Chapter.t) :
  NoDup (map Chapter.id rows) ->
  contiguous (positions_of novel_id rows) ->
  (forall position,
      ChapterData.position chapter_data = Some position ->
      position = Z.of_nat (List.length (chapters_of novel_id rows))) ->
  let placed := placement float novel_id chapter_data rows in
  0 <= fst placed <= Z.of_nat (List.length (chapters_of novel_id rows))
  /\ snd placed = shift_direct novel_id (fst placed) rows.
Proof.
  intros Hk Hd Hpos.
  assert (Hsame : shift_direct novel_id
                    (Z.of_nat (List.length (chapters_of novel_id rows))) rows
                  = rows).
  { unfold shift_direct. rewrite <- (map_id rows) at 2.
    apply map_ext_in. intros c Hc.
    destruct (Chapter.novel_id c =? novel_id) eqn:N; [|reflexivity].
    apply Z.eqb_eq in N. simpl.
    assert (Hin : In (Chapter.position c) (positions_of novel_id rows)).
    { unfold positions_of. apply in_map. apply chapters_of_In. tauto. }
    apply (contiguous_bounds _ _ Hd) in Hin.
    unfold positions_of in Hin. rewrite length_map in Hin.
    destruct (_ <=? Chapter.position c) eqn:L; [|reflexivity].
    apply Z.leb_le in L. lia. }
  unfold placement.
  destruct (ChapterData.position chapter_data) as [p|] eqn:Hp.
  - rewrite (Hpos p eq_refl). simpl. split; [lia | now rewrite Hsame].
  - pose proof (compute_insert_pos_bounds float chapter_data
                  (order_by_position (chapters_of novel_id rows))) as Hb.
    rewrite order_by_position_length in *.
    destruct (_ <? _) eqn:L; simpl.
    + split; [exact Hb|].
      assert (Hnonneg : Forall (fun c => 0 <= Chapter.position c)
                               (chapters_of novel_id rows)).
      { apply Forall_forall. intros c Hc.
        assert (Hin : In (Chapter.position c) (positions_of novel_id rows))
          by (unfold positions_of; now apply in_map).
        apply (contiguous_bounds _ _ Hd) in Hin. lia. }
      apply two_pass_is_shift_direct;
        first [exact Hk | exact Hnonneg | lia | apply contiguous_NoDup, Hd].
    + apply Z.ltb_ge in L. split; [exact Hb|].
      replace (compute_insert_pos float chapter_data
                 (order_by_position (chapters_of novel_id rows)))
        with (Z.of_nat (List.length (chapters_of novel_id rows))) by lia.
      now rewrite Hsame.
Qed.

Lemma NoDup_snoc {A : Type} (l : list A) (x : A) :
  NoDup l -> ~ In x l -> NoDup (l ++ [x]).
Proof.
  intros Hl Hx. eapply Permutation_NoDup.
  - apply Permutation_cons_append.
  - now constructor.
Qed.

Lemma shift_direct_keys (novel_id insert_pos : Z) (rows : list Chapter.t) :
  map Chapter.id (shift_direct novel_id insert_pos rows) = map Chapter.id rows.
Proof.
  unfold shift_direct. rewrite map_map. apply map_ext.
  intros c. destruct (_ && _); reflexivity.
Qed.

Lemma shift_direct_source_urls (novel_id insert_pos : Z)
    (rows : list Chapter.t) :
  map Chapter.source_url
      (chapters_of novel_id (shift_direct novel_id insert_pos rows))
  = map Chapter.source_url (chapters_of novel_id rows).
Proof.
  unfold shift_direct. rewrite chapters_of_map.
  2:{ intros c. destruct (_ && _); reflexivity. }
  rewrite map_map. apply map_ext.
  intros c. destruct (_ && _); reflexivity.
Qed.

(** The database that an insertion into a novel with dense positions
    leaves. *)
Lemma inserted_dense (float : string -> option spec_float)
    (chapter_data : ChapterData.t) (d : Database) (novel : Novel.t) :
  primary_keys_ok d ->
  contiguous (positions_of (Novel.id novel) (chapters d)) ->
  (forall position,
      ChapterData.position chapter_data = Some position ->
      position
      = Z.of_nat (List.length (chapters_of (Novel.id novel) (chapters d)))) ->
  let placed := placement float (Novel.id novel) chapter_data (chapters d) in
  let d' :=
    mkDatabase (novels d)
               (snd placed ++ [new_chapter_row novel chapter_data (fst placed)
                                               (next_chapter_id d)])
               (next_chapter_id d + 1) in
  novels d' = novels d
  /\ primary_keys_ok d'
  /\ contiguous (positions_of (Novel.id novel) (chapters d'))
  /\ (forall other,
         other <> Novel.id novel ->
         positions_of other (chapters d') = positions_of other (chapters d))
  /\ map Chapter.source_url (chapters_of (Novel.id novel) (chapters d'))
     = map Chapter.source_url (chapters_of (Novel.id novel) (chapters d))
       ++ [ChapterData.source_url chapter_data].
Proof.
  intros [Hk Hb] Hd Hpos placed d'. subst d' placed.
  destruct (placement_dense float (Novel.id novel) chapter_data (chapters d)
              Hk Hd Hpos) as [Hi Hs].
  set (i := fst (placement float (Novel.id novel) chapter_data (chapters d)))
    in *.
  rewrite Hs. cbn [snd novels chapters].
  split; [reflexivity|]. split; [|split; [|split]].
  - unfold primary_keys_ok. cbn [chapters next_chapter_id].
    rewrite map_app, shift_direct_keys. cbn [map new_chapter_row Chapter.id].
    split.
    + apply NoDup_snoc; [exact Hk|].
      intros Hin. rewrite Forall_forall in Hb. specialize (Hb _ Hin). lia.
    + apply Forall_app. split.
      * eapply Forall_impl; [|exact Hb]. intros k Hlt. simpl in Hlt. lia.
      * constructor; [lia | constructor].
  - rewrite positions_of_app, positions_of_shift_direct.
    cbn [new_chapter_row Chapter.novel_id Chapter.position].
    rewrite Z.eqb_refl.
    apply contiguous_insert; [exact Hd|].
    unfold positions_of. rewrite length_map. exact Hi.
  - intros other Hne.
    rewrite positions_of_app, positions_of_shift_direct_other by exact Hne.
    cbn [new_chapter_row Chapter.novel_id].
    replace (Novel.id novel =? other) with false; [apply app_nil_r|].
    symmetry. apply Z.eqb_neq. congruence.
  - unfold chapters_of at 1. rewrite filter_app. cbn [filter].
    cbn [new_chapter_row Chapter.novel_id]. rewrite Z.eqb_refl.
    rewrite map_app. cbn [map Chapter.source_url].
    f_equal. apply shift_direct_source_urls.
Qed.

(** One insertion into a novel whose positions are dense. *)
Lemma add_chapter_atomic_insert_dense (float : string -> option spec_float)
    (user_id novel_slug : string) (chapter_data : ChapterData.t)
    (d d' : Database) (novel : Novel.t) (r : AddResult) :
  primary_keys_ok d ->
  contiguous (positions_of (Novel.id novel) (chapters d)) ->
  find_novel user_id novel_slug d = Some novel ->
  duplicate_of (Novel.id novel) chapter_data (chapters d) = None ->
  (forall position,
      ChapterData.position chapter_data = Some position ->
      position
      = Z.of_nat (List.length (chapters_of (Novel.id novel) (chapters d)))) ->
  add_chapter_atomic float user_id novel_slug chapter_data d = (Return r, d') ->
  novels d' = novels d
  /\ primary_keys_ok d'
  /\ contiguous (positions_of (Novel.id novel) (chapters d'))
  /\ (forall other,
         other <> Novel.id novel ->
         positions_of other (chapters d') = positions_of other (chapters d))
  /\ map Chapter.source_url (chapters_of (Novel.id novel) (chapters d'))
     = map Chapter.source_url (chapters_of (Novel.id novel) (chapters d))
       ++ [ChapterData.source_url chapter_data].
Proof.
  intros Hk Hd Hn Hdup Hpos Ha.
  destruct (add_chapter_atomic_returned float user_id novel_slug chapter_data
              d novel r d' Hn Hdup Ha) as [_ [_ E]].
  rewrite E.
  exact (inserted_dense float chapter_data d novel Hk Hd Hpos).
Qed.

(** A call leaves the rows as they were, or it has found the novel and no
    duplicate and has returned. *)
Lemma add_chapter_atomic_unchanged_or_inserted
    (float : string -> option spec_float) (user_id novel_slug : string)
    (chapter_data : ChapterData.t) (d : Database) :
  rolled_back d
    (snd (add_chapter_atomic float user_id novel_slug chapter_data d))
  \/ exists novel,
       find_novel user_id novel_slug d = Some novel
       /\ duplicate_of (Novel.id novel) chapter_data (chapters d) = None
       /\ insert_accepted float novel chapter_data d = true
       /\ let placed :=
            placement float (Novel.id novel) chapter_data (chapters d) in
          add_chapter_atomic float user_id novel_slug chapter_data d
          = (Return (mkAddResult true "Chapter imported successfully" false
                                 (Novel.slug novel) (fst placed)
                                 (next_chapter_id d)),
             mkDatabase (novels d)
                        (snd placed
                         ++ [new_chapter_row novel chapter_data (fst placed)
                                             (next_chapter_id d)])
                        (next_chapter_id d + 1)).
Proof.
  assert (Hsame : rolled_back d d) by (unfold rolled_back; repeat split; lia).
  destruct (find_novel user_id novel_slug d) as [novel|] eqn:Hn.
  - destruct (duplicate_of (Novel.id novel) chapter_data (chapters d))
      as [ch|] eqn:Hd.
    + left. now rewrite (add_chapter_atomic_duplicate float user_id novel_slug
                           chapter_data d novel ch Hn Hd).
    + destruct (add_chapter_atomic_outcome float user_id novel_slug
                  chapter_data d novel Hn Hd)
        as [[Hacc H]|[_ [e [d' [H [_ Hr]]]]]].
      * right. exists novel. split; [reflexivity|].
        split; [exact Hd|]. split; [exact Hacc | exact H].
      * left. rewrite H. exact Hr.
  - left. now rewrite (add_chapter_atomic_not_found float user_id novel_slug
                         chapter_data d Hn).
Qed.

Lemma rolled_back_keeps_dense (d d' : Database) :
  rolled_back d d' -> primary_keys_ok d -> dense d ->
  primary_keys_ok d' /\ dense d'.
Proof.
  intros [_ [Hc Hnext]] [Hk Hb] Hd. split.
  - unfold primary_keys_ok. rewrite Hc. split; [exact Hk|].
    eapply Forall_impl; [|exact Hb]. intros k Hlt. simpl in Hlt. lia.
  - intros nid. rewrite Hc. apply Hd.
Qed.

Lemma insert_keeps_dense (float : string -> option spec_float)
    (user_id novel_slug : string) (chapter_data : ChapterData.t)
    (d : Database) :
  primary_keys_ok d -> dense d ->
  position_allowed (Insert user_id novel_slug chapter_data) d ->
  let d' := snd (add_chapter_atomic float user_id novel_slug chapter_data d) in
  primary_keys_ok d' /\ dense d'.
Proof.
  intros Hk Hd Hp d'.
  destruct (add_chapter_atomic_unchanged_or_inserted float user_id novel_slug
              chapter_data d) as [E|[novel [Hn [Hdup [_ Ha]]]]].
  - now apply (rolled_back_keeps_dense d).
  - cbv zeta in Ha.
    assert (Ha' : add_chapter_atomic float user_id novel_slug chapter_data d
                  = (fst (add_chapter_atomic float user_id novel_slug
                            chapter_data d), d'))
      by (subst d'; now destruct (add_chapter_atomic _ _ _ _ _)).
    rewrite Ha in Ha' at 2. cbn [fst] in Ha'.
    destruct (add_chapter_atomic_insert_dense float user_id novel_slug
                chapter_data d d' novel _ Hk (Hd _) Hn Hdup
                (fun p E => Hp p novel E Hn Hdup) Ha')
      as [_ [Hk' [Hc [Ho _]]]].
    split; [exact Hk'|].
      intros nid. destruct (Z.eq_dec nid (Novel.id novel)) as [E|N].
      * subst nid. exact Hc.
      * rewrite (Ho nid N). apply Hd.
Qed.

Lemma Forall_filter_keys (keep : Chapter.t -> bool) (bound : Z)
    (rows : list Chapter.t) :
  Forall (fun k => k < bound) (map Chapter.id rows) ->
  Forall (fun k => k < bound) (map Chapter.id (filter keep rows)).
Proof.
  rewrite !Forall_forall. intros H k Hk.
  apply in_map_iff in Hk. destruct Hk as [c [E Hc]].
  apply filter_In in Hc. apply H. rewrite <- E. apply in_map. tauto.
Qed.

Lemma delete_keeps_dense (default_sort_order user_id novel_slug : string)
    (chapter_index : Z) (d : Database) :
  primary_keys_ok d -> dense d ->
  let d' := snd (delete_chapter default_sort_order user_id novel_slug
                   chapter_index d) in
  primary_keys_ok d' /\ dense d'.
Proof.
  intros [Hk Hb] Hd d'.
  destruct (delete_chapter default_sort_order user_id novel_slug
              chapter_index d) as [o d1] eqn:Hdel.
  subst d'. cbn [snd].
  apply delete_chapter_cases in Hdel.
  destruct Hdel
    as [[E _]|[novel [chapter [deleted [Hn [Hi [Hf [[_ [_ E]]|[_ [_ Ed']]]]]]]]]].
  1,2: subst d1; split; [split|]; assumption.
  cbv zeta in Hi.
  destruct (displayed_chapter_is_deleted _ _ _ _ _ _ Hk Hi Hf) as [Hin _].
  apply order_by_position_In, chapters_of_In in Hin.
  destruct Hin as [Hrow Hnovel].
  subst d1. split.
  - unfold primary_keys_ok. cbn [chapters with_chapters next_chapter_id].
    rewrite (rows_after_delete_keys _ _ _ Hk). unfold without.
    split; [now apply filter_keys_distinct | now apply Forall_filter_keys].
  - intros nid. cbn [chapters with_chapters].
    destruct (Z.eq_dec nid (Novel.id novel)) as [E|N].
    + subst nid. unfold contiguous, positions_of.
      pose proof (chapters_after_delete_perm (Novel.id novel) deleted
                    (chapters d) Hk) as Hp.
      rewrite length_map, (Permutation_length Hp), renumbered_length.
      eapply perm_trans; [apply Permutation_map, Hp|].
      pose proof (renumbered_positions 0
                    (order_by_position
                       (chapters_of (Novel.id novel)
                                    (without deleted (chapters d))))) as H.
      change (Z.of_nat 0) with 0 in H. rewrite H. apply Permutation_refl.
    + unfold positions_of.
      rewrite (chapters_after_delete_other _ _ _ Hk nid N).
      rewrite (without_other_novel (Novel.id novel) nid deleted (chapters d)
                 Hnovel N Hk Hrow).
      apply Hd.
Qed.

Lemma run_operation_keeps_dense (float : string -> option spec_float)
    (op : operation) (d : Database) :
  primary_keys_ok d -> dense d -> position_allowed op d ->
  primary_keys_ok (run_operation float d op)
  /\ dense (run_operation float d op).
Proof.
  intros Hk Hd Hp. destruct op; simpl.
  - now apply insert_keeps_dense.
  - now apply delete_keeps_dense.
Qed.

(** ** When the database accepts an insertion *)







(** ** Concurrent calls *)















Lemma keeps_locks_bind {A B : Type} (m : Tx A) (k : A -> Tx B) :
  keeps_locks m -> (forall a, keeps_locks (k a)) -> keeps_locks (bind m k).
Proof.
  intros Hm Hk s. unfold bind. specialize (Hm s).
  destruct (m s) as [[a|e] s']; cbn [snd] in *.
  - now rewrite Hk.
  - exact Hm.
Qed.

Lemma keeps_locks_ret {A : Type} (a : A) : keeps_locks (ret a).
Proof. intros s. reflexivity. Qed.

Lemma keeps_locks_query {A : Type} (q : list Chapter.t -> A) :
  keeps_locks (query q).
Proof. intros s. reflexivity. Qed.

Lemma keeps_locks_write_rows (f : list Chapter.t -> list Chapter.t) :
  keeps_locks (write_rows f).
Proof. intros s. reflexivity. Qed.

Lemma keeps_locks_flush_positions (written : list Chapter.t) :
  keeps_locks (flush_positions written).
Proof.
  intros s. unfold flush_positions. destruct (positions_fit _ _); reflexivity.
Qed.

Lemma keeps_locks_session_add (new_row : Z -> Chapter.t) :
  keeps_locks (session_add new_row).
Proof.
  intros s. unfold session_add.
  destruct (negb _); [reflexivity|]. destruct (slug_taken _ _); reflexivity.
Qed.

Ltac keeps_locks :=
  repeat first
    [ apply keeps_locks_ret
    | apply keeps_locks_query
    | apply keeps_locks_write_rows
    | apply keeps_locks_flush_positions
    | apply keeps_locks_session_add
    | apply keeps_locks_bind; [|intros ?]
    | match goal with
      | |- keeps_locks (match ?x with _ => _ end) => destruct x
      end ].







Section Serialization.
Variable float : string -> option spec_float.
Variable user_id novel_slug : string.
Variable calls : list ChapterData.t.
Variable novel : Novel.t.
Variable start : Database.

Hypothesis no_explicit_position :
  Forall (fun cd => ChapterData.position cd = None) calls.
Hypothesis urls_distinct : NoDup (map ChapterData.source_url calls).

Let select_novel := query_novel_for_update user_id novel_slug.







(** *** Calls with distinct slugs all return *)

Hypothesis slugs_distinct : NoDup (map ChapterData.slug calls).
Hypothesis calls_fit : Z.of_nat (List.length calls) <= 2147482647.







End Serialization.


(** * The claims *)

(** ** Insertion *)

(** C2.  With no explicit position and a source URL holding a
    [/viewer/<digits>] segment, the insertion index computed by
    [add_chapter_atomic] is the index, in position order, of the first
    existing chapter whose episode id is defined and strictly greater than
    the new one; chapters without an episode id are passed over; when there
    is none the index is the number of chapters, and 0 for an empty novel.
    A call that returns has either found the URL stored and changed nothing,
    or it returns this index and has stored the chapter under it; a call
    that the database refuses raises and leaves the rows as they were.  For
    episode ids 100, 300, 500 at positions 0, 1, 2 a chapter with id 400
    gets index 2 and the order becomes 100, 300, 400, 500. *)
Theorem add_chapter_atomic_orders_by_episode_id :
  forall (float : string -> option spec_float) (user_id novel_slug : string)
         (chapter_data : ChapterData.t) (d : Database) (novel : Novel.t)
         (new_episode_id : Z),
    find_novel user_id novel_slug d = Some novel ->
    ChapterData.position chapter_data = None ->
    extract_episode_id_from_url (ChapterData.source_url chapter_data)
    = Some new_episode_id ->
    let existing_chapters :=
      order_by_position (chapters_of (Novel.id novel) (chapters d)) in
    (exists i : nat,
        compute_insert_pos float chapter_data existing_chapters = Z.of_nat i
        /\ (i <= List.length existing_chapters)%nat
        /\ (forall j ch e,
               (j < i)%nat -> nth_error existing_chapters j = Some ch ->
               extract_episode_id_from_url (Chapter.source_url ch) = Some e ->
               e <= new_episode_id)
        /\ (forall ch,
               nth_error existing_chapters i = Some ch ->
               exists e,
                 extract_episode_id_from_url (Chapter.source_url ch) = Some e
                 /\ new_episode_id < e)
        /\ (Forall (fun ch =>
                       forall e,
                         extract_episode_id_from_url (Chapter.source_url ch)
                         = Some e ->
                         e <= new_episode_id)
                    existing_chapters ->
            i = List.length existing_chapters)
        /\ (existing_chapters = [] -> i = 0%nat)
        /\ (forall r d',
               add_chapter_atomic float user_id novel_slug chapter_data d
               = (Return r, d') ->
               (exists ch,
                   duplicate_of (Novel.id novel) chapter_data (chapters d)
                   = Some ch
                   /\ r = mkAddResult true "Chapter already exists - skipped"
                                      true (Novel.slug novel)
                                      (Chapter.position ch) (Chapter.id ch)
                   /\ d' = d)
               \/ (duplicate_of (Novel.id novel) chapter_data (chapters d)
                   = None
                   /\ already_exists r = false
                   /\ chapter_index r = Z.of_nat i
                   /\ In (new_chapter_row novel chapter_data (Z.of_nat i)
                                          (chapter_id r))
                         (chapters d')))
        /\ (forall e d',
               add_chapter_atomic float user_id novel_slug chapter_data d
               = (Raise e, d') ->
               rolled_back d d'))
    /\ (let d' :=
          snd (add_chapter_atomic float "reader" "frost-saga"
                 (example_data (Some "4") (viewer_url "400") None)
                 library_100_300_500) in
        episode_ids_in_order 1 library_100_300_500
        = [Some 100; Some 300; Some 500]
        /\ positions_of 1 (chapters library_100_300_500) = [0; 1; 2]
        /\ compute_insert_pos float
             (example_data (Some "4") (viewer_url "400") None)
             (order_by_position (chapters_of 1 (chapters library_100_300_500)))
           = 2
        /\ episode_ids_in_order 1 d'
           = [Some 100; Some 300; Some 400; Some 500]).
Proof.
  intros float user_id novel_slug chapter_data d novel k Hn Hp Hk existing.
  split; [|repeat split; reflexivity].
  destruct (first_index_where_correct (precedes_by_episode_id k) existing)
    as [i [Ei Hspec]].
  pose proof Hspec as [Hle [Hbefore Hat]].
  assert (Hc : compute_insert_pos float chapter_data existing = Z.of_nat i).
  { unfold compute_insert_pos. rewrite Hk. exact Ei. }
  assert (Hi : fst (placement float (Novel.id novel) chapter_data (chapters d))
               = Z.of_nat i).
  { rewrite (placement_computed float chapter_data d (Novel.id novel) Hp).
    exact Hc. }
  exists i. split; [exact Hc|]. split; [exact Hle|].
  split; [|split; [|split; [|split; [|split]]]].
  - intros j ch e Hj Hnth He.
    apply (proj1 (precedes_by_episode_id_false k ch) (Hbefore j ch Hj Hnth)).
    exact He.
  - intros ch Hnth. apply precedes_by_episode_id_true. now apply Hat.
  - intros Hnone. apply (first_index_spec_none _ _ _ Hspec).
    eapply Forall_impl; [|exact Hnone].
    intros ch. apply precedes_by_episode_id_false.
  - intros E. rewrite E in Hle. simpl in Hle. lia.
  - intros r d' Ha.
    destruct (add_chapter_atomic_found float user_id novel_slug chapter_data d
                novel (Return r) d' Hn Ha)
      as [[ch [Hd [Er Ed]]]|[[Hd [_ [Er Ed]]]|[_ [_ [[Er|Er] _]]]]];
      try discriminate Er.
    + left. exists ch. inversion Er. repeat split; assumption.
    + right. inversion Er. subst d'. rewrite Hi.
      cbn [already_exists chapter_index chapter_id chapters].
      repeat split; [exact Hd|]. apply in_or_app. right. left. reflexivity.
  - intros e d' Ha.
    destruct (add_chapter_atomic_found float user_id novel_slug chapter_data d
                novel (Raise e) d' Hn Ha)
      as [[ch [_ [Er _]]]|[[_ [_ [Er _]]]|[_ [_ [_ Hr]]]]];
      try discriminate Er.
    exact Hr.
Qed.

(** An instance of the theorem above on the novel with episode ids 100, 300, 500 and a new chapter with id 400. *)
Lemma add_chapter_atomic_orders_by_episode_id_witness :
  find_novel "reader" "frost-saga" library_100_300_500 = Some example_novel
  /\ ChapterData.position (example_data (Some "4") (viewer_url "400") None)
     = None
  /\ extract_episode_id_from_url
       (ChapterData.source_url
          (example_data (Some "4") (viewer_url "400") None))
     = Some 400
  /\ exists i : nat,
       compute_insert_pos float_of_digits
         (example_data (Some "4") (viewer_url "400") None)
         (order_by_position
            (chapters_of (Novel.id example_novel)
                         (chapters library_100_300_500)))
       = Z.of_nat i.
Proof.
  split; [reflexivity|]. split; [reflexivity|]. split; [reflexivity|].
  destruct (add_chapter_atomic_orders_by_episode_id float_of_digits
              "reader" "frost-saga"
              (example_data (Some "4") (viewer_url "400") None)
              library_100_300_500 example_novel 400
              eq_refl eq_refl eq_refl) as [[i [Hi _]] _].
  exists i. exact Hi.
Defined.

(** C9.  When no novel has the given owner and slug, [add_chapter_atomic]
    raises its not-found error; inside the transaction no row lock was taken
    and no row was written, and the database is the one before the call. *)
Theorem add_chapter_atomic_novel_not_found :
  forall (float : string -> option spec_float) (user_id novel_slug : string)
         (chapter_data : ChapterData.t) (d : Database),
    find_novel user_id novel_slug d = None ->
    let raised :=
      Raise (ValueError (String.append "Novel not found: " novel_slug)) in
    add_chapter_tx float user_id novel_slug chapter_data (open_session d)
    = (raised, mkSession d [])
    /\ add_chapter_atomic float user_id novel_slug chapter_data d
       = (raised, d).
Proof.
  intros float user_id novel_slug chapter_data d H raised. split.
  - apply add_chapter_tx_not_found, H.
  - apply add_chapter_atomic_not_found, H.
Qed.

(** An instance of the theorem above on a slug that no novel has. *)
Lemma add_chapter_atomic_novel_not_found_witness :
  find_novel "reader" "no-such-novel" library_1_2 = None
  /\ add_chapter_atomic float_of_digits "reader" "no-such-novel"
       (example_data (Some "3") (viewer_url "700") None) library_1_2
     = (Raise (ValueError "Novel not found: no-such-novel"), library_1_2).
Proof.
  split; [reflexivity|].
  apply (add_chapter_atomic_novel_not_found float_of_digits
           "reader" "no-such-novel"
           (example_data (Some "3") (viewer_url "700") None) library_1_2).
  reflexivity.
Defined.




(** C4.  After a call that returned for chapter data with a non-empty
    [source_url], a second call for the same novel with the same
    [source_url] returns success with [already_exists = true] and the
    position and key of the stored chapter, and leaves the database as it
    was: the same rows with the same positions. *)
Theorem add_chapter_atomic_idempotent :
  forall (float : string -> option spec_float) (user_id novel_slug : string)
         (first second : ChapterData.t) (d d1 : Database) (r1 : AddResult),
    truthy (ChapterData.source_url first) = true ->
    ChapterData.source_url second = ChapterData.source_url first ->
    add_chapter_atomic float user_id novel_slug first d = (Return r1, d1) ->
    exists stored r2,
      add_chapter_atomic float user_id novel_slug second d1 = (Return r2, d1)
      /\ success r2 = true
      /\ already_exists r2 = true
      /\ In stored (chapters d1)
      /\ Chapter.source_url stored = ChapterData.source_url first
      /\ chapter_index r2 = Chapter.position stored
      /\ chapter_id r2 = Chapter.id stored.
Proof.
  intros float user_id novel_slug first second d d1 r1 Ht Hu Ha.
  destruct (find_novel user_id novel_slug d) as [novel|] eqn:Hn.
  2:{ rewrite (add_chapter_atomic_not_found float user_id novel_slug
                 first d Hn) in Ha.
      discriminate. }
  assert (Hdup : exists stored,
             find_novel user_id novel_slug d1 = Some novel
             /\ duplicate_of (Novel.id novel) second (chapters d1)
                = Some stored).
  { unfold duplicate_of. rewrite Hu, Ht.
    destruct (duplicate_of (Novel.id novel) first (chapters d)) as [ch|]
      eqn:Hd.
    - rewrite (add_chapter_atomic_duplicate float user_id novel_slug first d
                 novel ch Hn Hd) in Ha.
      inversion Ha; subst. exists ch. split; [exact Hn|].
      unfold duplicate_of in Hd. now rewrite Ht in Hd.
    - destruct (add_chapter_atomic_returned float user_id novel_slug first d
                  novel r1 d1 Hn Hd Ha) as [_ [_ Ed]].
      subst d1. simpl.
      destruct (find_chapter_by_source_url_last (Novel.id novel)
                  (ChapterData.source_url first)
                  (snd (placement float (Novel.id novel) first (chapters d)))
                  (new_chapter_row novel first
                     (fst (placement float (Novel.id novel) first (chapters d)))
                     (next_chapter_id d)) eq_refl eq_refl) as [ch Hch].
      exists ch. split; [exact Hn | exact Hch]. }
  destruct Hdup as [stored [Hn1 Hd1]].
  exists stored. eexists. split.
  - apply (add_chapter_atomic_duplicate float user_id novel_slug second d1
             novel stored Hn1 Hd1).
  - simpl. unfold duplicate_of in Hd1. rewrite Hu, Ht in Hd1.
    apply find_chapter_by_source_url_found in Hd1.
    repeat split; tauto.
Qed.

(** An instance of the theorem above: the chapter with episode id 400 is added, then offered again with another number and an explicit position. *)
Lemma add_chapter_atomic_idempotent_witness :
  let first := example_data (Some "4") (viewer_url "400") None in
  let second := example_data (Some "44") (viewer_url "400") (Some 0) in
  let called := add_chapter_atomic float_of_digits "reader" "frost-saga"
                  first library_100_300_500 in
  truthy (ChapterData.source_url first) = true
  /\ ChapterData.source_url second = ChapterData.source_url first
  /\ exists stored r2,
       add_chapter_atomic float_of_digits "reader" "frost-saga" second
         (snd called)
       = (Return r2, snd called)
       /\ success r2 = true
       /\ already_exists r2 = true
       /\ In stored (chapters (snd called))
       /\ Chapter.source_url stored = ChapterData.source_url first
       /\ chapter_index r2 = Chapter.position stored
       /\ chapter_id r2 = Chapter.id stored.
Proof.
  intros first second called.
  split; [reflexivity|]. split; [reflexivity|].
  apply (add_chapter_atomic_idempotent float_of_digits "reader" "frost-saga"
           first second library_100_300_500 (snd called)
           (mkAddResult true "Chapter imported successfully" false
                        "frost-saga" 2 4)).
  - reflexivity.
  - reflexivity.
  - reflexivity.
Defined.






(** ** Deletion *)

(** C6.  A call of [delete_chapter] that returns [True], on rows with
    distinct primary keys, removes exactly one chapter of the novel, the one
    shown at the given index, and gives the remaining chapters the positions
    0, 1, ..., N-1 in the order they had by position before, leaving the
    chapters of other novels alone.  With chapters at positions 0, 1, 2, 3,
    deleting the one at position 1 leaves the other three, in their prior
    order, at positions 0, 1, 2. *)
Theorem delete_chapter_renormalizes :
  forall (default_sort_order user_id novel_slug : string) (chapter_index : Z)
         (d d' : Database),
    NoDup (map Chapter.id (chapters d)) ->
    delete_chapter default_sort_order user_id novel_slug chapter_index d
    = (Return true, d') ->
    (exists novel deleted,
        find_novel user_id novel_slug d = Some novel
        /\ let before :=
             order_by_position (chapters_of (Novel.id novel) (chapters d)) in
           let after :=
             order_by_position (chapters_of (Novel.id novel) (chapters d')) in
           In deleted before
           /\ py_index
                (sort_chapters_by_number (map Some (map to_dict before))
                   (display_order default_sort_order
                      (NovelDict.mk (Novel.sort_order_override novel)
                                    (map to_dict before))))
                chapter_index
              = Some (to_dict deleted)
           /\ after = renumbered 0 (without deleted before)
           /\ (List.length after + 1 = List.length before)%nat
           /\ map Chapter.position after = zrange (List.length after)
           /\ (forall other,
                  other <> Novel.id novel ->
                  chapters_of other (chapters d')
                  = chapters_of other (chapters d)))
    /\ (keys_and_positions 1 library_of_four
        = [(11, 0); (12, 1); (13, 2); (14, 3)]
        /\ fst (delete_chapter "asc" "reader" "frost-saga" 1 library_of_four)
           = Return true
        /\ keys_and_positions 1
             (snd (delete_chapter "asc" "reader" "frost-saga" 1
                     library_of_four))
           = [(11, 0); (13, 1); (14, 2)]).
Proof.
  intros dso user_id novel_slug chapter_index d d' Hnd Hdel.
  split; [|repeat split; reflexivity].
  apply delete_chapter_cases in Hdel.
  destruct Hdel
    as [[_ [E|E]]
       |[novel [chapter [deleted [Hn [Hi [Hf [[_ [E _]]|[_ [_ Ed']]]]]]]]]];
    try discriminate E.
  cbv zeta in Hi.
  destruct (displayed_chapter_is_deleted _ _ _ _ _ _ Hnd Hi Hf)
    as [Hin Hdict].
  pose proof Hin as Hrow. apply order_by_position_In, chapters_of_In in Hrow.
  destruct Hrow as [Hrow Hnovel].
  exists novel, deleted. split; [exact Hn|].
  intros before after.
  assert (Hafter : after = renumbered 0 (without deleted before)).
  { subst after before d'. cbn [chapters with_chapters].
    rewrite (chapters_after_delete_sorted _ _ _ Hnd).
    now rewrite (remaining_is_prior_order). }
  split; [exact Hin|]. split; [now rewrite Hdict|]. split; [exact Hafter|].
  split; [|split].
  - rewrite Hafter, renumbered_length.
    apply without_length; [|exact Hin].
    apply order_by_position_keys. unfold chapters_of.
    now apply filter_keys_distinct.
  - rewrite Hafter at 1.
    pose proof (renumbered_positions 0 (without deleted before)) as H.
    change (Z.of_nat 0) with 0 in H. rewrite H.
    rewrite Hafter, renumbered_length. reflexivity.
  - intros other Hne. subst d'. cbn [chapters with_chapters].
    rewrite (chapters_after_delete_other _ _ _ Hnd other Hne).
    now apply (without_other_novel (Novel.id novel)).
Qed.

(** An instance of the theorem above on four chapters and the display index 1. *)
Lemma delete_chapter_renormalizes_witness :
  let called := delete_chapter "asc" "reader" "frost-saga" 1 library_of_four in
  NoDup (map Chapter.id (chapters library_of_four))
  /\ called = (Return true, snd called)
  /\ exists novel deleted,
       find_novel "reader" "frost-saga" library_of_four = Some novel
       /\ In deleted
            (order_by_position
               (chapters_of (Novel.id novel) (chapters library_of_four)))
       /\ order_by_position
            (chapters_of (Novel.id novel) (chapters (snd called)))
          = renumbered 0
              (without deleted
                 (order_by_position
                    (chapters_of (Novel.id novel)
                                 (chapters library_of_four)))).
Proof.
  intros called.
  assert (Hnd : NoDup (map Chapter.id (chapters library_of_four)))
    by (repeat (constructor; [simpl; intuition discriminate|]); constructor).
  assert (Hc : called = (Return true, snd called)) by reflexivity.
  split; [exact Hnd|]. split; [exact Hc|].
  destruct (delete_chapter_renormalizes "asc" "reader" "frost-saga" 1
              library_of_four (snd called) Hnd Hc)
    as [[novel [deleted [Hn [Hin [_ [Hafter _]]]]]] _].
  exists novel, deleted. split; [exact Hn|]. split; [exact Hin | exact Hafter].
Defined.

(** ** The position invariant *)

(** C1, as stated, fails for an insert with an explicit position: a chapter
    added to a novel without chapters with the explicit position 5 is stored
    at position 5, and the positions of the novel are then [5], not [0]. *)
Lemma explicit_position_breaks_density :
  let chapter_data := example_data (Some "6") (viewer_url "600") (Some 5) in
  primary_keys_ok empty_library
  /\ dense empty_library
  /\ exists r d',
       add_chapter_atomic float_of_digits "reader" "frost-saga" chapter_data
         empty_library
       = (Return r, d')
       /\ already_exists r = false
       /\ positions_of 1 (chapters d') = [5]
       /\ ~ contiguous (positions_of 1 (chapters d')).
Proof.
  intros chapter_data.
  split; [split; constructor|]. split; [intros nid; constructor|].
  eexists. eexists. split; [reflexivity|].
  split; [reflexivity|]. split; [reflexivity|].
  intros H. apply Permutation_length_1 in H. discriminate H.
Qed.

(** C1, amended.  Start from a database with distinct primary keys in which
    the positions of every novel are [{0, ..., N-1}], and run any finite
    sequence of [add_chapter_atomic] and [delete_chapter] calls in which
    every insert that brings an explicit position and is not a duplicate
    asks for the novel's current chapter count.  Then after each call the
    positions of every novel are again exactly [{0, ..., N-1}]. *)
Theorem positions_stay_dense :
  forall (float : string -> option spec_float) (ops : list operation)
         (d : Database),
    primary_keys_ok d ->
    dense d ->
    positions_allowed float ops d ->
    Forall (fun d' =>
              forall novel_id,
                Permutation (positions_of novel_id (chapters d'))
                  (zrange (List.length (chapters_of novel_id (chapters d')))))
           (loop_states (run_operation float) ops d).
Proof.
  intros float ops. induction ops as [|op ops IH]; intros d Hk Hd Hp.
  - constructor; [|constructor].
    intros nid. specialize (Hd nid). unfold contiguous, positions_of in *.
    now rewrite length_map in Hd.
  - cbn [loop_states]. destruct Hp as [Hop Hrest].
    destruct (run_operation_keeps_dense float op d Hk Hd Hop) as [Hk' Hd'].
    constructor.
    + intros nid. specialize (Hd nid). unfold contiguous, positions_of in *.
      now rewrite length_map in Hd.
    + apply IH; assumption.
Qed.

(** An instance of the theorem above on an append, an insert in front, an insert with the explicit position 2 and a deletion. *)
Lemma positions_stay_dense_witness :
  let ops :=
    [Insert "reader" "frost-saga"
            (example_data (Some "1") (viewer_url "100") None);
     Insert "reader" "frost-saga"
            (example_data (Some "0") (viewer_url "50") None);
     Insert "reader" "frost-saga"
            (example_data (Some "2") (viewer_url "200") (Some 2));
     Delete "asc" "reader" "frost-saga" 0] in
  primary_keys_ok empty_library
  /\ dense empty_library
  /\ positions_allowed float_of_digits ops empty_library
  /\ Forall (fun d' =>
               forall novel_id,
                 Permutation (positions_of novel_id (chapters d'))
                   (zrange
                      (List.length (chapters_of novel_id (chapters d')))))
            (loop_states (run_operation float_of_digits) ops empty_library).
Proof.
  intros ops.
  assert (Hk : primary_keys_ok empty_library) by (split; constructor).
  assert (Hd : dense empty_library) by (intros nid; constructor).
  assert (Hp : positions_allowed float_of_digits ops empty_library).
  { simpl. repeat split; intros position novel Hpos; try discriminate Hpos.
    intros Hn _. inversion Hpos; subst. inversion Hn; subst. reflexivity. }
  split; [exact Hk|]. split; [exact Hd|]. split; [exact Hp|].
  exact (positions_stay_dense float_of_digits ops empty_library Hk Hd Hp).
Defined.

(** ** Concurrent inserts *)

Ltac select_step t :=
  eapply (step_select _ _ _ t);
  [reflexivity | cbv; reflexivity | intros row Hrow Hheld; exact Hheld].
Ltac body_step t :=
  eapply (step_body _ _ _ t); [reflexivity | cbv; reflexivity].
Ltac commit_step t := eapply (step_commit _ _ _ t); reflexivity.


(** Calls that bring the same slug: of two calls with distinct source URLs
    and episode ids and no explicit position, the one that comes second is
    refused by the unique index on novel and slug; it raises IntegrityError
    and the novel has one chapter, not two. *)
Lemma concurrent_equal_slugs_store_one_chapter :
  let calls :=
    [example_data_with_slug "ch-new" (Some "1") (viewer_url "100") None;
     example_data_with_slug "ch-new" (Some "2") (viewer_url "200") None] in
  NoDup (map ChapterData.source_url calls)
  /\ Forall (fun cd => ChapterData.position cd = None) calls
  /\ exists sys r,
       steps float_of_digits "frost-saga"
             (query_novel_for_update "reader" "frost-saga")
             (initial empty_library calls) sys
       /\ map snd (workers sys)
          = [Finished (Return r); Finished (Raise IntegrityError)]
       /\ keys_and_positions 1 (committed sys) = [(1, 0)].
Proof.
  intros calls.
  split; [repeat (constructor; [simpl; intuition discriminate|]); constructor|].
  split; [repeat constructor|].
  eexists. eexists. split; [|split].
  - eapply steps_next; [eapply steps_next; [eapply steps_next;
      [eapply steps_next; [eapply steps_next; [eapply steps_next;
        [apply steps_done
        | select_step 0%nat]
        | body_step 0%nat]
        | commit_step 0%nat]
        | select_step 1%nat]
        | body_step 1%nat]
        | commit_step 1%nat].
  - reflexivity.
  - reflexivity.
Qed.

(** The lock is what keeps the calls apart: were the first statement the
    plain [query_novel], without [with_for_update], two calls could both
    run their bodies on the novel without chapters, and both would compute
    the position 0. *)
Lemma without_for_update_two_calls_compute_position_0 :
  let calls :=
    [example_data (Some "1") (viewer_url "100") None;
     example_data (Some "2") (viewer_url "200") None] in
  exists sys r0 r1 s0 s1,
    steps float_of_digits "frost-saga" (query_novel "reader" "frost-saga")
          (initial empty_library calls) sys
    /\ map snd (workers sys)
       = [Computed (Return r0) s0; Computed (Return r1) s1]
    /\ chapter_index r0 = 0
    /\ chapter_index r1 = 0.
Proof.
  intros calls.
  eexists. eexists. eexists. eexists. eexists. split; [|split; [|split]].
  - eapply steps_next; [eapply steps_next; [eapply steps_next;
      [eapply steps_next;
        [apply steps_done
        | select_step 0%nat]
        | select_step 1%nat]
        | body_step 0%nat]
        | body_step 1%nat].
  - reflexivity.
  - reflexivity.
  - reflexivity.
Qed.



(** * Further properties of the code *)

(** ** The episode id of a source URL *)

Lemma strip_prefix_Some (p s t : string) :
  strip_prefix p s = Some t -> s = (p ++ t)%string.
Proof.
  revert s. induction p as [|a p IH]; intros s H; simpl in *.
  - now inversion H.
  - destruct s as [|b s]; [discriminate|].
    destruct (Ascii.eqb a b) eqn:E; [|discriminate].
    apply Ascii.eqb_eq in E. subst b. f_equal. now apply IH.
Qed.

Lemma strip_prefix_append (p t : string) :
  strip_prefix p (p ++ t)%string = Some t.
Proof.
  induction p as [|a p IH]; simpl; [reflexivity|].
  now rewrite Ascii.eqb_refl.
Qed.

Lemma take_digits_split (s : string) :
  exists rest,
    s = (string_of_list_ascii (take_digits s) ++ rest)%string
    /\ Forall (fun c => is_digit c = true) (take_digits s)
    /\ no_leading_digit rest.
Proof.
  induction s as [|c s IH]; simpl.
  - exists EmptyString. repeat split. constructor.
  - destruct (is_digit c) eqn:E.
    + destruct IH as [rest [Es [Hd Hr]]]. exists rest. simpl.
      split; [now rewrite <- Es|]. split; [now constructor | exact Hr].
    + exists (String c s). simpl. repeat split; [constructor | exact E].
Qed.

Lemma digit_value_nonneg (c : ascii) : is_digit c = true -> 0 <= digit_value c <= 9.
Proof.
  unfold is_digit, digit_value. intros H.
  apply andb_true_iff in H. destruct H as [H1 H2].
  apply Nat.leb_le in H1, H2. lia.
Qed.

Lemma int_of_digits_nonneg (ds : list ascii) :
  Forall (fun c => is_digit c = true) ds -> 0 <= int_of_digits ds.
Proof.
  unfold int_of_digits.
  assert (H : forall acc, 0 <= acc ->
            Forall (fun c => is_digit c = true) ds ->
            0 <= fold_left (fun acc c => 10 * acc + digit_value c) ds acc).
  { induction ds as [|c ds IH]; intros acc Ha Hd; cbn [fold_left];
      [exact Ha|].
    inversion Hd as [|? ? Hc Hrest]; subst. apply IH; [|assumption].
    pose proof (digit_value_nonneg c Hc). lia. }
  apply H. lia.
Qed.

Lemma search_viewer_Some (s : string) (ds : list ascii) :
  search_viewer s = Some ds ->
  exists pre rest,
    s = (pre ++ "/viewer/" ++ string_of_list_ascii ds ++ rest)%string
    /\ ds <> []
    /\ Forall (fun c => is_digit c = true) ds
    /\ no_leading_digit rest.
Proof.
  induction s as [|c s IH]; intros H; [discriminate|].
  cbn [search_viewer] in H.
  assert (Hlater : search_viewer s = Some ds ->
            exists pre rest,
              String c s
              = (pre ++ "/viewer/" ++ string_of_list_ascii ds ++ rest)%string
              /\ ds <> []
              /\ Forall (fun c => is_digit c = true) ds
              /\ no_leading_digit rest).
  { intros Hs. destruct (IH Hs) as [pre [rest [E Hrest]]].
    exists (String c pre), rest.
    split; [rewrite E; reflexivity | exact Hrest]. }
  destruct (strip_prefix "/viewer/" (String c s)) as [tail|] eqn:Ep;
    [|now apply Hlater].
  destruct (take_digits tail) as [|d0 ds0] eqn:Et; [now apply Hlater|].
  inversion H; subst ds. clear H Hlater IH.
  apply strip_prefix_Some in Ep.
  destruct (take_digits_split tail) as [rest [Es [Hd Hr]]].
  rewrite Et in Es, Hd.
  exists EmptyString, rest. split; [|split; [discriminate | tauto]].
  rewrite Ep, Es. reflexivity.
Qed.

Lemma search_viewer_occurrence (pre rest : string) (d : ascii) :
  is_digit d = true ->
  search_viewer (pre ++ "/viewer/" ++ String d rest)%string <> None.
Proof.
  intros Hd. induction pre as [|c pre IH].
  - change (EmptyString ++ "/viewer/" ++ String d rest)%string
      with ("/viewer/" ++ String d rest)%string.
    cbn [search_viewer String.append].
    change (String "/" (String "v" (String "i" (String "e" (String "w"
              (String "e" (String "r" (String "/" (String d rest)))))))))
      with ("/viewer/" ++ String d rest)%string.
    rewrite strip_prefix_append. cbn [take_digits]. rewrite Hd. discriminate.
  - cbn [String.append search_viewer].
    destruct (strip_prefix "/viewer/" _) as [tail|]; [|exact IH].
    destruct (take_digits tail); [exact IH | discriminate].
Qed.

Lemma string_length_append (s1 s2 : string) :
  String.length (s1 ++ s2)%string
  = (String.length s1 + String.length s2)%nat.
Proof.
  induction s1 as [|c s1 IH]; [reflexivity|].
  cbn [String.append String.length]. now rewrite IH.
Qed.

Lemma string_of_list_ascii_length (ds : list ascii) :
  String.length (string_of_list_ascii ds) = List.length ds.
Proof.
  induction ds as [|c ds IH]; [reflexivity|].
  cbn [string_of_list_ascii String.length List.length]. now rewrite IH.
Qed.

(** X1.  For a source URL of at most 4300 characters, all of them below
    U+0100: when [extract_episode_id_from_url] returns an id, the URL holds
    [/viewer/] followed by a run of ASCII digits that ends the string or is
    followed by a character that is no digit, the id is the number these
    digits write, and it is not negative. *)
Theorem extract_episode_id_from_url_sound :
  forall (source_url : option string) (episode_id : Z),
    within_int_limit source_url ->
    extract_episode_id_from_url source_url = Some episode_id ->
    exists pre ds rest,
      source_url
      = Some (pre ++ "/viewer/" ++ string_of_list_ascii ds ++ rest)%string
      /\ ds <> []
      /\ (List.length ds <= 4300)%nat
      /\ Forall (fun c => is_digit c = true) ds
      /\ no_leading_digit rest
      /\ episode_id = int_of_digits ds
      /\ 0 <= episode_id.
Proof.
  intros source_url n Hlimit H. unfold extract_episode_id_from_url in H.
  destruct source_url as [s|]; [|discriminate].
  destruct s as [|c s]; [discriminate|].
  destruct (search_viewer (String c s)) as [ds|] eqn:Es; [|discriminate].
  inversion H; subst n.
  destruct (search_viewer_Some _ _ Es) as [pre [rest [E [Hne [Hd Hr]]]]].
  exists pre, ds, rest. rewrite E.
  split; [reflexivity|]. split; [exact Hne|]. split.
  { unfold within_int_limit in Hlimit. rewrite E in Hlimit.
    rewrite !string_length_append, string_of_list_ascii_length in Hlimit.
    lia. }
  repeat split; try assumption. now apply int_of_digits_nonneg.
Qed.

(** An instance of the theorem above on the URL of the docstring. *)
Lemma extract_episode_id_from_url_sound_witness :
  within_int_limit (Some "https://novelpia.com/viewer/4778400")
  /\ extract_episode_id_from_url (Some "https://novelpia.com/viewer/4778400")
     = Some 4778400
  /\ 0 <= 4778400.
Proof.
  assert (Hlimit : within_int_limit
                     (Some "https://novelpia.com/viewer/4778400"))
    by (unfold within_int_limit; simpl; lia).
  split; [exact Hlimit|]. split; [reflexivity|].
  destruct (extract_episode_id_from_url_sound
              (Some "https://novelpia.com/viewer/4778400") 4778400 Hlimit
              eq_refl)
    as [pre [ds [rest [_ [_ [_ [_ [_ [_ H]]]]]]]]].
  exact H.
Defined.

(** X2.  For a source URL of at most 4300 characters, all of them below
    U+0100: [extract_episode_id_from_url] returns an id exactly when
    [/viewer/] is somewhere followed by an ASCII digit; for [None], the
    empty string and every other such URL it returns [None]. *)
Theorem extract_episode_id_from_url_defined :
  forall source_url : option string,
    within_int_limit source_url ->
    (extract_episode_id_from_url source_url <> None <->
     exists pre d rest,
       is_digit d = true
       /\ source_url = Some (pre ++ "/viewer/" ++ String d rest)%string).
Proof.
  intros source_url _. split.
  - intros H. unfold extract_episode_id_from_url in H.
    destruct source_url as [s|]; [|contradiction].
    destruct s as [|c s]; [contradiction|].
    destruct (search_viewer (String c s)) as [ds|] eqn:Es; [|contradiction].
    destruct (search_viewer_Some _ _ Es) as [pre [rest [Eu [Hne [Hd _]]]]].
    destruct ds as [|d ds]; [contradiction|].
    inversion Hd as [|? ? Hdig Hrest].
    exists pre, d, (string_of_list_ascii ds ++ rest)%string.
    split; [exact Hdig | now rewrite Eu].
  - intros [pre [d [rest [Hd E]]]]. subst source_url.
    unfold extract_episode_id_from_url.
    pose proof (search_viewer_occurrence pre rest d Hd) as Hs.
    destruct (pre ++ "/viewer/" ++ String d rest)%string as [|c s] eqn:Ep.
    + destruct pre; discriminate Ep.
    + destruct (search_viewer (String c s)); [discriminate | contradiction].
Qed.

(** An instance of the theorem above: a URL with the segment, and a URL
    without a digit after it. *)
Lemma extract_episode_id_from_url_defined_witness :
  within_int_limit (Some "https://novelpia.com/viewer/7")
  /\ extract_episode_id_from_url (Some "https://novelpia.com/viewer/7")
     <> None
  /\ extract_episode_id_from_url (Some "https://novelpia.com/viewer/x")
     = None.
Proof.
  assert (Hlimit : within_int_limit (Some "https://novelpia.com/viewer/7"))
    by (unfold within_int_limit; simpl; lia).
  split; [exact Hlimit|]. split; [|reflexivity].
  apply (proj2 (extract_episode_id_from_url_defined
                  (Some "https://novelpia.com/viewer/7") Hlimit)).
  exists "https://novelpia.com", "7"%char, EmptyString.
  split; reflexivity.
Defined.

(** ** Facts about the example data *)

Lemma library_100_300_500_keys : primary_keys_ok library_100_300_500.
Proof.
  split.
  - repeat (constructor; [simpl; intuition discriminate|]); constructor.
  - repeat (constructor; [reflexivity|]); constructor.
Qed.

Lemma library_100_300_500_dense : dense library_100_300_500.
Proof.
  intros novel_id. unfold contiguous, positions_of, chapters_of.
  cbn [chapters library_100_300_500 filter example_chapter Chapter.novel_id].
  destruct (1 =? novel_id); apply Permutation_refl.
Qed.

Lemma library_100_300_500_chronological :
  forall novel_id, chronological novel_id library_100_300_500.
Proof.
  intros novel_id. unfold chronological, chapters_of.
  cbn [chapters library_100_300_500 filter example_chapter Chapter.novel_id].
  destruct (1 =? novel_id).
  - vm_compute. repeat (constructor; [repeat constructor; discriminate|]).
    constructor.
  - constructor.
Qed.

(** ** Lookups, updates and deletions by primary key *)

Lemma get_next_chapter_position_db_eq (novel_id : Z) (d : Database) :
  get_next_chapter_position_db novel_id d
  = (Return
       match hd_error (rev (order_by_position
                              (chapters_of novel_id (chapters d)))) with
       | Some row => Chapter.position row + 1
       | None => 0
       end,
     d).
Proof. reflexivity. Qed.

(** The head of a reversed sorted list carries the greatest key. *)
Lemma sorted_rev_head {A : Type} (key : A -> Z) (l : list A) (x : A) :
  StronglySorted (key_le key) l -> hd_error (rev l) = Some x ->
  In x l /\ Forall (fun y => key y <= key x) l.
Proof.
  induction 1 as [|a l Hs IH Ha]; intros Hx; [discriminate|].
  cbn [rev] in Hx. destruct (rev l) as [|b r] eqn:Er.
  - simpl in Hx. inversion Hx; subst x.
    assert (l = []) by (apply (f_equal (@rev A)) in Er;
                        now rewrite rev_involutive in Er).
    subst l. split; [now left | repeat constructor; lia].
  - simpl in Hx. inversion Hx; subst b.
    destruct (IH eq_refl) as [Hin Hall].
    split; [now right|]. constructor; [|exact Hall].
    rewrite Forall_forall in Ha. apply (Ha x Hin).
Qed.

Lemma hd_error_rev_nil {A : Type} (l : list A) :
  hd_error (rev l) = None -> l = [].
Proof.
  destruct l as [|a l]; [reflexivity|]. cbn [rev].
  destruct (rev l); discriminate.
Qed.

Lemma next_position_cases (novel_id : Z) (rows : list Chapter.t) :
  let L := chapters_of novel_id rows in
  (L = [] /\ hd_error (rev (order_by_position L)) = None)
  \/ exists row,
       hd_error (rev (order_by_position L)) = Some row
       /\ In row L
       /\ Forall (fun y => Chapter.position y <= Chapter.position row) L.
Proof.
  intros L.
  destruct (hd_error (rev (order_by_position L))) as [row|] eqn:E.
  - right. exists row. split; [reflexivity|].
    destruct (sorted_rev_head Chapter.position _ row
                (stable_sort_sorted _ Chapter.position L) E) as [Hin Hall].
    split; [now apply order_by_position_In|].
    eapply Permutation_Forall; [apply stable_sort_perm | exact Hall].
  - left. split; [|reflexivity].
    apply hd_error_rev_nil in E.
    apply (f_equal (@List.length Chapter.t)) in E.
    rewrite order_by_position_length in E.
    now destruct L.
Qed.

(** What the function returns, as a list property of the novel's positions. *)
Lemma next_position_spec (novel_id : Z) (d : Database) :
  exists p,
    get_next_chapter_position_db novel_id d = (Return p, d)
    /\ (chapters_of novel_id (chapters d) = [] -> p = 0)
    /\ Forall (fun q => q < p) (positions_of novel_id (chapters d))
    /\ (chapters_of novel_id (chapters d) <> [] ->
        In (p - 1) (positions_of novel_id (chapters d))).
Proof.
  rewrite get_next_chapter_position_db_eq.
  destruct (next_position_cases novel_id (chapters d))
    as [[Hnil E]|[row [E [Hin Hall]]]]; rewrite E.
  - exists 0. split; [reflexivity|]. unfold positions_of.
    rewrite Hnil. repeat split.
    + constructor.
    + intros H. now contradiction H.
  - exists (Chapter.position row + 1). split; [reflexivity|].
    split; [|split].
    + intros Hnil. rewrite Hnil in Hin. contradiction.
    + unfold positions_of. apply Forall_map.
      eapply Forall_impl; [|exact Hall]. intros y Hy. simpl in Hy. lia.
    + intros _. unfold positions_of.
      replace (Chapter.position row + 1 - 1) with (Chapter.position row)
        by lia.
      now apply in_map.
Qed.

Lemma positions_of_length (novel_id : Z) (rows : list Chapter.t) :
  List.length (positions_of novel_id rows)
  = List.length (chapters_of novel_id rows).
Proof. unfold positions_of. apply length_map. Qed.

Lemma next_position_of_dense (novel_id : Z) (d : Database) :
  contiguous (positions_of novel_id (chapters d)) ->
  get_next_chapter_position_db novel_id d
  = (Return (Z.of_nat (List.length (chapters_of novel_id (chapters d)))), d).
Proof.
  intros Hd.
  destruct (next_position_spec novel_id d) as [p [E [Hnil [Hlt Hmax]]]].
  rewrite E. do 2 f_equal.
  destruct (chapters_of novel_id (chapters d)) as [|c L] eqn:EL.
  - now apply Hnil.
  - assert (Hne : c :: L <> []) by discriminate.
    specialize (Hmax Hne).
    pose proof (contiguous_bounds _ _ Hd Hmax) as Hb.
    rewrite positions_of_length, EL in Hb.
    assert (Hlast : In (Z.of_nat (List.length (c :: L)) - 1)
                       (positions_of novel_id (chapters d))).
    { eapply Permutation_in; [apply Permutation_sym, Hd|].
      apply zrange_In. rewrite positions_of_length, EL.
      cbn [List.length]. lia. }
    rewrite Forall_forall in Hlt. specialize (Hlt _ Hlast). lia.
Qed.

(** X3.  [get_next_chapter_position_db] leaves the database as it is and
    returns 0 for a novel without chapters, and otherwise one more than the
    greatest position of the novel's chapters; when the positions are
    [{0, ..., N-1}] this is the chapter count N. *)
Theorem get_next_chapter_position_db_is_past_the_end :
  forall (novel_id : Z) (d : Database),
  exists p,
    get_next_chapter_position_db novel_id d = (Return p, d)
    /\ (chapters_of novel_id (chapters d) = [] -> p = 0)
    /\ Forall (fun q => q < p) (positions_of novel_id (chapters d))
    /\ (chapters_of novel_id (chapters d) <> [] ->
        In (p - 1) (positions_of novel_id (chapters d)))
    /\ (contiguous (positions_of novel_id (chapters d)) ->
        p = Z.of_nat (List.length (chapters_of novel_id (chapters d)))).
Proof.
  intros novel_id d.
  destruct (next_position_spec novel_id d) as [p [E [Hnil [Hlt Hmax]]]].
  exists p. repeat (split; [assumption|]).
  intros Hd. rewrite (next_position_of_dense novel_id d Hd) in E.
  congruence.
Qed.

(** An instance of the theorem above: the novel with three chapters. *)
Lemma get_next_chapter_position_db_is_past_the_end_witness :
  get_next_chapter_position_db 1 library_100_300_500
  = (Return 3, library_100_300_500).
Proof.
  destruct (get_next_chapter_position_db_is_past_the_end 1 library_100_300_500)
    as [p [E [_ [_ [_ Hd]]]]].
  rewrite E, (Hd (library_100_300_500_dense 1)). reflexivity.
Defined.

(** X4.  In a database with dense positions, a chapter that is added with
    the explicit position returned by [get_next_chapter_position_db] for its
    novel keeps the positions of every novel dense. *)
Theorem explicit_next_position_keeps_dense :
  forall (float : string -> option spec_float) (user_id novel_slug : string)
         (chapter_data : ChapterData.t) (d : Database) (novel : Novel.t)
         (p : Z),
    primary_keys_ok d ->
    dense d ->
    find_novel user_id novel_slug d = Some novel ->
    fst (get_next_chapter_position_db (Novel.id novel) d) = Return p ->
    ChapterData.position chapter_data = Some p ->
    let d' := snd (add_chapter_atomic float user_id novel_slug chapter_data d) in
    primary_keys_ok d' /\ dense d'.
Proof.
  intros float user_id novel_slug chapter_data d novel p Hk Hd Hn Hnext Hp d'.
  apply insert_keeps_dense; [exact Hk | exact Hd |].
  intros position novel' Hp' Hn' _.
  rewrite (next_position_of_dense (Novel.id novel) d (Hd _)) in Hnext.
  cbn [fst] in Hnext. congruence.
Qed.

(** An instance of the theorem above: a fourth chapter for the novel with
    three chapters, at the position asked from the database. *)
Lemma explicit_next_position_keeps_dense_witness :
  let chapter_data := example_data (Some "4") (viewer_url "700") (Some 3) in
  primary_keys_ok library_100_300_500
  /\ dense library_100_300_500
  /\ find_novel "reader" "frost-saga" library_100_300_500 = Some example_novel
  /\ fst (get_next_chapter_position_db (Novel.id example_novel)
            library_100_300_500) = Return 3
  /\ ChapterData.position chapter_data = Some 3
  /\ dense (snd (add_chapter_atomic float_of_digits "reader" "frost-saga"
                   chapter_data library_100_300_500)).
Proof.
  intros chapter_data.
  split; [exact library_100_300_500_keys|].
  split; [exact library_100_300_500_dense|].
  split; [reflexivity|]. split; [reflexivity|]. split; [reflexivity|].
  apply (explicit_next_position_keeps_dense float_of_digits "reader"
           "frost-saga" chapter_data library_100_300_500 example_novel 3
           library_100_300_500_keys library_100_300_500_dense
           eq_refl eq_refl eq_refl).
Defined.

(** ** What an insertion leaves alone *)


Lemma apply_on_keys_untouched (ids ids' : list Z) (f : Z -> Z)
    (l : list Chapter.t) :
  (forall c, In c l -> mem_id (Chapter.id c) ids' = false) ->
  forall c, In c (apply_on ids f l) -> mem_id (Chapter.id c) ids' = false.
Proof.
  intros H c Hc. unfold apply_on in Hc. apply in_map_iff in Hc.
  destruct Hc as [c0 [E Hc0]]. specialize (H c0 Hc0).
  destruct (mem_id (Chapter.id c0) ids); subst c; exact H.
Qed.







Lemma get_chapter_db_eq (chapter_id : Z) (d : Database) :
  get_chapter_db chapter_id d
  = (Return (option_map to_dict (find_chapter_by_id chapter_id (chapters d))),
     d).
Proof.
  unfold get_chapter_db, db_session_scope, get_chapter_tx, bind, query.
  cbn [open_session data].
  destruct (find_chapter_by_id chapter_id (chapters d)); reflexivity.
Qed.

(** X6.  A call of [add_chapter_atomic] that returns names a stored chapter:
    looking up the returned [chapter_id] with [get_chapter_db] gives a row
    of the novel that stands at the returned [chapter_index] and carries the
    [source_url] of the request, be it the row just inserted or the
    duplicate that was found. *)
Theorem added_chapter_is_found_by_id :
  forall (float : string -> option spec_float) (user_id novel_slug : string)
         (chapter_data : ChapterData.t) (d d' : Database) (r : AddResult),
    primary_keys_ok d ->
    add_chapter_atomic float user_id novel_slug chapter_data d
    = (Return r, d') ->
    exists row,
      get_chapter_db (chapter_id r) d' = (Return (Some (to_dict row)), d')
      /\ Chapter.id row = chapter_id r
      /\ Chapter.position row = chapter_index r
      /\ Chapter.source_url row = ChapterData.source_url chapter_data
      /\ (exists novel,
             find_novel user_id novel_slug d = Some novel
             /\ Chapter.novel_id row = Novel.id novel).
Proof.
  intros float user_id novel_slug chapter_data d d' r [Hnd Hb] Hadd.
  destruct (find_novel user_id novel_slug d) as [novel|] eqn:Hn.
  2:{ rewrite (add_chapter_atomic_not_found float user_id novel_slug
                 chapter_data d Hn) in Hadd. discriminate. }
  destruct (duplicate_of (Novel.id novel) chapter_data (chapters d))
    as [ch|] eqn:Hdup.
  - rewrite (add_chapter_atomic_duplicate float user_id novel_slug
               chapter_data d novel ch Hn Hdup) in Hadd.
    inversion Hadd; subst r d'. clear Hadd.
    cbn [chapter_id chapter_index].
    unfold duplicate_of in Hdup.
    destruct (truthy (ChapterData.source_url chapter_data)); [|discriminate].
    apply find_chapter_by_source_url_found in Hdup.
    destruct Hdup as [Hin [Hnovel Hurl]].
    exists ch. rewrite get_chapter_db_eq.
    rewrite (find_chapter_by_id_In (chapters d) ch Hnd Hin).
    repeat split; try assumption. exists novel. tauto.
  - destruct (add_chapter_atomic_returned float user_id novel_slug
                chapter_data d novel r d' Hn Hdup Hadd) as [_ [Er Ed]].
    subst r d'. clear Hadd.
    cbn [chapter_id chapter_index].
    set (placed := placement float (Novel.id novel) chapter_data (chapters d)).
    set (row := new_chapter_row novel chapter_data (fst placed)
                                (next_chapter_id d)).
    exists row. rewrite get_chapter_db_eq. cbn [chapters].
    change (next_chapter_id d) with (Chapter.id row) at 1.
    rewrite find_chapter_by_id_In.
    + repeat split. exists novel. split; reflexivity.
    + rewrite map_app. unfold placed. rewrite placement_keys.
      apply NoDup_snoc; [exact Hnd|].
      cbn [row new_chapter_row Chapter.id]. intros Hin.
      rewrite Forall_forall in Hb. specialize (Hb _ Hin). lia.
    + apply in_or_app. right. now left.
Qed.

(** An instance of the theorem above: episode 400 is stored with key 4 at
    index 2. *)
Lemma added_chapter_is_found_by_id_witness :
  let chapter_data := example_data (Some "4") (viewer_url "400") None in
  let called := add_chapter_atomic float_of_digits "reader" "frost-saga"
                  chapter_data library_100_300_500 in
  primary_keys_ok library_100_300_500
  /\ called
     = (Return (mkAddResult true "Chapter imported successfully" false
                            "frost-saga" 2 4),
        snd called)
  /\ exists row,
       get_chapter_db 4 (snd called) = (Return (Some (to_dict row)), snd called)
       /\ Chapter.position row = 2
       /\ Chapter.source_url row = viewer_url "400".
Proof.
  intros chapter_data called.
  assert (Hc : called
               = (Return (mkAddResult true "Chapter imported successfully"
                                      false "frost-saga" 2 4),
                  snd called)) by reflexivity.
  split; [exact library_100_300_500_keys|]. split; [exact Hc|].
  destruct (added_chapter_is_found_by_id float_of_digits "reader"
              "frost-saga" chapter_data library_100_300_500 (snd called) _
              library_100_300_500_keys Hc)
    as [row [Hget [_ [Hpos [Hurl _]]]]].
  exists row. split; [exact Hget|]. split; [exact Hpos | exact Hurl].
Defined.

(** ** Updates and deletions by primary key *)

Lemma update_chapter_db_eq (chapter_id : Z) (updates : ChapterUpdates.t)
    (d : Database) :
  update_chapter_db chapter_id updates d
  = match find_chapter_by_id chapter_id (chapters d) with
    | None => (Return None, d)
    | Some chapter =>
        (Return (Some (to_dict (apply_updates updates chapter))),
         with_chapters
           (map (fun c => if Chapter.id c =? Chapter.id chapter
                          then apply_updates updates c
                          else c)
                (chapters d))
           d)
    end.
Proof.
  unfold update_chapter_db, db_session_scope, update_chapter_tx, bind, query.
  cbn [open_session data].
  destruct (find_chapter_by_id chapter_id (chapters d)); reflexivity.
Qed.

(** Once the token usage records of a chapter are deleted, the chapter has
    none, and the other rows are as before. *)
Lemma has_token_usage_deleted (chapter_id : Z) (rows : list Chapter.t) :
  has_token_usage chapter_id
    (map (fun c => if Chapter.id c =? chapter_id
                   then Chapter.with_token_usage_records 0 c
                   else c)
         rows)
  = false.
Proof.
  unfold has_token_usage. induction rows as [|c rows IH]; [reflexivity|].
  cbn [map existsb]. rewrite IH, orb_false_r.
  destruct (Chapter.id c =? chapter_id) eqn:E.
  - cbn [Chapter.with_token_usage_records Chapter.id
         Chapter.token_usage_records].
    now rewrite andb_false_r.
  - now rewrite E.
Qed.

Lemma without_token_usage_deleted (chapter_id : Z) (rows : list Chapter.t) :
  filter (fun c => negb (Chapter.id c =? chapter_id))
         (map (fun c => if Chapter.id c =? chapter_id
                        then Chapter.with_token_usage_records 0 c
                        else c)
              rows)
  = filter (fun c => negb (Chapter.id c =? chapter_id)) rows.
Proof.
  induction rows as [|c rows IH]; [reflexivity|].
  cbn [map filter]. rewrite IH.
  destruct (Chapter.id c =? chapter_id) eqn:E.
  - cbn [Chapter.with_token_usage_records Chapter.id]. now rewrite E.
  - now rewrite E.
Qed.

Lemma delete_chapter_db_eq (chapter_id : Z) (d : Database) :
  delete_chapter_db chapter_id d
  = match find_chapter_by_id chapter_id (chapters d) with
    | None => (Return false, d)
    | Some chapter => (Return true, with_chapters (without chapter (chapters d)) d)
    end.
Proof.
  unfold delete_chapter_db, db_session_scope, delete_chapter_db_tx, bind,
    query.
  cbn [open_session data].
  destruct (find_chapter_by_id chapter_id (chapters d)) as [chapter|] eqn:Hf;
    [|reflexivity].
  apply find_chapter_by_id_found in Hf. destruct Hf as [_ Hid].
  unfold delete_token_usage, write_rows, session_delete, with_chapters, ret.
  cbn [data chapters novels next_chapter_id locked]. rewrite Hid.
  rewrite has_token_usage_deleted.
  unfold write_rows, with_chapters, open_session.
  cbn [data chapters novels next_chapter_id locked close_session].
  rewrite without_token_usage_deleted. unfold without. now rewrite Hid.
Qed.




(** X8.  An [update_chapter_db] whose [updates] have no key [position]
    leaves the positions of every novel as they were, whatever the key and
    the other updates are; dense positions stay dense. *)
Theorem update_chapter_db_without_position_keeps_positions :
  forall (chapter_id : Z) (updates : ChapterUpdates.t) (d : Database),
    ChapterUpdates.position updates = None ->
    let d' := snd (update_chapter_db chapter_id updates d) in
    (forall novel_id,
        positions_of novel_id (chapters d')
        = positions_of novel_id (chapters d))
    /\ (dense d -> dense d').
Proof.
  intros chapter_id updates d Hp d'.
  assert (H : forall novel_id,
             positions_of novel_id (chapters d')
             = positions_of novel_id (chapters d)).
  { intros novel_id. subst d'. rewrite update_chapter_db_eq.
    destruct (find_chapter_by_id chapter_id (chapters d)) as [chapter|];
      [|reflexivity].
    cbn [snd chapters with_chapters]. unfold positions_of.
    rewrite chapters_of_map.
    - rewrite map_map. apply map_ext. intros c.
      destruct (Chapter.id c =? Chapter.id chapter); [|reflexivity].
      unfold apply_updates. cbn [Chapter.position]. now rewrite Hp.
    - intros c. destruct (Chapter.id c =? Chapter.id chapter); reflexivity. }
  split; [exact H|].
  intros Hd novel_id. unfold contiguous. rewrite H. apply Hd.
Qed.

(** An instance of the theorem above: a new title and a new source URL. *)
Lemma update_chapter_db_without_position_keeps_positions_witness :
  let updates :=
    ChapterUpdates.mk (Some "A new title") None (Some (viewer_url "301"))
                      None None None in
  ChapterUpdates.position updates = None
  /\ dense (snd (update_chapter_db 2 updates library_100_300_500)).
Proof.
  intros updates. split; [reflexivity|].
  apply (update_chapter_db_without_position_keeps_positions 2 updates
           library_100_300_500 eq_refl).
  exact library_100_300_500_dense.
Defined.

Lemma without_no_key (deleted : Chapter.t) (rows : list Chapter.t) :
  find_chapter_by_id (Chapter.id deleted) (without deleted rows) = None.
Proof.
  unfold find_chapter_by_id, without.
  induction rows as [|c rows IH]; [reflexivity|].
  cbn [filter]. destruct (Chapter.id c =? Chapter.id deleted) eqn:E.
  - exact IH.
  - cbn [negb find]. now rewrite E.
Qed.

(** X9.  [delete_chapter_db] on a stored chapter returns True and removes
    the rows with that key and nothing else: the rows that stay keep their
    place and their positions (nothing is renumbered), a lookup of the key
    then finds nothing, and a second deletion returns False and changes
    nothing. *)
Theorem delete_chapter_db_removes_the_row :
  forall (chapter_id : Z) (d : Database) (chapter : Chapter.t),
    find_chapter_by_id chapter_id (chapters d) = Some chapter ->
    let d' := snd (delete_chapter_db chapter_id d) in
    fst (delete_chapter_db chapter_id d) = Return true
    /\ chapters d'
       = filter (fun c => negb (Chapter.id c =? chapter_id)) (chapters d)
    /\ novels d' = novels d
    /\ get_chapter_db chapter_id d' = (Return None, d')
    /\ delete_chapter_db chapter_id d' = (Return false, d').
Proof.
  intros chapter_id d chapter Hf d'. subst d'.
  rewrite delete_chapter_db_eq, Hf. cbn [fst snd].
  destruct (find_chapter_by_id_found _ _ _ Hf) as [_ Hid].
  split; [reflexivity|]. cbn [chapters with_chapters novels].
  split; [unfold without; now rewrite Hid|]. split; [reflexivity|].
  rewrite get_chapter_db_eq, delete_chapter_db_eq.
  cbn [chapters with_chapters].
  rewrite <- Hid, without_no_key. split; reflexivity.
Qed.

(** An instance of the theorem above: the chapter with key 2. *)
Lemma delete_chapter_db_removes_the_row_witness :
  let d' := snd (delete_chapter_db 2 library_100_300_500) in
  find_chapter_by_id 2 (chapters library_100_300_500)
  = Some (example_chapter 2 1 "2" (viewer_url "300"))
  /\ get_chapter_db 2 d' = (Return None, d')
  /\ delete_chapter_db 2 d' = (Return false, d').
Proof.
  intros d'. split; [reflexivity|].
  destruct (delete_chapter_db_removes_the_row 2 library_100_300_500
              (example_chapter 2 1 "2" (viewer_url "300")) eq_refl)
    as [_ [_ [_ [Hget Hagain]]]].
  split; [exact Hget | exact Hagain].
Defined.

(** The deleted row and the rows that stay make up the rows there were. *)
Lemma without_perm (deleted : Chapter.t) (rows : list Chapter.t) :
  NoDup (map Chapter.id rows) -> In deleted rows ->
  Permutation (deleted :: without deleted rows) rows.
Proof.
  unfold without. induction rows as [|c rows IH]; intros Hnd Hin.
  - contradiction.
  - cbn [map] in Hnd. apply NoDup_cons_iff in Hnd. destruct Hnd as [Hc Hnd].
    cbn [filter]. destruct (Chapter.id c =? Chapter.id deleted) eqn:E.
    + apply Z.eqb_eq in E. cbn [negb].
      assert (c = deleted) as ->.
      { destruct Hin as [Hin|Hin]; [exact Hin|].
        exfalso. apply Hc. rewrite E. now apply in_map. }
      apply perm_skip.
      rewrite forallb_filter_id; [apply Permutation_refl|].
      apply forallb_forall. intros x Hx.
      destruct (Chapter.id x =? Chapter.id deleted) eqn:Ex; [|reflexivity].
      apply Z.eqb_eq in Ex. exfalso. apply Hc.
      rewrite <- Ex. now apply in_map.
    + cbn [negb]. destruct Hin as [Hin|Hin].
      { subst c. rewrite Z.eqb_refl in E. discriminate. }
      eapply perm_trans; [apply perm_swap|].
      apply perm_skip, IH; assumption.
Qed.

Lemma chapters_of_perm (novel_id : Z) (l l' : list Chapter.t) :
  Permutation l l' ->
  Permutation (chapters_of novel_id l) (chapters_of novel_id l').
Proof.
  unfold chapters_of.
  induction 1 as [|x l l' Hp IH|x y l|l l' l'' H1 IH1 H2 IH2]; cbn [filter].
  - constructor.
  - destruct (Chapter.novel_id x =? novel_id); [apply perm_skip|]; exact IH.
  - destruct (Chapter.novel_id x =? novel_id),
             (Chapter.novel_id y =? novel_id);
      try apply Permutation_refl. apply perm_swap.
  - eapply perm_trans; eassumption.
Qed.

Lemma positions_without (deleted : Chapter.t) (rows : list Chapter.t) :
  NoDup (map Chapter.id rows) -> In deleted rows ->
  Permutation
    (Chapter.position deleted
     :: positions_of (Chapter.novel_id deleted) (without deleted rows))
    (positions_of (Chapter.novel_id deleted) rows).
Proof.
  intros Hnd Hin. unfold positions_of.
  pose proof (chapters_of_perm (Chapter.novel_id deleted) _ _
                (without_perm deleted rows Hnd Hin)) as Hp.
  unfold chapters_of at 1 in Hp. cbn [filter] in Hp.
  rewrite Z.eqb_refl in Hp.
  apply (Permutation_map Chapter.position) in Hp. exact Hp.
Qed.

(** X10.  [delete_chapter_db] does not close the gap it makes: on a database
    with distinct keys and dense positions, the positions are dense after
    the deletion exactly when the deleted chapter was the last one of its
    novel. *)
Theorem delete_chapter_db_dense_iff_last :
  forall (chapter_id : Z) (d : Database) (chapter : Chapter.t),
    NoDup (map Chapter.id (chapters d)) ->
    dense d ->
    find_chapter_by_id chapter_id (chapters d) = Some chapter ->
    let count :=
      List.length (chapters_of (Chapter.novel_id chapter) (chapters d)) in
    dense (snd (delete_chapter_db chapter_id d))
    <-> Chapter.position chapter = Z.of_nat count - 1.
Proof.
  intros chapter_id d chapter Hnd Hd Hf count.
  rewrite delete_chapter_db_eq, Hf. cbn [snd].
  destruct (find_chapter_by_id_found _ _ _ Hf) as [Hin _].
  pose proof (positions_without chapter (chapters d) Hnd Hin) as Hp.
  set (nid := Chapter.novel_id chapter) in *.
  set (rest := positions_of nid (without chapter (chapters d))) in *.
  pose proof (Hd nid) as Hc.
  assert (Hlen : S (List.length rest) = count).
  { unfold count. rewrite <- positions_of_length.
    now rewrite <- (Permutation_length Hp). }
  split.
  - intros Hd'. specialize (Hd' nid). cbn [chapters with_chapters] in Hd'.
    fold rest in Hd'.
    assert (Hlast : In (Z.of_nat count - 1) (Chapter.position chapter :: rest)).
    { eapply Permutation_in; [apply Permutation_sym, Hp|].
      eapply Permutation_in; [apply Permutation_sym, Hc|].
      apply zrange_In. rewrite positions_of_length. fold count. lia. }
    destruct Hlast as [E|Hlast]; [exact E|].
    pose proof (contiguous_bounds _ _ Hd' Hlast). lia.
  - intros E other. cbn [chapters with_chapters].
    destruct (Z.eq_dec other nid) as [->|Hne].
    + fold rest. unfold contiguous.
      apply Permutation_cons_inv with (a := Chapter.position chapter).
      eapply perm_trans; [exact Hp|].
      eapply perm_trans; [exact Hc|].
      rewrite positions_of_length. fold count.
      rewrite <- Hlen, zrange_S, E, <- Hlen.
      replace (Z.of_nat (S (List.length rest)) - 1)
        with (Z.of_nat (List.length rest)) by lia.
      apply Permutation_sym, Permutation_cons_append.
    + unfold contiguous, positions_of.
      rewrite (without_other_novel nid other chapter (chapters d)
                 eq_refl Hne Hnd Hin).
      apply Hd.
Qed.

(** An instance of the theorem above: the chapter in the middle, after whose
    deletion the positions are 0 and 2. *)
Lemma delete_chapter_db_dense_iff_last_witness :
  NoDup (map Chapter.id (chapters library_100_300_500))
  /\ dense library_100_300_500
  /\ find_chapter_by_id 2 (chapters library_100_300_500)
     = Some (example_chapter 2 1 "2" (viewer_url "300"))
  /\ ~ dense (snd (delete_chapter_db 2 library_100_300_500)).
Proof.
  split; [exact (proj1 library_100_300_500_keys)|].
  split; [exact library_100_300_500_dense|]. split; [reflexivity|].
  intros Hd.
  apply (delete_chapter_db_dense_iff_last 2 library_100_300_500
           (example_chapter 2 1 "2" (viewer_url "300"))
           (proj1 library_100_300_500_keys) library_100_300_500_dense
           eq_refl) in Hd.
  discriminate Hd.
Defined.




(** ** Positions and display indices *)

(** In position order the chapters of a dense novel carry 0, 1, ..., N-1. *)
Lemma dense_sorted_positions (novel_id : Z) (rows : list Chapter.t) :
  contiguous (positions_of novel_id rows) ->
  map Chapter.position (order_by_position (chapters_of novel_id rows))
  = zrange (List.length (chapters_of novel_id rows)).
Proof.
  intros Hd.
  set (L := chapters_of novel_id rows).
  apply (sorted_lt_unique Z (fun z => z)).
  - apply (le_sorted_nodup_lt Z (fun z => z)).
    + exact (sorted_map_key _ Chapter.position _
               (stable_sort_sorted _ Chapter.position L)).
    + rewrite map_id.
      eapply Permutation_NoDup; [|apply (contiguous_NoDup _ Hd)].
      apply Permutation_map, Permutation_sym, stable_sort_perm.
  - exact (zrange_sorted_from 0 _).
  - eapply perm_trans; [apply Permutation_map, stable_sort_perm|].
    unfold contiguous in Hd. rewrite positions_of_length in Hd. exact Hd.
Qed.

Lemma sorted_to_dict (l : list Chapter.t) :
  StronglySorted (key_le Chapter.position) l ->
  StronglySorted (key_le position_key) (map to_dict l).
Proof.
  induction 1 as [|c l Hs IH Hc]; cbn [map]; constructor; [exact IH|].
  apply Forall_map. exact Hc.
Qed.

Lemma get_chapters_for_novel_db_eq (user_id novel_slug : string)
    (d : Database) :
  get_chapters_for_novel_db user_id novel_slug d
  = (Return
       match find_novel user_id novel_slug d with
       | None => []
       | Some novel =>
           map to_dict
               (order_by_position (chapters_of (Novel.id novel) (chapters d)))
       end,
     d).
Proof.
  unfold get_chapters_for_novel_db, db_session_scope,
    get_chapters_for_novel_tx, bind, query_novel.
  cbn [open_session data].
  destruct (find_novel user_id novel_slug d); reflexivity.
Qed.

(** X12.  [get_chapters_for_novel_db] changes nothing and returns the
    chapters of the novel, each once, in ascending order of position; when
    the positions of the novel are dense, the chapter at index k of the
    result has position k.  For a novel that is not found it returns the
    empty list. *)
Theorem get_chapters_for_novel_db_in_position_order :
  forall (user_id novel_slug : string) (d : Database),
  exists chapters_found,
    get_chapters_for_novel_db user_id novel_slug d
    = (Return chapters_found, d)
    /\ (find_novel user_id novel_slug d = None -> chapters_found = [])
    /\ (forall novel,
           find_novel user_id novel_slug d = Some novel ->
           Permutation chapters_found
             (map to_dict (chapters_of (Novel.id novel) (chapters d)))
           /\ StronglySorted (key_le position_key) chapters_found
           /\ (contiguous (positions_of (Novel.id novel) (chapters d)) ->
               map ChapterDict.position chapters_found
               = map Some (zrange (List.length chapters_found)))).
Proof.
  intros user_id novel_slug d. rewrite get_chapters_for_novel_db_eq.
  eexists. split; [reflexivity|].
  destruct (find_novel user_id novel_slug d) as [novel|].
  - split; [discriminate|]. intros novel' E. inversion E; subst novel'.
    split; [apply Permutation_map, stable_sort_perm|].
    split; [apply sorted_to_dict, stable_sort_sorted|].
    intros Hd. rewrite length_map, order_by_position_length.
    rewrite <- (dense_sorted_positions _ _ Hd).
    rewrite !map_map. reflexivity.
  - split; [reflexivity | discriminate].
Qed.

(** An instance of the theorem above: the novel with three chapters. *)
Lemma get_chapters_for_novel_db_in_position_order_witness :
  exists chapters_found,
    get_chapters_for_novel_db "reader" "frost-saga" library_100_300_500
    = (Return chapters_found, library_100_300_500)
    /\ map ChapterDict.position chapters_found = [Some 0; Some 1; Some 2].
Proof.
  destruct (get_chapters_for_novel_db_in_position_order "reader" "frost-saga"
              library_100_300_500) as [found [E [_ H]]].
  exists found. split; [exact E|].
  destruct (H example_novel eq_refl) as [_ [_ Hd]].
  rewrite (Hd (library_100_300_500_dense 1)).
  inversion E. reflexivity.
Defined.

Lemma novel_token_usage_deleted (novel_id : Z) (rows : list Chapter.t) :
  existsb (fun c => (Chapter.novel_id c =? novel_id)
                    && (0 <? Chapter.token_usage_records c)%nat)
          (map (fun c => if Chapter.novel_id c =? novel_id
                         then Chapter.with_token_usage_records 0 c
                         else c)
               rows)
  = false.
Proof.
  induction rows as [|c rows IH]; [reflexivity|].
  cbn [map existsb]. rewrite IH, orb_false_r.
  destruct (Chapter.novel_id c =? novel_id) eqn:E.
  - cbn [Chapter.with_token_usage_records Chapter.novel_id
         Chapter.token_usage_records].
    now rewrite andb_false_r.
  - now rewrite E.
Qed.

Lemma without_novel_token_usage_deleted (novel_id : Z)
    (rows : list Chapter.t) :
  filter (fun c => negb (Chapter.novel_id c =? novel_id))
         (map (fun c => if Chapter.novel_id c =? novel_id
                        then Chapter.with_token_usage_records 0 c
                        else c)
              rows)
  = filter (fun c => negb (Chapter.novel_id c =? novel_id)) rows.
Proof.
  induction rows as [|c rows IH]; [reflexivity|].
  cbn [map filter]. rewrite IH.
  destruct (Chapter.novel_id c =? novel_id) eqn:E.
  - cbn [Chapter.with_token_usage_records Chapter.novel_id]. now rewrite E.
  - now rewrite E.
Qed.

Lemma delete_novel_db_eq (user_id novel_slug : string) (d : Database) :
  delete_novel_db user_id novel_slug d
  = match find_novel user_id novel_slug d with
    | None => (Return false, d)
    | Some novel =>
        (Return true,
         mkDatabase
           (filter (fun n => negb (Novel.id n =? Novel.id novel)) (novels d))
           (filter (fun c => negb (Chapter.novel_id c =? Novel.id novel))
                   (chapters d))
           (next_chapter_id d))
    end.
Proof.
  unfold delete_novel_db, db_session_scope, delete_novel_tx, bind,
    query_novel.
  cbn [open_session data].
  destruct (find_novel user_id novel_slug d) as [novel|]; [|reflexivity].
  unfold delete_token_usage, write_rows, session_delete_novel, with_chapters,
    ret.
  cbn [data chapters novels next_chapter_id locked].
  rewrite novel_token_usage_deleted.
  cbn [data chapters novels next_chapter_id locked close_session].
  now rewrite without_novel_token_usage_deleted.
Qed.

(** X13.  [delete_novel_db] on a novel that is found returns True, removes
    the novel and every chapter of it, and leaves the chapters of every
    other novel as they were, so that dense positions stay dense and the
    primary keys stay in order; on a novel that is not found it returns
    False and changes nothing. *)
Theorem delete_novel_db_removes_the_novel :
  forall (user_id novel_slug : string) (d : Database),
    let d' := snd (delete_novel_db user_id novel_slug d) in
    (find_novel user_id novel_slug d = None ->
     delete_novel_db user_id novel_slug d = (Return false, d))
    /\ (forall novel,
           find_novel user_id novel_slug d = Some novel ->
           fst (delete_novel_db user_id novel_slug d) = Return true
           /\ ~ In novel (novels d')
           /\ chapters_of (Novel.id novel) (chapters d') = []
           /\ (forall other,
                  other <> Novel.id novel ->
                  chapters_of other (chapters d')
                  = chapters_of other (chapters d))
           /\ (dense d -> dense d')
           /\ (primary_keys_ok d -> primary_keys_ok d')).
Proof.
  intros user_id novel_slug d d'. subst d'.
  rewrite delete_novel_db_eq.
  destruct (find_novel user_id novel_slug d) as [novel|];
    [|split; [reflexivity | discriminate]].
  split; [discriminate|]. intros novel' E. inversion E; subst novel'.
  cbn [fst snd novels chapters].
  set (keep := fun c => negb (Chapter.novel_id c =? Novel.id novel)).
  assert (Hgone : chapters_of (Novel.id novel) (filter keep (chapters d)) = []).
  { rewrite chapters_of_filter.
    induction (chapters d) as [|c l IH]; [reflexivity|].
    unfold chapters_of in *. cbn [filter].
    destruct (Chapter.novel_id c =? Novel.id novel) eqn:En; [|exact IH].
    cbn [filter]. unfold keep at 1. rewrite En. exact IH. }
  assert (Hother : forall other,
             other <> Novel.id novel ->
             chapters_of other (filter keep (chapters d))
             = chapters_of other (chapters d)).
  { intros other Hne. rewrite chapters_of_filter.
    apply forallb_filter_id, forallb_forall. intros c Hc.
    apply chapters_of_In in Hc. unfold keep.
    apply negb_true_iff, Z.eqb_neq. destruct Hc. congruence. }
  split; [reflexivity|]. split; [|split; [exact Hgone|split; [exact Hother|]]].
  - intros Hin. apply filter_In in Hin. destruct Hin as [_ Hin].
    rewrite Z.eqb_refl in Hin. discriminate.
  - split.
    + intros Hd other. unfold contiguous, positions_of. cbn [chapters].
      destruct (Z.eq_dec other (Novel.id novel)) as [->|Hne].
      * rewrite Hgone. constructor.
      * rewrite (Hother other Hne). apply Hd.
    + intros [Hnd Hb]. unfold primary_keys_ok.
      cbn [chapters next_chapter_id].
      split; [now apply filter_keys_distinct | now apply Forall_filter_keys].
Qed.

(** An instance of the theorem above: the only novel of the library. *)
Lemma delete_novel_db_removes_the_novel_witness :
  let d' := snd (delete_novel_db "reader" "frost-saga" library_100_300_500) in
  find_novel "reader" "frost-saga" library_100_300_500 = Some example_novel
  /\ chapters_of (Novel.id example_novel) (chapters d') = []
  /\ dense d'.
Proof.
  intros d'. split; [reflexivity|].
  destruct (delete_novel_db_removes_the_novel "reader" "frost-saga"
              library_100_300_500) as [_ H].
  destruct (H example_novel eq_refl) as [_ [_ [Hgone [_ [Hd _]]]]].
  split; [exact Hgone | exact (Hd library_100_300_500_dense)].
Defined.

Lemma nth_error_zrange (n k : nat) :
  (k < n)%nat -> nth_error (zrange n) k = Some (Z.of_nat k).
Proof.
  intros Hk. unfold zrange. rewrite nth_error_map.
  rewrite (nth_error_nth' (seq 0 n) 0%nat) by now rewrite length_seq.
  now rewrite seq_nth.
Qed.

(** The view of a dense novel: the chapters in position order, or in the
    reverse of it. *)
Lemma view_of_dense (novel_id : Z) (rows : list Chapter.t) (order : string) :
  contiguous (positions_of novel_id rows) ->
  sort_chapters_by_number
    (map Some (map to_dict (order_by_position (chapters_of novel_id rows))))
    order
  = if String.eqb order "desc"
    then rev (map to_dict (order_by_position (chapters_of novel_id rows)))
    else map to_dict (order_by_position (chapters_of novel_id rows)).
Proof.
  intros Hd. rewrite sort_chapters_by_number_eq, not_none_map_Some.
  set (E := order_by_position (chapters_of novel_id rows)).
  assert (Hs : StronglySorted (key_le position_key) (map to_dict E))
    by apply sorted_to_dict, stable_sort_sorted.
  unfold sorted. destruct (String.eqb order "desc").
  - rewrite stable_sort_rev, (stable_sort_id _ _ _ Hs); [reflexivity|].
    rewrite map_map.
    change (map (fun c => position_key (to_dict c)) E)
      with (map Chapter.position E).
    unfold E. rewrite (dense_sorted_positions _ _ Hd). apply zrange_NoDup.
  - apply stable_sort_id, Hs.
Qed.

Lemma dense_view_nth (novel_id : Z) (rows : list Chapter.t) (order : string)
    (k : nat) :
  contiguous (positions_of novel_id rows) ->
  (k < List.length (chapters_of novel_id rows))%nat ->
  exists c,
    In c (chapters_of novel_id rows)
    /\ nth_error
         (sort_chapters_by_number
            (map Some
                 (map to_dict (order_by_position (chapters_of novel_id rows))))
            order)
         k
       = Some (to_dict c)
    /\ Chapter.position c
       = if String.eqb order "desc"
         then Z.of_nat (List.length (chapters_of novel_id rows) - 1 - k)
         else Z.of_nat k.
Proof.
  intros Hd Hk. rewrite (view_of_dense _ _ _ Hd).
  pose proof (dense_sorted_positions _ _ Hd) as Hp.
  set (E := order_by_position (chapters_of novel_id rows)) in *.
  set (N := List.length (chapters_of novel_id rows)) in *.
  assert (HN : List.length E = N) by apply order_by_position_length.
  assert (Hat : forall j, (j < N)%nat ->
                          exists c, nth_error E j = Some c
                                    /\ In c (chapters_of novel_id rows)
                                    /\ Chapter.position c = Z.of_nat j).
  { intros j Hj.
    destruct (nth_error E j) as [c|] eqn:Ej.
    - exists c. split; [reflexivity|]. split.
      + apply order_by_position_In. eapply nth_error_In. exact Ej.
      + pose proof (nth_error_zrange N j Hj) as Hz.
        rewrite <- Hp, nth_error_map, Ej in Hz. now inversion Hz.
    - apply nth_error_None in Ej. lia. }
  destruct (String.eqb order "desc").
  - destruct (Hat (N - 1 - k)%nat) as [c [Ec [Hin Hpos]]]; [lia|].
    exists c. split; [exact Hin|]. split; [|exact Hpos].
    rewrite nth_error_rev, length_map, HN.
    replace (k <? N)%nat with true by (symmetry; apply Nat.ltb_lt; lia).
    rewrite nth_error_map.
    replace (N - S k)%nat with (N - 1 - k)%nat by lia.
    now rewrite Ec.
  - destruct (Hat k Hk) as [c [Ec [Hin Hpos]]].
    exists c. split; [exact Hin|]. split; [|exact Hpos].
    now rewrite nth_error_map, Ec.
Qed.

(** X14.  On a novel with dense positions the display index and the
    position determine each other: in the view that
    [sort_chapters_by_number] makes of the chapters returned by
    [get_novel_with_chapters_db], the chapter at index k has position k in
    ascending order and position N-1-k in descending order. *)
Theorem display_index_is_position :
  forall (user_id novel_slug : string) (d : Database) (novel : Novel.t)
         (order : string),
    find_novel user_id novel_slug d = Some novel ->
    contiguous (positions_of (Novel.id novel) (chapters d)) ->
    exists novel_dict,
      get_novel_with_chapters_db user_id novel_slug d
      = (Return (Some novel_dict), d)
      /\ let view :=
           sort_chapters_by_number
             (map Some (NovelDict.chapters novel_dict)) order in
         let count :=
           List.length (chapters_of (Novel.id novel) (chapters d)) in
         List.length view = count
         /\ forall k,
              (k < count)%nat ->
              exists chapter,
                nth_error view k = Some chapter
                /\ ChapterDict.position chapter
                   = Some (if String.eqb order "desc"
                           then Z.of_nat (count - 1 - k)
                           else Z.of_nat k).
Proof.
  intros user_id novel_slug d novel order Hn Hd.
  rewrite get_novel_with_chapters_db_eq, Hn.
  eexists. split; [reflexivity|]. cbn [NovelDict.chapters]. split.
  - rewrite sort_chapters_by_number_eq, not_none_map_Some.
    rewrite (Permutation_length (sorted_perm _ _ _)), length_map.
    apply order_by_position_length.
  - intros k Hk.
    destruct (dense_view_nth _ _ order k Hd Hk) as [c [_ [Ec Hpos]]].
    exists (to_dict c). split; [exact Ec|].
    cbn [to_dict ChapterDict.position]. now rewrite Hpos.
Qed.

(** An instance of the theorem above: the descending view of the novel with
    three chapters. *)
Lemma display_index_is_position_witness :
  find_novel "reader" "frost-saga" library_100_300_500 = Some example_novel
  /\ contiguous (positions_of (Novel.id example_novel)
                              (chapters library_100_300_500))
  /\ exists novel_dict chapter,
       get_novel_with_chapters_db "reader" "frost-saga" library_100_300_500
       = (Return (Some novel_dict), library_100_300_500)
       /\ nth_error
            (sort_chapters_by_number
               (map Some (NovelDict.chapters novel_dict)) "desc") 0
          = Some chapter
       /\ ChapterDict.position chapter = Some 2.
Proof.
  split; [reflexivity|]. split; [exact (library_100_300_500_dense 1)|].
  destruct (display_index_is_position "reader" "frost-saga"
              library_100_300_500 example_novel "desc" eq_refl
              (library_100_300_500_dense 1))
    as [novel_dict [E [_ H]]].
  destruct (H 0%nat) as [chapter [Hnth Hpos]].
  { cbv. lia. }
  exists novel_dict, chapter.
  split; [exact E|]. split; [exact Hnth | exact Hpos].
Defined.

(** ** [delete_chapter] by display index *)

Lemma delete_chapter_eq (default_sort_order user_id novel_slug : string)
    (chapter_index : Z) (d : Database) (novel : Novel.t) :
  find_novel user_id novel_slug d = Some novel ->
  let before :=
    order_by_position (chapters_of (Novel.id novel) (chapters d)) in
  let view :=
    sort_chapters_by_number (map Some (map to_dict before))
      match Novel.sort_order_override novel with
      | Some order => order
      | None => default_sort_order
      end in
  delete_chapter default_sort_order user_id novel_slug chapter_index d
  = match before with
    | [] => (Return false, d)
    | _ =>
        if Z.of_nat (List.length view) <=? chapter_index
        then (Return false, d)
        else
          match py_index view chapter_index with
          | None => (Raise IndexError, d)
          | Some chapter =>
              match find_chapter_by_id (ChapterDict.id chapter) (chapters d)
              with
              | None => (Return false, d)
              | Some deleted =>
                  if has_token_usage (Chapter.id deleted) (chapters d)
                  then (Raise IntegrityError, d)
                  else
                    (Return true,
                     with_chapters
                       (rows_after_delete (Novel.id novel) deleted
                                          (chapters d))
                       d)
              end
          end
    end.
Proof.
  intros Hn before view. subst view before.
  unfold delete_chapter. rewrite get_novel_with_chapters_db_eq, Hn.
  cbn [NovelDict.chapters].
  destruct (order_by_position (chapters_of (Novel.id novel) (chapters d)))
    as [|c0 l0]; [reflexivity|].
  cbn [map]. cbv zeta. unfold display_order.
  cbn [NovelDict.sort_order_override].
  destruct (_ <=? chapter_index); [reflexivity|].
  destruct (py_index _ chapter_index) as [chapter|]; [|reflexivity].
  unfold db_session_scope, delete_chapter_tx, bind, query_novel_for_update.
  cbn [open_session data]. rewrite Hn. unfold query. cbn [data].
  destruct (find_chapter_by_id (ChapterDict.id chapter) (chapters d))
    as [deleted|]; [|reflexivity].
  unfold session_delete. cbn [data chapters].
  destruct (has_token_usage (Chapter.id deleted) (chapters d));
    [destruct d|]; reflexivity.
Qed.

Lemma view_length (l : list Chapter.t) (order : string) :
  List.length (sort_chapters_by_number (map Some (map to_dict l)) order)
  = List.length l.
Proof.
  rewrite sort_chapters_by_number_eq, not_none_map_Some.
  rewrite (Permutation_length (sorted_perm _ _ _)). apply length_map.
Qed.

Lemma view_chapter_is_stored (novel_id : Z) (rows : list Chapter.t)
    (order : string) (chapter : ChapterDict.t) :
  In chapter
     (sort_chapters_by_number
        (map Some (map to_dict (order_by_position (chapters_of novel_id rows))))
        order) ->
  find_chapter_by_id (ChapterDict.id chapter) rows <> None.
Proof.
  intros Hin.
  rewrite sort_chapters_by_number_eq, not_none_map_Some in Hin.
  apply (Permutation_in _ (sorted_perm _ _ _)) in Hin.
  apply in_map_iff in Hin. destruct Hin as [c [E Hc]].
  apply order_by_position_In, chapters_of_In in Hc. destruct Hc as [Hc _].
  unfold find_chapter_by_id. intros Hnone.
  apply (find_none _ _ Hnone) in Hc. subst chapter.
  cbn [to_dict ChapterDict.id] in Hc. rewrite Z.eqb_refl in Hc.
  discriminate.
Qed.

(** What [delete_chapter] answers, by the number of chapters of the novel,
    the index, and the token usage records of the chapter shown at the
    index. *)
Lemma delete_chapter_answer (default_sort_order user_id novel_slug : string)
    (chapter_index : Z) (d : Database) (novel : Novel.t) :
  find_novel user_id novel_slug d = Some novel ->
  let count :=
    Z.of_nat (List.length (chapters_of (Novel.id novel) (chapters d))) in
  let view :=
    sort_chapters_by_number
      (map Some
           (map to_dict
                (order_by_position
                   (chapters_of (Novel.id novel) (chapters d)))))
      match Novel.sort_order_override novel with
      | Some order => order
      | None => default_sort_order
      end in
  fst (delete_chapter default_sort_order user_id novel_slug chapter_index d)
  = if (count =? 0) || (count <=? chapter_index) then Return false
    else if chapter_index <? - count then Raise IndexError
    else match py_index view chapter_index with
         | Some chapter =>
             if has_token_usage (ChapterDict.id chapter) (chapters d)
             then Raise IntegrityError
             else Return true
         | None => Raise IndexError
         end.
Proof.
  intros Hn count view. subst count view.
  rewrite (delete_chapter_eq default_sort_order user_id novel_slug
             chapter_index d novel Hn).
  cbv zeta. rewrite view_length.
  set (order := match Novel.sort_order_override novel with
                | Some order => order
                | None => default_sort_order
                end).
  pose proof (view_chapter_is_stored (Novel.id novel) (chapters d) order)
    as Hstored.
  pose proof (view_length
                (order_by_position
                   (chapters_of (Novel.id novel) (chapters d))) order)
    as Hlen.
  set (view := sort_chapters_by_number _ order) in *.
  rewrite order_by_position_length in *.
  set (count := List.length (chapters_of (Novel.id novel) (chapters d)))
    in *.
  destruct (order_by_position (chapters_of (Novel.id novel) (chapters d)))
    as [|c0 l0] eqn:Eb.
  { apply (f_equal (@List.length Chapter.t)) in Eb.
    rewrite order_by_position_length in Eb. fold count in Eb.
    rewrite Eb. reflexivity. }
  assert (Hpos : (0 < count)%nat).
  { apply (f_equal (@List.length Chapter.t)) in Eb.
    rewrite order_by_position_length in Eb. fold count in Eb.
    rewrite Eb. cbn [List.length]. lia. }
  replace (Z.of_nat count =? 0) with false
    by (symmetry; apply Z.eqb_neq; lia).
  cbn [orb].
  destruct (Z.of_nat count <=? chapter_index) eqn:Hhigh; [reflexivity|].
  apply Z.leb_gt in Hhigh.
  destruct (py_index view chapter_index) as [chapter|] eqn:Epy.
  - assert (Hlow : (chapter_index <? - Z.of_nat count) = false).
    { apply Z.ltb_ge. unfold py_index in Epy. rewrite Hlen in Epy.
      destruct (0 <=? chapter_index) eqn:H0; [apply Z.leb_le in H0; lia|].
      destruct (0 <=? Z.of_nat count + chapter_index) eqn:H1;
        [apply Z.leb_le in H1; lia | discriminate Epy]. }
    rewrite Hlow.
    specialize (Hstored chapter (py_index_In _ _ _ Epy)).
    destruct (find_chapter_by_id (ChapterDict.id chapter) (chapters d))
      as [deleted|] eqn:Ef; [|contradiction].
    apply find_chapter_by_id_found in Ef. destruct Ef as [_ Eid].
    rewrite Eid.
    destruct (has_token_usage (ChapterDict.id chapter) (chapters d));
      reflexivity.
  - cbn [fst]. now destruct (chapter_index <? - Z.of_nat count).
Qed.

(** X15.  What [delete_chapter] answers depends on the number N of chapters
    of the novel, on the index, and on the token usage records of the
    chapter shown at the index: False when the novel is not found, when it
    has no chapters and when the index is N or more; an IndexError when the
    index is below -N; for every index from -N to N-1, the negative ones
    included, a chapter is shown at the index, and the answer is an
    IntegrityError when that chapter has token usage records, and True when
    it has none.  Unless it answers True it changes nothing. *)
Theorem delete_chapter_outcome_by_index :
  forall (default_sort_order user_id novel_slug : string)
         (chapter_index : Z) (d : Database),
    let called :=
      delete_chapter default_sort_order user_id novel_slug chapter_index d in
    match find_novel user_id novel_slug d with
    | None => fst called = Return false
    | Some novel =>
        let count :=
          Z.of_nat
            (List.length (chapters_of (Novel.id novel) (chapters d))) in
        let view :=
          sort_chapters_by_number
            (map Some
                 (map to_dict
                      (order_by_position
                         (chapters_of (Novel.id novel) (chapters d)))))
            match Novel.sort_order_override novel with
            | Some order => order
            | None => default_sort_order
            end in
        (count = 0 \/ count <= chapter_index -> fst called = Return false)
        /\ (0 < count -> chapter_index < - count ->
            fst called = Raise IndexError)
        /\ (- count <= chapter_index < count ->
            exists chapter,
              py_index view chapter_index = Some chapter
              /\ fst called
                 = if has_token_usage (ChapterDict.id chapter) (chapters d)
                   then Raise IntegrityError
                   else Return true)
    end
    /\ (fst called <> Return true -> snd called = d).
Proof.
  intros default_sort_order user_id novel_slug chapter_index d called.
  split.
  - destruct (find_novel user_id novel_slug d) as [novel|] eqn:Hn.
    2:{ unfold called, delete_chapter.
        rewrite get_novel_with_chapters_db_eq, Hn. reflexivity. }
    pose proof (delete_chapter_answer default_sort_order user_id novel_slug
                  chapter_index d novel Hn) as Ha.
    cbv zeta in Ha |- *. fold called in Ha.
    set (count := Z.of_nat
                    (List.length (chapters_of (Novel.id novel) (chapters d))))
      in *.
    set (view := sort_chapters_by_number _ _) in *.
    split; [|split].
    + intros Hc. rewrite Ha.
      destruct Hc as [Hc|Hc].
      * rewrite Hc. reflexivity.
      * replace (count <=? chapter_index) with true
          by (symmetry; apply Z.leb_le; exact Hc).
        now rewrite orb_true_r.
    + intros Hpos Hlow. rewrite Ha.
      replace (count =? 0) with false by (symmetry; apply Z.eqb_neq; lia).
      replace (count <=? chapter_index) with false
        by (symmetry; apply Z.leb_gt; lia).
      replace (chapter_index <? - count) with true
        by (symmetry; apply Z.ltb_lt; exact Hlow).
      reflexivity.
    + intros Hin.
      assert (Hlen : Z.of_nat (List.length view) = count).
      { unfold view. rewrite view_length, order_by_position_length.
        reflexivity. }
      assert (Hpy : exists chapter, py_index view chapter_index = Some chapter).
      { unfold py_index. rewrite Hlen.
        destruct (0 <=? chapter_index) eqn:H0.
        - apply Z.leb_le in H0.
          destruct (nth_error view (Z.to_nat chapter_index)) as [ch|] eqn:E;
            [now exists ch|].
          apply nth_error_None in E. lia.
        - apply Z.leb_gt in H0.
          replace (0 <=? count + chapter_index) with true
            by (symmetry; apply Z.leb_le; lia).
          destruct (nth_error view (Z.to_nat (count + chapter_index)))
            as [ch|] eqn:E; [now exists ch|].
          apply nth_error_None in E. lia. }
      destruct Hpy as [chapter Hpy]. exists chapter. split; [exact Hpy|].
      rewrite Ha, Hpy.
      replace (count =? 0) with false by (symmetry; apply Z.eqb_neq; lia).
      replace (count <=? chapter_index) with false
        by (symmetry; apply Z.leb_gt; lia).
      replace (chapter_index <? - count) with false
        by (symmetry; apply Z.ltb_ge; lia).
      reflexivity.
  - intros Hne. subst called.
    destruct (delete_chapter default_sort_order user_id novel_slug
                chapter_index d) as [o d'] eqn:Hdel.
    apply delete_chapter_cases in Hdel. cbn [fst snd] in *.
    destruct Hdel
      as [[E _]
         |[novel [chapter [deleted [_ [_ [_ [[_ [_ E]]|[_ [Eo _]]]]]]]]]].
    + exact E.
    + exact E.
    + contradiction.
Qed.

(** An instance of the theorem above, on a novel whose second chapter has
    token usage records: the index 0 answers True, the index 1 fails on the
    records and changes nothing, the index -3 is an IndexError. *)
Lemma delete_chapter_outcome_by_index_witness :
  fst (delete_chapter "asc" "reader" "frost-saga" 0 library_with_token_usage)
  = Return true
  /\ delete_chapter "asc" "reader" "frost-saga" 1 library_with_token_usage
     = (Raise IntegrityError, library_with_token_usage)
  /\ fst (delete_chapter "asc" "reader" "frost-saga" (-3)
            library_with_token_usage)
     = Raise IndexError
  /\ snd (delete_chapter "asc" "reader" "frost-saga" (-3)
            library_with_token_usage)
     = library_with_token_usage.
Proof.
  pose proof (delete_chapter_outcome_by_index "asc" "reader" "frost-saga" (-3)
                library_with_token_usage) as [Hout Hsame].
  split; [reflexivity|]. split; [reflexivity|]. split.
  - apply (proj1 (proj2 Hout)); reflexivity.
  - apply Hsame. discriminate.
Defined.

Lemma renumbered_keys (k : Z) (l : list Chapter.t) :
  map Chapter.id (renumbered k l) = map Chapter.id l.
Proof.
  revert k. induction l as [|c l IH]; intros k; [reflexivity|].
  cbn [renumbered map]. now rewrite IH.
Qed.

Lemma without_keys (deleted : Chapter.t) (l : list Chapter.t) :
  map Chapter.id (without deleted l)
  = filter (fun key => negb (key =? Chapter.id deleted)) (map Chapter.id l).
Proof.
  unfold without. induction l as [|c l IH]; [reflexivity|].
  cbn [filter map].
  destruct (Chapter.id c =? Chapter.id deleted); cbn [negb map];
    now rewrite IH.
Qed.

(** X16.  On a novel with dense positions and distinct primary keys,
    [delete_chapter] with an index from -N to N-1 acts on the chapter whose
    position is the display slot (the index, or N plus a negative index) in
    ascending order and N-1 minus the slot in descending order.  When that
    chapter has no token usage records the call answers True and has deleted
    it, and the other chapters of the novel keep their order; when it has
    some, the call fails with an IntegrityError and changes nothing. *)
Theorem delete_chapter_deletes_displayed_position :
  forall (default_sort_order user_id novel_slug : string)
         (chapter_index : Z) (d : Database) (novel : Novel.t),
    NoDup (map Chapter.id (chapters d)) ->
    find_novel user_id novel_slug d = Some novel ->
    contiguous (positions_of (Novel.id novel) (chapters d)) ->
    let count :=
      Z.of_nat (List.length (chapters_of (Novel.id novel) (chapters d))) in
    - count <= chapter_index < count ->
    let slot := if 0 <=? chapter_index then chapter_index
                else count + chapter_index in
    let order := match Novel.sort_order_override novel with
                 | Some order => order
                 | None => default_sort_order
                 end in
    let called := delete_chapter default_sort_order user_id novel_slug
                    chapter_index d in
    exists shown,
      In shown (chapters d)
      /\ Chapter.novel_id shown = Novel.id novel
      /\ Chapter.position shown
         = (if String.eqb order "desc" then count - 1 - slot else slot)
      /\ (Chapter.token_usage_records shown = 0%nat ->
          fst called = Return true
          /\ map Chapter.id
                 (order_by_position
                    (chapters_of (Novel.id novel) (chapters (snd called))))
             = filter (fun key => negb (key =? Chapter.id shown))
                      (map Chapter.id
                           (order_by_position
                              (chapters_of (Novel.id novel) (chapters d)))))
      /\ (Chapter.token_usage_records shown <> 0%nat ->
          called = (Raise IntegrityError, d)).
Proof.
  intros default_sort_order user_id novel_slug chapter_index d novel
         Hnd Hn Hd count Hi slot order called.
  assert (Hslot : 0 <= slot < count).
  { unfold slot. destruct (0 <=? chapter_index) eqn:H0.
    - apply Z.leb_le in H0. lia.
    - apply Z.leb_gt in H0. lia. }
  destruct (dense_view_nth (Novel.id novel) (chapters d) order
              (Z.to_nat slot) Hd) as [c [Hin [Ec Hpos]]]; [lia|].
  apply chapters_of_In in Hin. destruct Hin as [Hin Hnovel].
  exists c. split; [exact Hin|]. split; [exact Hnovel|]. split.
  { rewrite Hpos. fold count.
    destruct (String.eqb order "desc"); unfold count in *; lia. }
  pose proof (delete_chapter_eq default_sort_order user_id novel_slug
                chapter_index d novel Hn) as Hrun.
  cbv zeta in Hrun. fold order in Hrun.
  rewrite view_length, order_by_position_length in Hrun. fold count in Hrun.
  assert (Hpy : py_index
                  (sort_chapters_by_number
                     (map Some
                        (map to_dict
                           (order_by_position
                              (chapters_of (Novel.id novel) (chapters d)))))
                     order)
                  chapter_index
                = Some (to_dict c)).
  { unfold py_index. rewrite view_length, order_by_position_length.
    fold count. unfold slot in Ec.
    destruct (0 <=? chapter_index) eqn:H0; [exact Ec|].
    apply Z.leb_gt in H0.
    replace (0 <=? count + chapter_index) with true
      by (symmetry; apply Z.leb_le; lia).
    exact Ec. }
  rewrite Hpy in Hrun. cbn [to_dict ChapterDict.id] in Hrun.
  pose proof (find_chapter_by_id_In (chapters d) c Hnd Hin) as Hfound.
  rewrite Hfound in Hrun.
  rewrite (has_token_usage_found (Chapter.id c) (chapters d) c Hnd Hfound)
    in Hrun.
  replace (count <=? chapter_index) with false in Hrun
    by (symmetry; apply Z.leb_gt; lia).
  destruct (order_by_position (chapters_of (Novel.id novel) (chapters d)))
    as [|c0 l0] eqn:Eb.
  { apply (f_equal (@List.length Chapter.t)) in Eb.
    rewrite order_by_position_length in Eb. unfold count in Hslot.
    rewrite Eb in Hslot. cbn [List.length] in Hslot. lia. }
  rewrite <- Eb. fold called in Hrun. split.
  - intros Hu. rewrite Hu in Hrun. cbn [Nat.ltb Nat.leb] in Hrun.
    rewrite Hrun. cbn [fst snd chapters with_chapters].
    split; [reflexivity|].
    rewrite (chapters_after_delete_sorted (Novel.id novel) c (chapters d) Hnd).
    rewrite renumbered_keys.
    rewrite (remaining_is_prior_order (Novel.id novel) c (chapters d)).
    apply without_keys.
  - intros Hu.
    replace (0 <? Chapter.token_usage_records c)%nat with true in Hrun
      by (symmetry; apply Nat.ltb_lt; lia).
    exact Hrun.
Qed.

(** An instance of the theorem above: the index -1 in descending order
    acts on the chapter at position 0, which has no token usage records. *)
Lemma delete_chapter_deletes_displayed_position_witness :
  NoDup (map Chapter.id (chapters library_with_token_usage))
  /\ find_novel "reader" "frost-saga" library_with_token_usage
     = Some example_novel
  /\ contiguous (positions_of (Novel.id example_novel)
                              (chapters library_with_token_usage))
  /\ exists shown,
       In shown (chapters library_with_token_usage)
       /\ Chapter.position shown = 0
       /\ (Chapter.token_usage_records shown = 0%nat ->
           fst (delete_chapter "desc" "reader" "frost-saga" (-1)
                  library_with_token_usage) = Return true).
Proof.
  assert (Hnd : NoDup (map Chapter.id (chapters library_with_token_usage)))
    by (repeat (constructor; [simpl; intuition discriminate|]); constructor).
  assert (Hd : contiguous (positions_of (Novel.id example_novel)
                             (chapters library_with_token_usage)))
    by apply Permutation_refl.
  split; [exact Hnd|]. split; [reflexivity|]. split; [exact Hd|].
  destruct (delete_chapter_deletes_displayed_position "desc" "reader"
              "frost-saga" (-1) library_with_token_usage example_novel
              Hnd eq_refl Hd)
    as [shown [Hin [_ [Hpos [Hout _]]]]].
  { split; [discriminate | reflexivity]. }
  exists shown. split; [exact Hin|]. split; [exact Hpos|].
  intros Hu. exact (proj1 (Hout Hu)).
Defined.

(** ** The order of a novel after an insertion *)

(** The loop of the sequencer splits the chapters in those it passes over
    and those from its break on. *)
Lemma first_index_where_split (test : Chapter.t -> bool) (l : list Chapter.t)
    (idx : Z) :
  exists passed rest,
    l = passed ++ rest
    /\ first_index_where test idx l (idx + Z.of_nat (List.length l))
       = idx + Z.of_nat (List.length passed)
    /\ Forall (fun c => test c = false) passed
    /\ match rest with
       | [] => True
       | c :: _ => test c = true
       end.
Proof.
  revert idx. induction l as [|c l IH]; intros idx.
  - exists [], []. repeat split. constructor.
  - cbn [first_index_where]. destruct (test c) eqn:T.
    + exists [], (c :: l). repeat split; [cbn [List.length]; lia | constructor | exact T].
    + destruct (IH (idx + 1)) as [passed [rest [E [Ei [Hp Hr]]]]].
      exists (c :: passed), rest. split; [now rewrite E|]. split.
      * replace (idx + Z.of_nat (List.length (c :: l)))
          with (idx + 1 + Z.of_nat (List.length l))
          by (cbn [List.length]; lia).
        rewrite Ei. cbn [List.length]. lia.
      * split; [now constructor | exact Hr].
Qed.

Lemma app_same_length {A : Type} (l1 l1' l2 l2' : list A) :
  List.length l1 = List.length l1' -> l1 ++ l2 = l1' ++ l2' ->
  l1 = l1' /\ l2 = l2'.
Proof.
  revert l1'. induction l1 as [|x l1 IH]; intros [|x' l1'] Hlen E;
    try discriminate.
  - split; [reflexivity | exact E].
  - cbn [app] in E. injection E as Ex E. cbn [List.length] in Hlen.
    destruct (IH l1' (eq_add_S _ _ Hlen) E) as [-> ->].
    now subst x'.
Qed.

(** The positions of the two parts of a dense novel in position order. *)
Lemma dense_parts_positions (passed rest : list Chapter.t) :
  map Chapter.position (passed ++ rest)
  = zrange (List.length (passed ++ rest)) ->
  map Chapter.position passed = zrange (List.length passed)
  /\ map Chapter.position rest
     = map Z.of_nat (seq (List.length passed) (List.length rest)).
Proof.
  intros H. rewrite map_app, length_app in H.
  unfold zrange in H. rewrite seq_app, map_app in H. cbn [Nat.add] in H.
  apply app_same_length in H; [exact H|].
  now rewrite !length_map, length_seq.
Qed.

Section InsertOrder.
Variable novel_id : Z.
Variable rows : list Chapter.t.
Variable passed rest : list Chapter.t.
Variable new_chapter : Chapter.t.

Hypothesis positions_dense : contiguous (positions_of novel_id rows).
Hypothesis parts :
  order_by_position (chapters_of novel_id rows) = passed ++ rest.
Hypothesis new_novel : Chapter.novel_id new_chapter = novel_id.
Hypothesis new_position :
  Chapter.position new_chapter = Z.of_nat (List.length passed).

Let insert_pos := Z.of_nat (List.length passed).

Lemma parts_positions :
  map Chapter.position passed = zrange (List.length passed)
  /\ map Chapter.position rest
     = map Z.of_nat (seq (List.length passed) (List.length rest)).
Proof.
  apply dense_parts_positions. rewrite <- parts.
  rewrite order_by_position_length.
  now apply dense_sorted_positions.
Qed.

Lemma parts_of_novel (c : Chapter.t) :
  In c (passed ++ rest) -> Chapter.novel_id c = novel_id.
Proof.
  rewrite <- parts. intros Hc.
  apply order_by_position_In, chapters_of_In in Hc. tauto.
Qed.

Lemma shift_direct_passed :
  map (fun c => if (Chapter.novel_id c =? novel_id)
                   && (insert_pos <=? Chapter.position c)
                then moved_up c else c) passed
  = passed.
Proof.
  rewrite <- (map_id passed) at 2. apply map_ext_in. intros c Hc.
  assert (Hp : In (Chapter.position c) (zrange (List.length passed))).
  { rewrite <- (proj1 parts_positions). now apply in_map. }
  apply zrange_In in Hp.
  replace (insert_pos <=? Chapter.position c) with false
    by (symmetry; apply Z.leb_gt; unfold insert_pos; lia).
  now rewrite andb_false_r.
Qed.

Lemma shift_direct_rest :
  map (fun c => if (Chapter.novel_id c =? novel_id)
                   && (insert_pos <=? Chapter.position c)
                then moved_up c else c) rest
  = map moved_up rest.
Proof.
  apply map_ext_in. intros c Hc.
  assert (Hp : In (Chapter.position c)
                  (map Z.of_nat
                       (seq (List.length passed) (List.length rest)))).
  { rewrite <- (proj2 parts_positions). now apply in_map. }
  apply in_map_iff in Hp. destruct Hp as [j [Ej Hj]]. apply in_seq in Hj.
  rewrite (parts_of_novel c) by (apply in_or_app; now right).
  rewrite Z.eqb_refl.
  replace (insert_pos <=? Chapter.position c) with true
    by (symmetry; apply Z.leb_le; unfold insert_pos; lia).
  reflexivity.
Qed.

(** The new chapter stands between the two parts, and the chapters of both
    parts keep their order. *)
Lemma order_after_insert :
  order_by_position
    (chapters_of novel_id (shift_direct novel_id insert_pos rows
                           ++ [new_chapter]))
  = passed ++ new_chapter :: map moved_up rest.
Proof.
  apply stable_sort_unique.
  - unfold chapters_of at 1. rewrite filter_app. cbn [filter].
    rewrite new_novel, Z.eqb_refl.
    fold (chapters_of novel_id (shift_direct novel_id insert_pos rows)).
    unfold shift_direct. rewrite chapters_of_map.
    2:{ intros c. destruct (_ && _); reflexivity. }
    eapply perm_trans; [|apply Permutation_middle].
    eapply perm_trans; [apply Permutation_sym, Permutation_cons_append|].
    apply perm_skip.
    pose proof shift_direct_passed as Hp. pose proof shift_direct_rest as Hr.
    cbv beta in Hp, Hr.
    match goal with
    | |- Permutation (map ?sh _) _ =>
        replace (passed ++ map moved_up rest) with (map sh (passed ++ rest))
          by (rewrite map_app; f_equal; [exact Hp | exact Hr])
    end.
    rewrite <- parts.
    apply Permutation_map, Permutation_sym, stable_sort_perm.
  - apply sorted_of_map_key.
    rewrite map_app. cbn [map]. rewrite map_map.
    replace (map (fun c => Chapter.position (moved_up c)) rest)
      with (map (fun p => p + 1) (map Chapter.position rest))
      by (rewrite map_map; reflexivity).
    destruct parts_positions as [-> ->]. rewrite new_position.
    replace (zrange (List.length passed)
             ++ Z.of_nat (List.length passed)
                :: map (fun p => p + 1)
                       (map Z.of_nat
                            (seq (List.length passed) (List.length rest))))
      with (map Z.of_nat
                (seq 0 (List.length passed + S (List.length rest)))).
    + apply zrange_sorted_from.
    + rewrite seq_app, map_app. cbn [Nat.add seq map]. unfold zrange.
      do 2 f_equal. rewrite map_map, <- seq_shift, map_map.
      apply map_ext. intros j. lia.
Qed.

End InsertOrder.

(** What a call that inserts does to the order of the novel. *)
Lemma insert_order (float : string -> option spec_float)
    (user_id novel_slug : string) (chapter_data : ChapterData.t)
    (d : Database) (novel : Novel.t) :
  NoDup (map Chapter.id (chapters d)) ->
  contiguous (positions_of (Novel.id novel) (chapters d)) ->
  find_novel user_id novel_slug d = Some novel ->
  duplicate_of (Novel.id novel) chapter_data (chapters d) = None ->
  ChapterData.position chapter_data = None ->
  insert_accepted float novel chapter_data d = true ->
  exists passed rest,
    order_by_position (chapters_of (Novel.id novel) (chapters d))
    = passed ++ rest
    /\ add_chapter_atomic float user_id novel_slug chapter_data d
       = (Return (mkAddResult true "Chapter imported successfully" false
                              (Novel.slug novel)
                              (Z.of_nat (List.length passed))
                              (next_chapter_id d)),
          mkDatabase (novels d)
            (shift_direct (Novel.id novel) (Z.of_nat (List.length passed))
                          (chapters d)
             ++ [new_chapter_row novel chapter_data
                                 (Z.of_nat (List.length passed))
                                 (next_chapter_id d)])
            (next_chapter_id d + 1))
    /\ order_by_position
         (chapters_of (Novel.id novel)
            (chapters
               (snd (add_chapter_atomic float user_id novel_slug
                       chapter_data d))))
       = passed
         ++ new_chapter_row novel chapter_data
                            (Z.of_nat (List.length passed))
                            (next_chapter_id d)
         :: map moved_up rest
    /\ (forall new_episode_id,
           extract_episode_id_from_url (ChapterData.source_url chapter_data)
           = Some new_episode_id ->
           Forall (fun c => precedes_by_episode_id new_episode_id c = false)
                  passed
           /\ match rest with
              | [] => True
              | c :: _ => precedes_by_episode_id new_episode_id c = true
              end).
Proof.
  intros Hnd Hd Hn Hdup Hp Hacc.
  set (E := order_by_position (chapters_of (Novel.id novel) (chapters d))).
  assert (Hsplit :
            exists passed rest,
              E = passed ++ rest
              /\ compute_insert_pos float chapter_data E
                 = Z.of_nat (List.length passed)
              /\ (forall new_episode_id,
                     extract_episode_id_from_url
                       (ChapterData.source_url chapter_data)
                     = Some new_episode_id ->
                     Forall (fun c =>
                               precedes_by_episode_id new_episode_id c = false)
                            passed
                     /\ match rest with
                        | [] => True
                        | c :: _ =>
                            precedes_by_episode_id new_episode_id c = true
                        end)).
  { unfold compute_insert_pos.
    destruct (extract_episode_id_from_url
                (ChapterData.source_url chapter_data)) as [k|].
    - destruct (first_index_where_split (precedes_by_episode_id k) E 0)
        as [passed [rest [HE [Hi [Hpassed Hrest]]]]].
      exists passed, rest. split; [exact HE|]. split; [exact Hi|].
      intros k' Ek. inversion Ek; subst k'. tauto.
    - destruct (first_index_where_split
                  (precedes_by_chapter_number float
                     (parse_chapter_number float
                        (ChapterData.chapter_number chapter_data)))
                  E 0)
        as [passed [rest [HE [Hi _]]]].
      exists passed, rest. split; [exact HE|]. split; [exact Hi|].
      intros k' Ek. discriminate. }
  destruct Hsplit as [passed [rest [HE [Hi Htest]]]].
  exists passed, rest. split; [exact HE|].
  pose proof (add_chapter_atomic_insert float user_id novel_slug chapter_data
                d novel Hn Hdup Hacc) as Ha.
  cbv zeta in Ha.
  destruct (placement_dense float (Novel.id novel) chapter_data (chapters d)
              Hnd Hd) as [_ Hs].
  { intros p Ep. congruence. }
  rewrite Hs in Ha.
  rewrite (placement_computed float chapter_data d (Novel.id novel) Hp) in Ha.
  fold E in Ha. rewrite Hi in Ha.
  split; [exact Ha|]. split; [|exact Htest].
  rewrite Ha. cbn [snd chapters].
  apply order_after_insert; [exact Hd | exact HE | reflexivity | reflexivity].
Qed.

(** *** The episode ids stay in ascending order *)

Lemma defined_episode_ids_app (l1 l2 : list Chapter.t) :
  defined_episode_ids (l1 ++ l2)
  = defined_episode_ids l1 ++ defined_episode_ids l2.
Proof.
  induction l1 as [|c l1 IH]; [reflexivity|].
  cbn [app defined_episode_ids].
  destruct (extract_episode_id_from_url (Chapter.source_url c));
    now rewrite IH.
Qed.

Lemma defined_episode_ids_map (g : Chapter.t -> Chapter.t)
    (l : list Chapter.t) :
  (forall c, Chapter.source_url (g c) = Chapter.source_url c) ->
  defined_episode_ids (map g l) = defined_episode_ids l.
Proof.
  intros Hg. induction l as [|c l IH]; [reflexivity|].
  cbn [map defined_episode_ids]. now rewrite Hg, IH.
Qed.

Lemma defined_episode_ids_In (l : list Chapter.t) (e : Z) :
  In e (defined_episode_ids l) <->
  exists c, In c l
            /\ extract_episode_id_from_url (Chapter.source_url c) = Some e.
Proof.
  induction l as [|c l IH]; cbn [defined_episode_ids].
  - split; [contradiction | intros [c [[] _]]].
  - destruct (extract_episode_id_from_url (Chapter.source_url c)) as [e0|]
      eqn:E0.
    + cbn [In]. rewrite IH. split.
      * intros [->|[c' [Hc' E']]]; [exists c; split; [now left | exact E0]|].
        exists c'. split; [now right | exact E'].
      * intros [c' [[->|Hc'] E']]; [left; congruence|].
        right. now exists c'.
    + rewrite IH. split.
      * intros [c' [Hc' E']]. exists c'. split; [now right | exact E'].
      * intros [c' [[->|Hc'] E']]; [congruence|]. now exists c'.
Qed.

Lemma sorted_suffix (l1 l2 : list Z) :
  StronglySorted Z.le (l1 ++ l2) -> StronglySorted Z.le l2.
Proof.
  induction l1 as [|x l1 IH]; intros H; [exact H|].
  apply IH. now inversion H.
Qed.

Lemma sorted_insert_middle (l1 l2 : list Z) (x : Z) :
  StronglySorted Z.le (l1 ++ l2) ->
  Forall (fun a => a <= x) l1 -> Forall (fun b => x <= b) l2 ->
  StronglySorted Z.le (l1 ++ x :: l2).
Proof.
  induction l1 as [|a l1 IH]; intros Hs H1 H2.
  - now constructor.
  - cbn [app] in *. inversion Hs as [|? ? Hs' Ha]; subst.
    inversion H1 as [|? ? Hax H1']; subst.
    constructor; [now apply IH|].
    apply Forall_app in Ha. destruct Ha as [Ha1 Ha2].
    apply Forall_app. split; [exact Ha1|]. now constructor.
Qed.

Lemma sorted_filter_defined (keep : Chapter.t -> bool) (l : list Chapter.t) :
  StronglySorted Z.le (defined_episode_ids l) ->
  StronglySorted Z.le (defined_episode_ids (filter keep l)).
Proof.
  induction l as [|c l IH]; intros Hs; [constructor|].
  cbn [defined_episode_ids] in Hs. cbn [filter].
  assert (Hsub : forall e, In e (defined_episode_ids (filter keep l)) ->
                           In e (defined_episode_ids l)).
  { intros e He. apply defined_episode_ids_In in He.
    destruct He as [c' [Hc' E']]. apply filter_In in Hc'.
    apply defined_episode_ids_In. exists c'. tauto. }
  destruct (extract_episode_id_from_url (Chapter.source_url c)) as [e0|]
    eqn:E0.
  - inversion Hs as [|? ? Hs' He0]; subst.
    destruct (keep c); [|now apply IH].
    cbn [defined_episode_ids]. rewrite E0.
    constructor; [now apply IH|].
    rewrite Forall_forall in *. intros e He. apply He0, Hsub, He.
  - destruct (keep c); [|now apply IH].
    cbn [defined_episode_ids]. rewrite E0. now apply IH.
Qed.

(** The new chapter, placed by the loop over episode ids, keeps the defined
    episode ids in ascending order. *)
Lemma defined_episode_ids_insert (passed rest : list Chapter.t)
    (new_chapter : Chapter.t) :
  StronglySorted Z.le (defined_episode_ids (passed ++ rest)) ->
  (forall new_episode_id,
      extract_episode_id_from_url (Chapter.source_url new_chapter)
      = Some new_episode_id ->
      Forall (fun c => precedes_by_episode_id new_episode_id c = false) passed
      /\ match rest with
         | [] => True
         | c :: _ => precedes_by_episode_id new_episode_id c = true
         end) ->
  StronglySorted Z.le
    (defined_episode_ids (passed ++ new_chapter :: map moved_up rest)).
Proof.
  intros Hs Htest.
  rewrite defined_episode_ids_app in *. cbn [defined_episode_ids].
  rewrite (defined_episode_ids_map moved_up rest) by reflexivity.
  destruct (extract_episode_id_from_url (Chapter.source_url new_chapter))
    as [k|]; [|exact Hs].
  destruct (Htest k eq_refl) as [Hpassed Hrest].
  apply sorted_insert_middle; [exact Hs | |].
  - apply Forall_forall. intros e He.
    apply defined_episode_ids_In in He. destruct He as [c [Hc Ec]].
    rewrite Forall_forall in Hpassed.
    apply (proj1 (precedes_by_episode_id_false k c) (Hpassed c Hc)), Ec.
  - destruct rest as [|c rest']; [constructor|].
    apply precedes_by_episode_id_true in Hrest.
    destruct Hrest as [e [Ee Hlt]].
    apply sorted_suffix in Hs. cbn [defined_episode_ids] in *.
    rewrite Ee in *. inversion Hs as [|? ? _ Hall]; subst.
    constructor; [lia|].
    eapply Forall_impl; [|exact Hall]. intros b Hb. cbv beta in Hb. lia.
Qed.

(** One insertion without an explicit position keeps the episode ids of
    every novel in ascending order. *)
Lemma insert_keeps_chronological (float : string -> option spec_float)
    (user_id novel_slug : string) (chapter_data : ChapterData.t)
    (d : Database) :
  NoDup (map Chapter.id (chapters d)) -> dense d ->
  ChapterData.position chapter_data = None ->
  (forall novel_id, chronological novel_id d) ->
  forall novel_id,
    chronological novel_id
      (snd (add_chapter_atomic float user_id novel_slug chapter_data d)).
Proof.
  intros Hnd Hd Hp Hc nid.
  destruct (add_chapter_atomic_unchanged_or_inserted float user_id novel_slug
              chapter_data d) as [[_ [E _]]|[novel [Hn [Hdup [Hacc _]]]]].
  { unfold chronological. rewrite E. apply Hc. }
  destruct (insert_order float user_id novel_slug chapter_data d novel
              Hnd (Hd _) Hn Hdup Hp Hacc)
    as [passed [rest [HE [Ha [Horder Htest]]]]].
  unfold chronological.
  destruct (Z.eq_dec nid (Novel.id novel)) as [->|Hne].
  - rewrite Horder. apply defined_episode_ids_insert.
    + rewrite <- HE. apply Hc.
    + exact Htest.
  - rewrite Ha. cbn [snd chapters].
    unfold chapters_of at 1. rewrite filter_app.
    cbn [filter new_chapter_row Chapter.novel_id].
    replace (Novel.id novel =? nid) with false
      by (symmetry; apply Z.eqb_neq; congruence).
    rewrite app_nil_r.
    fold (chapters_of nid
            (shift_direct (Novel.id novel) (Z.of_nat (List.length passed))
                          (chapters d))).
    replace (chapters_of nid
               (shift_direct (Novel.id novel)
                             (Z.of_nat (List.length passed)) (chapters d)))
      with (chapters_of nid (chapters d)); [apply Hc|].
    unfold shift_direct. rewrite chapters_of_map.
    2:{ intros c. destruct (_ && _); reflexivity. }
    rewrite <- (map_id (chapters_of nid (chapters d))) at 1.
    apply map_ext_in. intros c Hcin. apply chapters_of_In in Hcin.
    replace (Chapter.novel_id c =? Novel.id novel) with false;
      [reflexivity|].
    symmetry. apply Z.eqb_neq. destruct Hcin. congruence.
Qed.

Lemma renumbered_source_urls (k : Z) (l : list Chapter.t) :
  defined_episode_ids (renumbered k l) = defined_episode_ids l.
Proof.
  revert k. induction l as [|c l IH]; intros k; [reflexivity|].
  cbn [renumbered defined_episode_ids Chapter.with_position
       Chapter.source_url].
  now rewrite IH.
Qed.

(** A deletion keeps the episode ids of every novel in ascending order. *)
Lemma delete_keeps_chronological
    (default_sort_order user_id novel_slug : string) (chapter_index : Z)
    (d : Database) :
  NoDup (map Chapter.id (chapters d)) ->
  (forall novel_id, chronological novel_id d) ->
  forall novel_id,
    chronological novel_id
      (snd (delete_chapter default_sort_order user_id novel_slug
              chapter_index d)).
Proof.
  intros Hnd Hc nid.
  destruct (delete_chapter default_sort_order user_id novel_slug
              chapter_index d) as [o d1] eqn:Hdel.
  cbn [snd]. apply delete_chapter_cases in Hdel.
  destruct Hdel
    as [[E _]
       |[novel [chapter [deleted [_ [_ [_ [[_ [_ E]]|[_ [_ Ed']]]]]]]]]].
  1,2: subst d1; apply Hc.
  subst d1. unfold chronological. cbn [chapters with_chapters].
  destruct (Z.eq_dec nid (Novel.id novel)) as [->|Hne].
  - rewrite (chapters_after_delete_sorted _ deleted _ Hnd).
    rewrite renumbered_source_urls.
    rewrite (remaining_is_prior_order (Novel.id novel) deleted (chapters d)).
    apply sorted_filter_defined, Hc.
  - rewrite (chapters_after_delete_other _ deleted _ Hnd nid Hne).
    unfold without. rewrite chapters_of_filter.
    unfold order_by_position. rewrite <- filter_stable_sort.
    apply sorted_filter_defined, Hc.
Qed.

(** X17.  A call of [add_chapter_atomic] that returns from an insertion
    without an explicit position into a novel with dense positions keeps the
    chapters that were there in their order: read in position order, the
    novel is the chapters the sequencer passed over, the new chapter at the
    returned index, and the remaining chapters, each moved up by one.  When
    the episode ids of the novel were ascending in position order, they
    still are. *)
Theorem add_chapter_atomic_keeps_relative_order :
  forall (float : string -> option spec_float) (user_id novel_slug : string)
         (chapter_data : ChapterData.t) (d d' : Database) (novel : Novel.t)
         (r : AddResult),
    NoDup (map Chapter.id (chapters d)) ->
    contiguous (positions_of (Novel.id novel) (chapters d)) ->
    find_novel user_id novel_slug d = Some novel ->
    duplicate_of (Novel.id novel) chapter_data (chapters d) = None ->
    ChapterData.position chapter_data = None ->
    add_chapter_atomic float user_id novel_slug chapter_data d
    = (Return r, d') ->
    let before :=
      order_by_position (chapters_of (Novel.id novel) (chapters d)) in
    let after :=
      order_by_position (chapters_of (Novel.id novel) (chapters d')) in
    exists passed rest new_chapter,
      before = passed ++ rest
      /\ after = passed ++ new_chapter :: map moved_up rest
      /\ r = mkAddResult true "Chapter imported successfully" false
                         (Novel.slug novel)
                         (Z.of_nat (List.length passed))
                         (Chapter.id new_chapter)
      /\ Chapter.position new_chapter = Z.of_nat (List.length passed)
      /\ Chapter.source_url new_chapter
         = ChapterData.source_url chapter_data
      /\ (StronglySorted Z.le (defined_episode_ids before) ->
          StronglySorted Z.le (defined_episode_ids after)).
Proof.
  intros float user_id novel_slug chapter_data d d' novel r Hnd Hd Hn Hdup Hp
         Hadd before after.
  destruct (add_chapter_atomic_returned float user_id novel_slug chapter_data
              d novel r d' Hn Hdup Hadd) as [Hacc _].
  destruct (insert_order float user_id novel_slug chapter_data d novel
              Hnd Hd Hn Hdup Hp Hacc)
    as [passed [rest [HE [Ha [Horder Htest]]]]].
  rewrite Hadd in Horder. cbn [snd] in Horder.
  rewrite Ha in Hadd. inversion Hadd as [[Er Ed]].
  exists passed, rest,
    (new_chapter_row novel chapter_data (Z.of_nat (List.length passed))
                     (next_chapter_id d)).
  split; [exact HE|]. split; [exact Horder|].
  split; [reflexivity|].
  split; [reflexivity|]. split; [reflexivity|].
  intros Hs. unfold after. rewrite Horder.
  apply defined_episode_ids_insert; [|exact Htest].
  unfold before in Hs. now rewrite HE in Hs.
Qed.

(** An instance of the theorem above: episode 400 goes between the episodes
    300 and 500. *)
Lemma add_chapter_atomic_keeps_relative_order_witness :
  let chapter_data := example_data (Some "4") (viewer_url "400") None in
  let called := add_chapter_atomic float_of_digits "reader" "frost-saga"
                  chapter_data library_100_300_500 in
  NoDup (map Chapter.id (chapters library_100_300_500))
  /\ contiguous (positions_of (Novel.id example_novel)
                              (chapters library_100_300_500))
  /\ find_novel "reader" "frost-saga" library_100_300_500 = Some example_novel
  /\ duplicate_of (Novel.id example_novel) chapter_data
                  (chapters library_100_300_500) = None
  /\ ChapterData.position chapter_data = None
  /\ called
     = (Return (mkAddResult true "Chapter imported successfully" false
                            "frost-saga" 2 4),
        snd called)
  /\ StronglySorted Z.le
       (defined_episode_ids
          (order_by_position
             (chapters_of (Novel.id example_novel)
                          (chapters (snd called))))).
Proof.
  intros chapter_data called.
  assert (Hc : called
               = (Return (mkAddResult true "Chapter imported successfully"
                                      false "frost-saga" 2 4),
                  snd called)) by reflexivity.
  split; [exact (proj1 library_100_300_500_keys)|].
  split; [exact (library_100_300_500_dense 1)|].
  split; [reflexivity|]. split; [reflexivity|]. split; [reflexivity|].
  split; [exact Hc|].
  destruct (add_chapter_atomic_keeps_relative_order float_of_digits "reader"
              "frost-saga" chapter_data library_100_300_500 (snd called)
              example_novel _
              (proj1 library_100_300_500_keys) (library_100_300_500_dense 1)
              eq_refl eq_refl eq_refl Hc)
    as [passed [rest [new_chapter [_ [_ [_ [_ [_ Hs]]]]]]]].
  apply Hs, (library_100_300_500_chronological 1).
Defined.

(** X18.  Chronological order is an invariant of the operations that leave
    the position to the code: from a database with distinct primary keys,
    dense positions and, in every novel, episode ids that ascend in position
    order, every state reached by insertions without an explicit position
    and by deletions has these three properties again, whatever the order
    in which the chapters arrive. *)
Theorem episode_ids_stay_ascending :
  forall (float : string -> option spec_float) (ops : list operation)
         (d : Database),
    primary_keys_ok d ->
    dense d ->
    (forall novel_id, chronological novel_id d) ->
    Forall no_explicit_position ops ->
    Forall (fun d' =>
              primary_keys_ok d' /\ dense d'
              /\ forall novel_id, chronological novel_id d')
           (loop_states (run_operation float) ops d).
Proof.
  intros float ops. induction ops as [|op ops IH]; intros d Hk Hd Hc Hops.
  - cbn [loop_states]. constructor; [|constructor].
    split; [exact Hk | split; [exact Hd | exact Hc]].
  - cbn [loop_states]. inversion Hops as [|? ? Hop Hops']; subst.
    constructor; [split; [exact Hk | split; [exact Hd | exact Hc]]|].
    assert (Hallowed : position_allowed op d).
    { destruct op as [u s cd|dso u s i]; [|exact I].
      intros position novel Epos. cbn [no_explicit_position] in Hop.
      congruence. }
    destruct (run_operation_keeps_dense float op d Hk Hd Hallowed)
      as [Hk' Hd'].
    apply IH; [exact Hk' | exact Hd' | | exact Hops'].
    destruct op as [u s cd|dso u s i]; cbn [run_operation].
    + apply insert_keeps_chronological; [apply Hk | exact Hd | exact Hop | exact Hc].
    + apply delete_keeps_chronological; [apply Hk | exact Hc].
Qed.

(** An instance of the theorem above: the episodes 300, 100 and 200 arrive
    in this order and the chapter shown first is then deleted. *)
Lemma episode_ids_stay_ascending_witness :
  let ops :=
    [Insert "reader" "frost-saga"
            (example_data (Some "3") (viewer_url "300") None);
     Insert "reader" "frost-saga"
            (example_data (Some "1") (viewer_url "100") None);
     Insert "reader" "frost-saga"
            (example_data (Some "2") (viewer_url "200") None);
     Delete "asc" "reader" "frost-saga" 0] in
  primary_keys_ok empty_library
  /\ dense empty_library
  /\ (forall novel_id, chronological novel_id empty_library)
  /\ Forall no_explicit_position ops
  /\ Forall (fun d' => forall novel_id, chronological novel_id d')
            (loop_states (run_operation float_of_digits) ops empty_library).
Proof.
  intros ops.
  assert (Hk : primary_keys_ok empty_library) by (split; constructor).
  assert (Hd : dense empty_library) by (intros nid; constructor).
  assert (Hc : forall novel_id, chronological novel_id empty_library)
    by (intros nid; constructor).
  assert (Hops : Forall no_explicit_position ops)
    by (repeat constructor).
  split; [exact Hk|]. split; [exact Hd|]. split; [exact Hc|].
  split; [exact Hops|].
  eapply Forall_impl;
    [|exact (episode_ids_stay_ascending float_of_digits ops empty_library
               Hk Hd Hc Hops)].
  intros d' H. apply H.
Defined.

(** ** Insertion followed by deletion *)

(** The renumbering of a row looks at the keys of the list only. *)
Lemma renumber_row_keys (k : Z) (l l' : list Chapter.t) (c : Chapter.t) :
  map Chapter.id l = map Chapter.id l' ->
  renumber_row k l c = renumber_row k l' c.
Proof.
  revert k l'. induction l as [|x l IH]; intros k [|x' l'] E;
    try discriminate; [reflexivity|].
  cbn [map] in E. injection E as Ex E. cbn [renumber_row].
  rewrite Ex. destruct (Chapter.id c =? Chapter.id x'); [reflexivity|].
  now apply IH.
Qed.







(** ** The display title *)

(** X20.  On a [Novel] object [get_display_title] never returns None or the
    empty string.  On the dictionary that holds the title columns of the
    same novel it returns the same title when one of the three titles is a
    non-empty string; when none is, the object gives "Untitled" and the
    dictionary gives the stored [original_title], which is None or empty:
    the default of [get] is used only for a dictionary without the key
    [original_title]. *)
Theorem get_display_title_object_and_dict :
  forall n : NovelTitles.t,
    let has_title :=
      truthy (NovelTitles.translated_title n)
      || truthy (NovelTitles.title n)
      || truthy (NovelTitles.original_title n) in
    truthy (get_display_title (OrmNovel n)) = true
    /\ (has_title = true ->
        get_display_title (DictNovel (titles_to_dict n))
        = get_display_title (OrmNovel n))
    /\ (has_title = false ->
        get_display_title (OrmNovel n) = Some "Untitled"
        /\ get_display_title (DictNovel (titles_to_dict n))
           = NovelTitles.original_title n
        /\ get_display_title
             (DictNovel
                (NovelTitleDict.mk (Present (NovelTitles.title n)) Absent
                   (Present (NovelTitles.translated_title n))))
           = Some "Untitled").
Proof.
  intros [t o tt].
  destruct tt as [[|? ?]|], t as [[|? ?]|], o as [[|? ?]|];
    cbn; repeat split; intros; try discriminate; reflexivity.
Qed.

(** An instance of the theorem above: a novel whose titles are all empty. *)
Lemma get_display_title_object_and_dict_witness :
  let n := NovelTitles.mk (Some EmptyString) None None in
  get_display_title (OrmNovel n) = Some "Untitled"
  /\ get_display_title (DictNovel (titles_to_dict n)) = None.
Proof.
  intros n.
  destruct (get_display_title_object_and_dict n) as [_ [_ H]].
  destruct (H eq_refl) as [H1 [H2 _]].
  split; [exact H1 | exact H2].
Defined.

(** ** [delete_novel] *)


(** ** Re-sorting *)

Section Renumbering.
Variable novel_id : Z.
Variable rows : list Chapter.t.
Variable in_order : list Chapter.t.

Hypothesis keys_distinct : NoDup (map Chapter.id rows).
Hypothesis in_order_perm : Permutation in_order (chapters_of novel_id rows).

Lemma in_order_keys : NoDup (map Chapter.id in_order).
Proof.
  eapply Permutation_NoDup.
  - apply Permutation_map, Permutation_sym, in_order_perm.
  - unfold chapters_of. now apply filter_keys_distinct.
Qed.

Lemma renumber_from_in_order :
  order_by_position (chapters_of novel_id (renumber_from 0 in_order rows))
  = renumbered 0 in_order.
Proof.
  rewrite (renumber_from_rows 0 in_order rows in_order_keys).
  rewrite chapters_of_map by (intros; apply renumber_row_novel_id).
  apply stable_sort_unique; [|apply renumbered_sorted].
  rewrite <- (renumber_row_on_remaining 0 in_order in_order_keys).
  apply Permutation_map, Permutation_sym, in_order_perm.
Qed.

Lemma renumber_from_other (other : Z) :
  other <> novel_id ->
  chapters_of other (renumber_from 0 in_order rows) = chapters_of other rows.
Proof.
  intros Hne.
  rewrite (renumber_from_rows 0 in_order rows in_order_keys).
  rewrite chapters_of_map by (intros; apply renumber_row_novel_id).
  rewrite <- (map_id (chapters_of other rows)) at 2.
  apply map_ext_in. intros c Hc. apply renumber_row_other.
  rewrite in_map_iff. intros [y [Ey Hy]].
  apply (Permutation_in _ in_order_perm) in Hy.
  apply chapters_of_In in Hc, Hy.
  assert (y = c)
    by (eapply NoDup_map_In_eq; [exact keys_distinct | | | ]; tauto).
  subst y. destruct Hc, Hy. congruence.
Qed.

Lemma renumber_from_keys :
  map Chapter.id (renumber_from 0 in_order rows) = map Chapter.id rows.
Proof.
  rewrite (renumber_from_rows 0 in_order rows in_order_keys), map_map.
  apply map_ext. intros c. apply renumber_row_id.
Qed.

End Renumbering.

Lemma renumbered_episode_no (int : string -> option Z) (k : Z)
    (l : list Chapter.t) :
  map (get_episode_no int) (renumbered k l) = map (get_episode_no int) l.
Proof.
  revert k. induction l as [|c l IH]; intros k; [reflexivity|].
  cbn [renumbered map]. now rewrite IH.
Qed.

Lemma sorted_by_map_key {A : Type} (key : A -> Z) (l : list A) :
  StronglySorted Z.le (map key l) -> StronglySorted (key_le key) l.
Proof.
  induction l as [|x l IH]; cbn [map]; intros H; [constructor|].
  inversion H as [|? ? Hs Hx]; subst.
  constructor; [now apply IH|]. now rewrite Forall_map in Hx.
Qed.

(** X22.  [resort_chapters], called by a logged-in user for a slug that
    names a novel, repairs the positions whatever they were and in whatever
    order the storage returns the chapters: with distinct primary keys, the
    positions of the novel are then exactly 0, ..., N-1, the chapters stand
    in ascending order of the number that follows the last [/viewer/] of
    their source URL (999999999 when there is none), no row is added or
    removed, and the chapters of every other novel are left as they were.
    The owner of the novel plays no part. *)
Theorem resort_chapters_restores_dense_positions :
  forall (int : string -> option Z)
         (scan : list Chapter.t -> list Chapter.t)
         (user_id : option string)
         (novel_slug : string) (d : Database) (novel : Novel.t),
    (forall l, Permutation (scan l) l) ->
    NoDup (map Chapter.id (chapters d)) ->
    truthy user_id = true ->
    find (fun n => String.eqb (Novel.slug n) novel_slug) (novels d)
    = Some novel ->
    let d' := snd (resort_chapters int scan user_id novel_slug d) in
    let after :=
      order_by_position (chapters_of (Novel.id novel) (chapters d')) in
    fst (resort_chapters int scan user_id novel_slug d) = Resorted
    /\ map Chapter.position after = zrange (List.length after)
    /\ contiguous (positions_of (Novel.id novel) (chapters d'))
    /\ StronglySorted (key_le (get_episode_no int)) after
    /\ Permutation (map Chapter.id after)
         (map Chapter.id (chapters_of (Novel.id novel) (chapters d)))
    /\ map Chapter.id (chapters d') = map Chapter.id (chapters d)
    /\ novels d' = novels d
    /\ (forall other,
           other <> Novel.id novel ->
           chapters_of other (chapters d')
           = chapters_of other (chapters d)).
Proof.
  intros int scan user_id novel_slug d novel Hscan Hnd Hu Hn d' after.
  set (in_order := stable_sort (get_episode_no int)
                     (scan (chapters_of (Novel.id novel) (chapters d)))).
  assert (Hrun : resort_chapters int scan user_id novel_slug d
                 = (Resorted,
                    with_chapters (renumber_from 0 in_order (chapters d)) d)).
  { unfold resort_chapters. rewrite Hu.
    unfold db_session_scope, resort_chapters_tx, bind, query_novel_by_slug.
    cbn [open_session data]. rewrite Hn. reflexivity. }
  assert (Hperm : Permutation in_order
                    (chapters_of (Novel.id novel) (chapters d))).
  { eapply perm_trans; [apply stable_sort_perm | apply Hscan]. }
  subst after d'. rewrite Hrun. cbn [fst snd chapters with_chapters novels].
  set (rows' := renumber_from 0 in_order (chapters d)).
  assert (Hafter : order_by_position (chapters_of (Novel.id novel) rows')
                   = renumbered 0 in_order)
    by now apply renumber_from_in_order.
  pose proof (renumbered_positions 0 in_order) as Hpos.
  change (Z.of_nat 0) with 0 in Hpos.
  assert (Hlen : List.length (chapters_of (Novel.id novel) rows')
                 = List.length in_order).
  { rewrite <- order_by_position_length, Hafter. apply renumbered_length. }
  rewrite Hafter.
  split; [reflexivity|]. split; [|split; [|split; [|split; [|split; [|split]]]]].
  - rewrite renumbered_length. exact Hpos.
  - unfold contiguous, positions_of. rewrite length_map, Hlen.
    eapply perm_trans.
    + apply Permutation_map, Permutation_sym.
      apply (stable_sort_perm _ Chapter.position).
    + fold (order_by_position (chapters_of (Novel.id novel) rows')).
      rewrite Hafter, Hpos. apply Permutation_refl.
  - apply sorted_by_map_key.
    rewrite renumbered_episode_no. apply sorted_map_key.
    apply stable_sort_sorted.
  - rewrite renumbered_keys. now apply Permutation_map.
  - now apply (renumber_from_keys (Novel.id novel)).
  - reflexivity.
  - intros other Hne.
    exact (renumber_from_other (Novel.id novel) (chapters d) in_order
             Hnd Hperm other Hne).
Qed.

(** An instance of the theorem above: three chapters stored at positions 5,
    5 and 9, and read in the reverse of their storage order, come out at
    positions 0, 1 and 2 in the order of their episodes. *)
Lemma resort_chapters_restores_dense_positions_witness :
  let d' := snd (resort_chapters int_of_decimal (@rev Chapter.t)
                   (Some "someone else") "frost-saga" library_out_of_order) in
  (forall l : list Chapter.t, Permutation (rev l) l)
  /\ NoDup (map Chapter.id (chapters library_out_of_order))
  /\ truthy (Some "someone else") = true
  /\ find (fun n => String.eqb (Novel.slug n) "frost-saga")
          (novels library_out_of_order) = Some example_novel
  /\ positions_of 1 (chapters library_out_of_order) = [5; 5; 9]
  /\ contiguous (positions_of 1 (chapters d'))
  /\ keys_and_positions 1 d' = [(22, 0); (23, 1); (21, 2)].
Proof.
  intros d'.
  assert (Hscan : forall l : list Chapter.t, Permutation (rev l) l)
    by (intros l; apply Permutation_sym, Permutation_rev).
  assert (Hnd : NoDup (map Chapter.id (chapters library_out_of_order)))
    by (repeat (constructor; [simpl; intuition discriminate|]); constructor).
  split; [exact Hscan|].
  split; [exact Hnd|]. split; [reflexivity|]. split; [reflexivity|].
  split; [reflexivity|]. split; [|reflexivity].
  apply (resort_chapters_restores_dense_positions int_of_decimal
           (@rev Chapter.t) (Some "someone else") "frost-saga"
           library_out_of_order example_novel Hscan Hnd eq_refl eq_refl).
Defined.

Lemma insert_by_map {A : Type} (key : A -> Z) (g : A -> A) (x : A)
    (l : list A) :
  (forall y, key (g y) = key y) ->
  insert_by key (g x) (map g l) = map g (insert_by key x l).
Proof.
  intros Hg. induction l as [|y l IH]; [reflexivity|].
  cbn [map insert_by]. rewrite !Hg.
  destruct (key x <=? key y); [reflexivity|].
  cbn [map]. now rewrite IH.
Qed.

(** Sorting commutes with a rewrite of the elements that keeps the keys. *)
Lemma stable_sort_map {A : Type} (key : A -> Z) (g : A -> A) (l : list A) :
  (forall y, key (g y) = key y) ->
  stable_sort key (map g l) = map g (stable_sort key l).
Proof.
  intros Hg. induction l as [|x l IH]; [reflexivity|].
  cbn [map stable_sort fold_right].
  change (fold_right (insert_by key) [] (map g l))
    with (stable_sort key (map g l)).
  rewrite IH. now apply insert_by_map.
Qed.

Lemma renumber_row_twice (k : Z) (l : list Chapter.t) (c : Chapter.t) :
  renumber_row k l (renumber_row k l c) = renumber_row k l c.
Proof.
  revert k. induction l as [|y l IH]; intros k; [reflexivity|].
  cbn [renumber_row]. destruct (Chapter.id c =? Chapter.id y) eqn:E.
  - cbn [Chapter.with_position Chapter.id]. now rewrite E.
  - rewrite renumber_row_id, E. apply IH.
Qed.

Lemma renumber_row_source_url (k : Z) (l : list Chapter.t) (c : Chapter.t) :
  Chapter.source_url (renumber_row k l c) = Chapter.source_url c.
Proof.
  revert k. induction l as [|y l IH]; intros k; [reflexivity|].
  cbn [renumber_row].
  destruct (Chapter.id c =? Chapter.id y); [reflexivity | apply IH].
Qed.

Lemma resort_chapters_eq (int : string -> option Z)
    (scan : list Chapter.t -> list Chapter.t)
    (user_id : option string) (novel_slug : string) (d : Database) :
  resort_chapters int scan user_id novel_slug d
  = if truthy user_id
    then
      match find (fun n => String.eqb (Novel.slug n) novel_slug) (novels d)
      with
      | None => (NovelNotFound, d)
      | Some novel =>
          (Resorted,
           with_chapters
             (renumber_from 0
                (stable_sort (get_episode_no int)
                   (scan (chapters_of (Novel.id novel) (chapters d))))
                (chapters d))
             d)
      end
    else (Unauthorized, d).
Proof.
  unfold resort_chapters. destruct (truthy user_id); [|reflexivity].
  unfold db_session_scope, resort_chapters_tx, bind, query_novel_by_slug.
  cbn [open_session data].
  destruct (find (fun n => String.eqb (Novel.slug n) novel_slug) (novels d));
    reflexivity.
Qed.

Lemma sorted_lt_map {A : Type} (key : A -> Z) (g : A -> A) (l : list A) :
  (forall y, key (g y) = key y) ->
  StronglySorted (key_lt key) l -> StronglySorted (key_lt key) (map g l).
Proof.
  intros Hg Hs. induction Hs as [|x l Hs IH Hx]; cbn [map]; constructor.
  - exact IH.
  - rewrite Forall_map. eapply Forall_impl; [|exact Hx].
    intros y Hy. unfold key_lt in *. now rewrite !Hg.
Qed.

(** X23.  [resort_chapters] is idempotent on a novel whose chapters have
    pairwise distinct episode numbers, in whatever order the storage
    returns the chapters to the two calls: with distinct primary keys, a
    second call for the same slug finds every position in place and changes
    nothing. *)
Theorem resort_chapters_twice :
  forall (int : string -> option Z)
         (scan scan' : list Chapter.t -> list Chapter.t)
         (user_id : option string) (novel_slug : string) (d : Database),
    (forall l, Permutation (scan l) l) ->
    (forall l, Permutation (scan' l) l) ->
    NoDup (map Chapter.id (chapters d)) ->
    (forall novel,
        find (fun n => String.eqb (Novel.slug n) novel_slug) (novels d)
        = Some novel ->
        NoDup (map (get_episode_no int)
                   (chapters_of (Novel.id novel) (chapters d)))) ->
    let d' := snd (resort_chapters int scan user_id novel_slug d) in
    resort_chapters int scan' user_id novel_slug d'
    = (fst (resort_chapters int scan user_id novel_slug d), d').
Proof.
  intros int scan scan' user_id novel_slug d Hscan Hscan' Hnd Hties d'.
  subst d'.
  rewrite (resort_chapters_eq int scan user_id novel_slug d).
  destruct (truthy user_id) eqn:Hu.
  2:{ cbn [fst snd]. rewrite resort_chapters_eq, Hu. reflexivity. }
  destruct (find (fun n => String.eqb (Novel.slug n) novel_slug) (novels d))
    as [novel|] eqn:Hn.
  2:{ cbn [fst snd]. rewrite resort_chapters_eq, Hu, Hn. reflexivity. }
  specialize (Hties novel eq_refl).
  cbn [fst snd]. rewrite resort_chapters_eq, Hu.
  cbn [novels chapters with_chapters]. rewrite Hn.
  set (in_order := stable_sort (get_episode_no int)
                     (scan (chapters_of (Novel.id novel) (chapters d)))).
  assert (Hperm : Permutation in_order
                    (chapters_of (Novel.id novel) (chapters d))).
  { eapply perm_trans; [apply stable_sort_perm | apply Hscan]. }
  assert (Hkeys : NoDup (map Chapter.id in_order))
    by exact (in_order_keys (Novel.id novel) (chapters d) in_order Hnd Hperm).
  assert (Hlt : StronglySorted (key_lt (get_episode_no int)) in_order).
  { apply le_sorted_nodup_lt; [apply stable_sort_sorted|].
    eapply Permutation_NoDup; [|exact Hties].
    apply Permutation_map, Permutation_sym, Hperm. }
  set (rows' := renumber_from 0 in_order (chapters d)).
  assert (Hrows : rows' = map (renumber_row 0 in_order) (chapters d))
    by now apply renumber_from_rows.
  assert (Hkey : forall c,
             get_episode_no int (renumber_row 0 in_order c)
             = get_episode_no int c).
  { intros c. unfold get_episode_no. now rewrite renumber_row_source_url. }
  assert (Hagain : stable_sort (get_episode_no int)
                     (scan' (chapters_of (Novel.id novel) rows'))
                   = map (renumber_row 0 in_order) in_order).
  { apply stable_sort_unique; [|now apply sorted_lt_map].
    eapply perm_trans; [apply Hscan'|].
    rewrite Hrows.
    rewrite chapters_of_map by (intros; apply renumber_row_novel_id).
    apply Permutation_map, Permutation_sym, Hperm. }
  rewrite Hagain.
  assert (Hsame : renumber_from 0 (map (renumber_row 0 in_order) in_order)
                                rows'
                  = rows').
  { rewrite renumber_from_rows.
    2:{ rewrite map_map.
        replace (map (fun c => Chapter.id (renumber_row 0 in_order c))
                     in_order)
          with (map Chapter.id in_order); [exact Hkeys|].
        apply map_ext. intros c. symmetry. apply renumber_row_id. }
    rewrite Hrows at 1. rewrite map_map. rewrite Hrows.
    apply map_ext. intros c.
    rewrite (renumber_row_keys 0 (map (renumber_row 0 in_order) in_order)
               in_order).
    - apply renumber_row_twice.
    - rewrite map_map. apply map_ext. intros y. apply renumber_row_id. }
  rewrite Hsame. reflexivity.
Qed.

(** An instance of the theorem above: the chapters stored out of order are
    read in storage order by the first call and in the reverse order by the
    second. *)
Lemma resort_chapters_twice_witness :
  let d' := snd (resort_chapters int_of_decimal (fun l => l) (Some "reader")
                   "frost-saga" library_out_of_order) in
  NoDup (map Chapter.id (chapters library_out_of_order))
  /\ NoDup (map (get_episode_no int_of_decimal)
               (chapters_of 1 (chapters library_out_of_order)))
  /\ d' <> library_out_of_order
  /\ resort_chapters int_of_decimal (@rev Chapter.t) (Some "reader")
       "frost-saga" d'
     = (Resorted, d').
Proof.
  intros d'.
  assert (Hnd : NoDup (map Chapter.id (chapters library_out_of_order)))
    by (repeat (constructor; [simpl; intuition discriminate|]); constructor).
  assert (Hties : NoDup (map (get_episode_no int_of_decimal)
                           (chapters_of 1 (chapters library_out_of_order))))
    by (repeat (constructor; [simpl; intuition discriminate|]); constructor).
  split; [exact Hnd|]. split; [exact Hties|]. split; [discriminate|].
  apply (resort_chapters_twice int_of_decimal (fun l => l) (@rev Chapter.t)
           (Some "reader") "frost-saga" library_out_of_order).
  - intros l. apply Permutation_refl.
  - intros l. apply Permutation_sym, Permutation_rev.
  - exact Hnd.
  - intros novel Hn. inversion Hn. exact Hties.
Defined.
